(** * crevr: the session-log parser and the revert handler

    A shallow embedding of [src/parser.ts] (class [ClaudeLogParser]) and of
    [RevertServer.handleRevert], with the properties of the specification
    stated and proved over it.

    Conventions of the embedding.
    - A session file is the list of its lines after
      [content.trim().split('\n')], every line already passed through
      [JSON.parse]: [None] is a line on which [JSON.parse] throws.
    - What [JSON.parse] returns is cast to [ClaudeLogEntry] without a
      check.  It is [null], on which the read of a field throws a
      TypeError; or a number, a string, a boolean or an array, on which
      every field the parser reads is undefined; or a record.
    - A record has the declared type [ClaudeLogEntry] of [src/types.ts]; a
      field the code reads through [?.] or tests for truthiness is an
      [option].  A record of another shape is outside the embedding.
    - A string is a sequence of code units below 256.
    - [new Date().toISOString()] is the parameter [now]. *)

From Stdlib Require Import ZArith Lia Ascii String Decimal DecimalNat DecimalString.
From stdpp Require Import base option list sorting strings gmap.

(** ** JavaScript string primitives used by the parser *)

(** White space removed by [String.prototype.trim], among the code units
    below 256: TAB, LF, VT, FF, CR, SP and NBSP. *)
Definition is_js_space (c : ascii) : bool :=
  let n := nat_of_ascii c in
  bool_decide (n = 9 ∨ n = 10 ∨ n = 11 ∨ n = 12 ∨ n = 13 ∨ n = 32 ∨ n = 160).

Fixpoint trimStart (s : string) : string :=
  match s with
  | EmptyString => EmptyString
  | String c s' => if is_js_space c then trimStart s' else s
  end.

Fixpoint trimEnd (s : string) : string :=
  match s with
  | EmptyString => EmptyString
  | String c s' =>
      match trimEnd s' with
      | EmptyString => if is_js_space c then EmptyString else String c EmptyString
      | r => String c r
      end
  end.

Definition trim (s : string) : string := trimEnd (trimStart s).

(** Truthiness of a string: only the empty string is falsy. *)
Definition truthy (s : string) : bool :=
  match s with EmptyString => false | String _ _ => true end.

(** Truthiness of a possibly undefined string. *)
Definition truthy_opt (o : option string) : bool :=
  match o with Some s => truthy s | None => false end.

(** [a || b] on strings. *)
Definition or_else (a : option string) (b : string) : string :=
  match a with
  | Some s => if truthy s then s else b
  | None => b
  end.

(** A possibly undefined string inside a template literal. *)
Definition tpl (o : option string) : string := default "undefined" o.

(** A loop counter inside a template literal: its decimal numeral. *)
Definition tpl_nat (n : nat) : string := NilEmpty.string_of_uint (Nat.to_uint n).

Definition newline : string := String (ascii_of_nat 10) EmptyString.

(** [parts.join(sep)]. *)
Definition join (sep : string) (parts : list string) : string :=
  String.concat sep parts.

(** [s.endsWith(suffix)]. *)
Definition endsWith (s suffix : string) : bool :=
  String.prefix (String.rev suffix) (String.rev s).

(** [s.replace(pat, '')] with a string pattern: the first occurrence only. *)
Fixpoint remove_first (pat s : string) : string :=
  if String.prefix pat s then
    String.substring (String.length pat) (String.length s - String.length pat) s
  else
    match s with
    | EmptyString => EmptyString
    | String c s' => String c (remove_first pat s')
    end.

(** ** Data model ([src/types.ts]) *)

(** One replacement of an edit. *)
Record EditOp := {
  oldString : option string;
  newString : option string;
  replaceAll : option bool
}.

(** The [input] of a [tool_use] block, read at the keys the parser uses. *)
Record ToolInput := {
  file_path : option string;
  input_content : option string;
  old_string : option string;
  new_string : option string;
  replace_all : option bool;
  edits : option (list EditOp)
}.

(** An element of an array-form [message.content]. *)
Record ContentBlock := {
  block_type : string;
  block_name : option string;
  block_input : option ToolInput;
  block_text : option string
}.

Inductive MessageContent :=
  | StringContent (s : string)
  | ArrayContent (blocks : list ContentBlock).

Record Message := { content : option MessageContent }.

Record ClaudeLogEntry := {
  entry_type : string;
  entry_timestamp : option string;
  message : option Message
}.

Inductive ChangeType := TypeWrite | TypeEdit.

Record FileChange := {
  fc_id : string;
  fc_timestamp : option string;
  fc_type : ChangeType;
  filePath : option string;
  newContent : option string;
  changes : option (list EditOp);
  fc_sessionId : option string;
  fc_sessionFile : option string;
  fc_isLatestSession : option bool;
  fc_userMessage : option string
}.

Record SessionMetadata := {
  sessionId : string;
  sessionFile : string;
  timestamp : string;
  mtime : Z;
  userMessage : string;
  fileCount : nat;
  isLatest : bool
}.

Record ConversationTurn := {
  turn_id : string;
  turn_timestamp : string;
  turn_userMessage : string;
  turn_userMessageFull : string;
  assistantMessage : string;
  fileChanges : list FileChange;
  turn_isLatestSession : bool
}.

Record SessionWithTurns := {
  swt_sessionId : string;
  swt_sessionFile : string;
  swt_timestamp : string;
  swt_mtime : Z;
  swt_isLatest : bool;
  turns : list ConversationTurn
}.

(** The value [JSON.parse] returns on a line, as the parser goes on to read
    it: [null]; a value that is not a record and has none of the fields
    read (a number, a string, a boolean, an array); a record. *)
Inductive Decoded :=
  | Null
  | Fieldless
  | Entry (entry : ClaudeLogEntry).

(** A line of a session file after [JSON.parse]; [None] when it throws. *)
Definition Line := option Decoded.

(** The line of a record. *)
Definition line_of (entry : ClaudeLogEntry) : Line := Some (Entry entry).

(** The record a line decodes to, if it does. *)
Definition record_of (line : Line) : option ClaudeLogEntry :=
  match line with
  | Some (Entry entry) => Some entry
  | Some Null | Some Fieldless | None => None
  end.

(** The line decodes to [null]. *)
Definition is_null (line : Line) : bool :=
  match line with
  | Some Null => true
  | Some Fieldless | Some (Entry _) | None => false
  end.

(** ** Reading an entry *)

(** [entry.message?.content]. *)
Definition message_content (entry : ClaudeLogEntry) : option MessageContent :=
  match message entry with
  | Some m => content m
  | None => None
  end.

(** Truthiness of [entry.message?.content]: undefined and the empty string
    are falsy, every array is truthy. *)
Definition has_content (entry : ClaudeLogEntry) : bool :=
  match message_content entry with
  | Some (StringContent s) => truthy s
  | Some (ArrayContent _) => true
  | None => false
  end.

(** [entry.message?.content && Array.isArray(entry.message.content)],
    returning the array. *)
Definition array_content (entry : ClaudeLogEntry) : option (list ContentBlock) :=
  match message_content entry with
  | Some (ArrayContent blocks) => Some blocks
  | _ => None
  end.

(** [content.type === 'text' && content.text && content.text.trim()]. *)
Definition is_nonblank_text (c : ContentBlock) : bool :=
  String.eqb (block_type c) "text" &&
  match block_text c with
  | Some t => truthy t && truthy (trim t)
  | None => false
  end.

Inductive ToolKind := KWrite | KEdit | KMultiEdit.

(** The [switch (toolName)] of both extractors. *)
Definition tool_kind (toolName : option string) : option ToolKind :=
  match toolName with
  | Some n =>
      if String.eqb n "Write" then Some KWrite
      else if String.eqb n "Edit" then Some KEdit
      else if String.eqb n "MultiEdit" then Some KMultiEdit
      else None
  | None => None
  end.

(** [input?.key]. *)
Definition input_get {A} (key : ToolInput → option A) (input : option ToolInput) : option A :=
  input ≫= key.

(** ** The flat path: [extractFileChange] and [parseLogFile] *)

(** The object literal built by a case of the [switch] of
    [extractFileChange]: the id carries the timestamp and the tool only. *)
Definition flat_change (timestamp : option string) (kind : ToolKind)
    (input : option ToolInput) : FileChange :=
  match kind with
  | KWrite =>
      {| fc_id := tpl timestamp +:+ "-write";
         fc_timestamp := timestamp;
         fc_type := TypeWrite;
         filePath := input_get file_path input;
         newContent := input_get input_content input;
         changes := None;
         fc_sessionId := None; fc_sessionFile := None;
         fc_isLatestSession := None; fc_userMessage := None |}
  | KEdit =>
      {| fc_id := tpl timestamp +:+ "-edit";
         fc_timestamp := timestamp;
         fc_type := TypeEdit;
         filePath := input_get file_path input;
         newContent := None;
         changes := Some [ {| oldString := input_get old_string input;
                              newString := input_get new_string input;
                              replaceAll := input_get replace_all input |} ];
         fc_sessionId := None; fc_sessionFile := None;
         fc_isLatestSession := None; fc_userMessage := None |}
  | KMultiEdit =>
      {| fc_id := tpl timestamp +:+ "-multiedit";
         fc_timestamp := timestamp;
         fc_type := TypeEdit;
         filePath := input_get file_path input;
         newContent := None;
         changes := input_get edits input;
         fc_sessionId := None; fc_sessionFile := None;
         fc_isLatestSession := None; fc_userMessage := None |}
  end.

(** The [for] loop of [extractFileChange]: it returns at the first
    [tool_use] block whose name is one of the three tools. *)
Fixpoint extractFileChange_loop (timestamp : option string)
    (blocks : list ContentBlock) : option FileChange :=
  match blocks with
  | [] => None
  | c :: rest =>
      if String.eqb (block_type c) "tool_use" then
        match tool_kind (block_name c) with
        | Some kind => Some (flat_change timestamp kind (block_input c))
        | None => extractFileChange_loop timestamp rest
        end
      else extractFileChange_loop timestamp rest
  end.

Definition extractFileChange (entry : ClaudeLogEntry) : option FileChange :=
  match array_content entry with
  | Some blocks => extractFileChange_loop (entry_timestamp entry) blocks
  | None => None
  end.

(** The body of the [for (const line of lines)] loop of [parseLogFile].
    The [try] holds [JSON.parse] and the reads of the entry: the [catch]
    leaves [changes] as it was when [JSON.parse] throws and when the read
    of [entry.type] throws on [null]. *)
Definition parseLogFile_step (changes : list FileChange) (line : Line) : list FileChange :=
  match line with
  | Some (Entry entry) =>
      if String.eqb (entry_type entry) "assistant" && has_content entry then
        match extractFileChange entry with
        | Some change => changes ++ [change]
        | None => changes
        end
      else changes
  | Some Fieldless => changes
  | Some Null => changes
  | None => changes
  end.

Definition parseLogFile (lines : list Line) : list FileChange :=
  foldl parseLogFile_step [] lines.

(** ** The turn path: [extractAllFileChanges] *)

(** The object literal built by a case of the [switch] of
    [extractAllFileChanges]. *)
Definition turn_change (turnId : string) (timestamp : option string)
    (isLatestSession : bool) (kind : ToolKind) (changeIndex : nat)
    (input : option ToolInput) : FileChange :=
  match kind with
  | KWrite =>
      {| fc_id := turnId +:+ "-" +:+ tpl timestamp +:+ "-write-" +:+ tpl_nat changeIndex;
         fc_timestamp := Some (or_else timestamp "");
         fc_type := TypeWrite;
         filePath := input_get file_path input;
         newContent := input_get input_content input;
         changes := None;
         fc_sessionId := None; fc_sessionFile := None;
         fc_isLatestSession := Some isLatestSession; fc_userMessage := None |}
  | KEdit =>
      {| fc_id := turnId +:+ "-" +:+ tpl timestamp +:+ "-edit-" +:+ tpl_nat changeIndex;
         fc_timestamp := Some (or_else timestamp "");
         fc_type := TypeEdit;
         filePath := input_get file_path input;
         newContent := None;
         changes := Some [ {| oldString := input_get old_string input;
                              newString := input_get new_string input;
                              replaceAll := input_get replace_all input |} ];
         fc_sessionId := None; fc_sessionFile := None;
         fc_isLatestSession := Some isLatestSession; fc_userMessage := None |}
  | KMultiEdit =>
      {| fc_id := turnId +:+ "-" +:+ tpl timestamp +:+ "-multiedit-" +:+ tpl_nat changeIndex;
         fc_timestamp := Some (or_else timestamp "");
         fc_type := TypeEdit;
         filePath := input_get file_path input;
         newContent := None;
         changes := input_get edits input;
         fc_sessionId := None; fc_sessionFile := None;
         fc_isLatestSession := Some isLatestSession; fc_userMessage := None |}
  end.

(** The body of the [for] loop of [extractAllFileChanges] on the loop state
    [(changes, changeIndex)]: the counter advances at every [tool_use]
    block, and a change is pushed only when its [filePath] is truthy. *)
Definition extractAll_step (turnId : string) (timestamp : option string)
    (isLatestSession : bool) (st : list FileChange * nat) (c : ContentBlock)
    : list FileChange * nat :=
  let '(changes, changeIndex) := st in
  if String.eqb (block_type c) "tool_use" then
    let changeIndex := S changeIndex in
    match tool_kind (block_name c) with
    | Some kind =>
        let change := turn_change turnId timestamp isLatestSession kind
                        changeIndex (block_input c) in
        if truthy_opt (filePath change) then (changes ++ [change], changeIndex)
        else (changes, changeIndex)
    | None => (changes, changeIndex)
    end
  else (changes, changeIndex).

Definition extractAllFileChanges (entry : ClaudeLogEntry) (turnId : string)
    (isLatestSession : bool) : list FileChange :=
  match array_content entry with
  | Some blocks =>
      fst (foldl (extractAll_step turnId (entry_timestamp entry) isLatestSession)
             ([], 0) blocks)
  | None => []
  end.

(** ** Session metadata: [extractSessionMetadata] *)

(** The file system as the parser sees it.  A node of the project log
    directory is [None] when [stat] or [readFile] throws on it.  A file
    that can be read has its [mtime] and its lines: [split] returns at
    least one element, the only one being the empty line for an empty
    file, so the first line is kept apart. *)
Record SessionFile := {
  file_mtime : Z;
  first_line : Line;
  more_lines : list Line
}.

(** [content.trim().split('\n')], each line decoded. *)
Definition file_lines (f : SessionFile) : list Line :=
  first_line f :: more_lines f.

Inductive ProjectDir :=
  | NoDirectory
  | NotADirectory
  | Directory (files : list (string * option SessionFile)).

(** [path.join(dir, file)] for a plain file name. *)
Definition path_join (dir file : string) : string := dir +:+ "/" +:+ file.

(** The inner [for] loop over an array-form user content: the first block
    of type [text] with a truthy [text], cut to 100 code units. *)
Fixpoint first_text_100 (blocks : list ContentBlock) : option string :=
  match blocks with
  | [] => None
  | c :: rest =>
      if String.eqb (block_type c) "text" && truthy_opt (block_text c) then
        Some (String.substring 0 100 (default "" (block_text c)))
      else first_text_100 rest
  end.

(** The counting loop: one for every [tool_use] block named [Write],
    [Edit] or [MultiEdit]. *)
Definition count_step (fileCount : nat) (c : ContentBlock) : nat :=
  if String.eqb (block_type c) "tool_use" &&
     (String.eqb (default "" (block_name c)) "Write" ||
      String.eqb (default "" (block_name c)) "Edit" ||
      String.eqb (default "" (block_name c)) "MultiEdit")
  then S fileCount else fileCount.

(** The loop state of [extractSessionMetadata]. *)
Record MetaState := {
  firstUserMessage : string;
  meta_timestamp : string;
  meta_fileCount : nat
}.

(** The body of the loop of [extractSessionMetadata].  On [null] the first
    read of a field, [entry.timestamp] or else [entry.type], throws before
    any variable is assigned, and the [catch] goes on to the next line. *)
Definition metadata_step (st : MetaState) (line : Line) : MetaState :=
  match line with
  | None => st
  | Some Null => st
  | Some Fieldless => st
  | Some (Entry entry) =>
      let timestamp :=
        if negb (truthy (meta_timestamp st)) && truthy_opt (entry_timestamp entry)
        then default "" (entry_timestamp entry) else meta_timestamp st in
      let firstUserMessage :=
        if String.eqb (entry_type entry) "user" &&
           String.eqb (firstUserMessage st) "No message" && has_content entry
        then
          match message_content entry with
          | Some (StringContent s) => String.substring 0 100 s
          | Some (ArrayContent blocks) =>
              default (firstUserMessage st) (first_text_100 blocks)
          | None => firstUserMessage st
          end
        else firstUserMessage st in
      let fileCount :=
        if String.eqb (entry_type entry) "assistant" then
          match array_content entry with
          | Some blocks => foldl count_step (meta_fileCount st) blocks
          | None => meta_fileCount st
          end
        else meta_fileCount st in
      {| firstUserMessage := firstUserMessage;
         meta_timestamp := timestamp;
         meta_fileCount := fileCount |}
  end.

Definition metadata_scan (lines : list Line) : MetaState :=
  foldl metadata_step
    {| firstUserMessage := "No message"; meta_timestamp := ""; meta_fileCount := 0 |}
    lines.

(** [extractSessionMetadata(path.join(projectLogDir, file))]; the result is
    [None] where the source returns [null]. *)
Definition extractSessionMetadata (now projectLogDir file : string)
    (node : option SessionFile) : option SessionMetadata :=
  match node with
  | None => None
  | Some f =>
      let lines := file_lines f in
      if bool_decide (length lines = 0) then None
      else
        let st := metadata_scan lines in
        Some {| sessionId := remove_first ".jsonl" file;
                sessionFile := path_join projectLogDir file;
                timestamp := or_else (Some (meta_timestamp st)) now;
                mtime := file_mtime f;
                userMessage := firstUserMessage st;
                fileCount := meta_fileCount st;
                isLatest := false |}
  end.

(** ** Listing the sessions: [getAllSessionMetadata] *)

(** [sessions.sort((a, b) => b.mtime - a.mtime)].  The sort of an array is
    stable, so the result is the stable arrangement by decreasing [mtime];
    insertion from the right computes it. *)
Fixpoint insert_session (s : SessionMetadata) (sorted : list SessionMetadata)
    : list SessionMetadata :=
  match sorted with
  | [] => [s]
  | s' :: rest =>
      if (mtime s' <=? mtime s)%Z then s :: s' :: rest
      else s' :: insert_session s rest
  end.

Definition sort_sessions (sessions : list SessionMetadata) : list SessionMetadata :=
  foldr insert_session [] sessions.

Definition set_isLatest (v : bool) (s : SessionMetadata) : SessionMetadata :=
  {| sessionId := sessionId s; sessionFile := sessionFile s;
     timestamp := timestamp s; mtime := mtime s;
     userMessage := userMessage s; fileCount := fileCount s;
     isLatest := v |}.

(** [if (sessions.length > 0) sessions[0].isLatest = true]. *)
Definition mark_latest (sessions : list SessionMetadata) : list SessionMetadata :=
  match sessions with
  | [] => []
  | s :: rest => set_isLatest true s :: rest
  end.

Definition is_jsonl (f : string * option SessionFile) : bool :=
  endsWith (fst f) ".jsonl".

(** The body of the loop that collects the metadata of each file. *)
Definition collect_step (now projectLogDir : string)
    (sessions : list SessionMetadata) (f : string * option SessionFile)
    : list SessionMetadata :=
  match extractSessionMetadata now projectLogDir (fst f) (snd f) with
  | Some metadata => sessions ++ [metadata]
  | None => sessions
  end.

Definition getAllSessionMetadata (now projectLogDir : string) (dir : ProjectDir)
    : list SessionMetadata :=
  match dir with
  | Directory files =>
      let jsonlFiles := List.filter is_jsonl files in
      if bool_decide (length jsonlFiles = 0) then []
      else
        let sessions := foldl (collect_step now projectLogDir) [] jsonlFiles in
        mark_latest (sort_sessions sessions)
  | NoDirectory | NotADirectory => []
  end.

(** ** Classifying and reading messages *)

(** [isToolResultEntry]: is a [user] entry the echo of a tool result? *)
Definition isToolResultEntry (entry : ClaudeLogEntry) : bool :=
  if negb (has_content entry) then false
  else
    match message_content entry with
    | Some (StringContent _) => false
    | Some (ArrayContent blocks) =>
        if existsb is_nonblank_text blocks then false
        else if existsb (λ c, String.eqb (block_type c) "tool_result") blocks then true
        else false
    | None => false
    end.

(** The first block of type [text] whose text is not blank. *)
Fixpoint first_nonblank_text (blocks : list ContentBlock) : option string :=
  match blocks with
  | [] => None
  | c :: rest =>
      if is_nonblank_text c then block_text c else first_nonblank_text rest
  end.

Definition extractUserMessage (entry : ClaudeLogEntry) : string :=
  if negb (has_content entry) then "No message"
  else
    match message_content entry with
    | Some (StringContent s) => or_else (Some (trim s)) "No message"
    | Some (ArrayContent blocks) => default "No message" (first_nonblank_text blocks)
    | None => "No message"
    end.

(** The loop of [extractAssistantText] that collects the trimmed texts. *)
Definition text_step (textParts : list string) (c : ContentBlock) : list string :=
  if is_nonblank_text c then textParts ++ [trim (default "" (block_text c))]
  else textParts.

Definition extractAssistantText (entry : ClaudeLogEntry) : string :=
  if negb (has_content entry) then ""
  else
    match message_content entry with
    | Some (StringContent s) => trim s
    | Some (ArrayContent blocks) =>
        join (newline +:+ newline) (foldl text_step [] blocks)
    | None => ""
    end.

(** [getFirstUserMessage]: the loop returns at the first user entry that
    carries a text; the reads of the entry are inside the [try]. *)
Fixpoint getFirstUserMessage (lines : list Line) : string :=
  match lines with
  | [] => "No message"
  | None :: rest => getFirstUserMessage rest
  | Some Null :: rest => getFirstUserMessage rest
  | Some Fieldless :: rest => getFirstUserMessage rest
  | Some (Entry entry) :: rest =>
      if String.eqb (entry_type entry) "user" && has_content entry then
        match message_content entry with
        | Some (StringContent s) =>
            if truthy (trim s) then s else getFirstUserMessage rest
        | Some (ArrayContent blocks) =>
            match first_nonblank_text blocks with
            | Some t => t
            | None => getFirstUserMessage rest
            end
        | None => getFirstUserMessage rest
        end
      else getFirstUserMessage rest
  end.

(** ** Results of the operations that can throw *)

Inductive Exn :=
  | Error (msg : string)
  | FsError
  | TypeError.

Inductive Result (A : Type) :=
  | Ok (a : A)
  | Throw (e : Exn).
Arguments Ok {A} a.
Arguments Throw {A} e.

(** The node of [path.join(projectLogDir, sessionId + '.jsonl')]:
    [None] when [fs.promises.access] throws. *)
Definition lookup_session (dir : ProjectDir) (sessionId : string)
    : option (option SessionFile) :=
  match dir with
  | Directory files =>
      snd <$> List.find (λ f, String.eqb (fst f) (sessionId +:+ ".jsonl")) files
  | NoDirectory | NotADirectory => None
  end.

(** [sessions.length > 0 && sessions[0].sessionId === sessionId]. *)
Definition is_latest_session (sessions : list SessionMetadata) (sid : string) : bool :=
  match sessions with
  | s :: _ => String.eqb (sessionId s) sid
  | [] => false
  end.

(** The object spread of [getSessionChanges]. *)
Definition with_session (sid path userMsg : string) (isLatestV : bool)
    (change : FileChange) : FileChange :=
  {| fc_id := fc_id change; fc_timestamp := fc_timestamp change;
     fc_type := fc_type change; filePath := filePath change;
     newContent := newContent change; changes := changes change;
     fc_sessionId := Some sid; fc_sessionFile := Some path;
     fc_isLatestSession := Some isLatestV; fc_userMessage := Some userMsg |}.

Definition getSessionChanges (now projectLogDir : string) (dir : ProjectDir)
    (sid : string) : Result (list FileChange) :=
  match lookup_session dir sid with
  | None => Throw (Error ("Session file not found: " +:+ sid))
  | Some None => Throw FsError
  | Some (Some f) =>
      let path := path_join projectLogDir (sid +:+ ".jsonl") in
      let found := parseLogFile (file_lines f) in
      let firstUserMessage := getFirstUserMessage (file_lines f) in
      let sessions := getAllSessionMetadata now projectLogDir dir in
      let isLatestV := is_latest_session sessions sid in
      Ok (with_session sid path firstUserMessage isLatestV <$> found)
  end.

(** [getFileChanges(logFile)] with the log file given. *)
Definition getFileChanges (f : SessionFile) : list FileChange :=
  parseLogFile (file_lines f).

(** ** Conversation turns: [getSessionWithTurns] *)

(** The variables of the loop that builds the turns. *)
Record TurnState := {
  st_turns : list ConversationTurn;
  currentTurn : option ConversationTurn;
  turnCounter : nat
}.

Definition initial_state : TurnState :=
  {| st_turns := []; currentTurn := None; turnCounter := 0 |}.

Definition turn_name (sid : string) (n : nat) : string :=
  sid +:+ "-turn-" +:+ tpl_nat n.

(** [if (currentTurn && currentTurn.fileChanges.length > 0)
       turns.push(currentTurn)]. *)
Definition push_if_changed (emitted : list ConversationTurn)
    (current : option ConversationTurn) : list ConversationTurn :=
  match current with
  | Some t => if bool_decide (0 < length (fileChanges t)) then emitted ++ [t] else emitted
  | None => emitted
  end.

Definition new_turn (sid : string) (n : nat) (ts userMsg : string)
    (isLatestV : bool) : ConversationTurn :=
  {| turn_id := turn_name sid n;
     turn_timestamp := ts;
     turn_userMessage := userMsg;
     turn_userMessageFull := userMsg;
     assistantMessage := "";
     fileChanges := [];
     turn_isLatestSession := isLatestV |}.

(** The first [if] of the loop body: a [user] entry that is not the echo of
    a tool result closes the open turn and opens the next one. *)
Definition user_step (now sid : string) (isLatestV : bool) (st : TurnState)
    (entry : ClaudeLogEntry) : TurnState :=
  if String.eqb (entry_type entry) "user" then
    if negb (isToolResultEntry entry) then
      let emitted := push_if_changed (st_turns st) (currentTurn st) in
      let n := S (turnCounter st) in
      {| st_turns := emitted;
         currentTurn := Some (new_turn sid n (or_else (entry_timestamp entry) now)
                                (extractUserMessage entry) isLatestV);
         turnCounter := n |}
    else st
  else st.

Definition add_changes (found : list FileChange) (t : ConversationTurn)
    : ConversationTurn :=
  {| turn_id := turn_id t; turn_timestamp := turn_timestamp t;
     turn_userMessage := turn_userMessage t;
     turn_userMessageFull := turn_userMessageFull t;
     assistantMessage := assistantMessage t;
     fileChanges := fileChanges t ++ found;
     turn_isLatestSession := turn_isLatestSession t |}.

Definition set_assistantMessage (msg : string) (t : ConversationTurn)
    : ConversationTurn :=
  {| turn_id := turn_id t; turn_timestamp := turn_timestamp t;
     turn_userMessage := turn_userMessage t;
     turn_userMessageFull := turn_userMessageFull t;
     assistantMessage := msg;
     fileChanges := fileChanges t;
     turn_isLatestSession := turn_isLatestSession t |}.

(** The updates of the open turn by an assistant entry. *)
Definition absorb (found : list FileChange) (assistantText : string)
    (t : ConversationTurn) : ConversationTurn :=
  let t1 := if bool_decide (0 < length found) then add_changes found t else t in
  if truthy assistantText then
    if truthy (assistantMessage t1)
    then set_assistantMessage
           (assistantMessage t1 +:+ newline +:+ newline +:+ assistantText) t1
    else set_assistantMessage assistantText t1
  else t1.

(** The second [if] of the loop body: an [assistant] entry with array-form
    content.  The changes are extracted under the id of the open turn, or
    under turn 0 when none is open, before a turn is created for them. *)
Definition assistant_step (now sid : string) (isLatestV : bool) (st : TurnState)
    (entry : ClaudeLogEntry) : TurnState :=
  if String.eqb (entry_type entry) "assistant" then
    match array_content entry with
    | Some _ =>
        let found := extractAllFileChanges entry
                       (or_else (turn_id <$> currentTurn st) (turn_name sid 0))
                       isLatestV in
        let assistantText := extractAssistantText entry in
        let st1 :=
          match currentTurn st with
          | None =>
              if bool_decide (0 < length found) || truthy assistantText then
                let n := S (turnCounter st) in
                {| st_turns := st_turns st;
                   currentTurn := Some (new_turn sid n
                                          (or_else (entry_timestamp entry) now)
                                          "No message" isLatestV);
                   turnCounter := n |}
              else st
          | Some _ => st
          end in
        match currentTurn st1 with
        | Some t =>
            {| st_turns := st_turns st1;
               currentTurn := Some (absorb found assistantText t);
               turnCounter := turnCounter st1 |}
        | None => st1
        end
    | None => st
    end
  else st.

Definition turn_step (now sid : string) (isLatestV : bool) (st : TurnState)
    (entry : ClaudeLogEntry) : TurnState :=
  assistant_step now sid isLatestV (user_step now sid isLatestV st entry) entry.

(** The first loop of [getSessionWithTurns]: whatever [JSON.parse] returns
    is pushed, and a line on which it throws is passed over. *)
Definition parse_entries (lines : list Line) : list Decoded :=
  foldl (λ entries line,
           match line with
           | Some entry => entries ++ [entry]
           | None => entries
           end) [] lines.

(** The body of the second loop on one element of [entries].  No [try]
    surrounds it: the read of [entry.type] throws a TypeError on [null].
    On a value without fields neither [if] holds. *)
Definition loop_body (now sid : string) (isLatestV : bool) (st : TurnState)
    (entry : Decoded) : Result TurnState :=
  match entry with
  | Null => Throw TypeError
  | Fieldless => Ok st
  | Entry entry => Ok (turn_step now sid isLatestV st entry)
  end.

(** [for (const entry of entries)]: a throw of the body ends the call. *)
Fixpoint turn_loop (now sid : string) (isLatestV : bool) (st : TurnState)
    (entries : list Decoded) : Result TurnState :=
  match entries with
  | [] => Ok st
  | entry :: rest =>
      match loop_body now sid isLatestV st entry with
      | Ok st' => turn_loop now sid isLatestV st' rest
      | Throw e => Throw e
      end
  end.

(** [entries.find(e => e.timestamp)?.timestamp]: the callback reads
    [e.timestamp] of each element up to the first one where it is truthy. *)
Fixpoint find_timestamp (entries : list Decoded) : Result (option string) :=
  match entries with
  | [] => Ok None
  | Null :: _ => Throw TypeError
  | Fieldless :: rest => find_timestamp rest
  | Entry e :: rest =>
      if truthy_opt (entry_timestamp e) then Ok (entry_timestamp e)
      else find_timestamp rest
  end.

Definition getSessionWithTurns (now projectLogDir : string) (dir : ProjectDir)
    (sid : string) : Result SessionWithTurns :=
  match lookup_session dir sid with
  | None => Throw (Error ("Session file not found: " +:+ sid))
  | Some None => Throw FsError
  | Some (Some f) =>
      let sessions := getAllSessionMetadata now projectLogDir dir in
      let isLatestV := is_latest_session sessions sid in
      let entries := parse_entries (file_lines f) in
      match turn_loop now sid isLatestV initial_state entries with
      | Throw e => Throw e
      | Ok st =>
          let emitted := push_if_changed (st_turns st) (currentTurn st) in
          match find_timestamp entries with
          | Throw e => Throw e
          | Ok firstTimestamp =>
              Ok {| swt_sessionId := sid;
                    swt_sessionFile := path_join projectLogDir (sid +:+ ".jsonl");
                    swt_timestamp := or_else firstTimestamp now;
                    swt_mtime := file_mtime f;
                    swt_isLatest := isLatestV;
                    turns := emitted |}
          end
      end
  end.

(** The second loop and the push of the last turn when every element of
    [entries] is a record. *)
Definition build_turns (now sid : string) (isLatestV : bool)
    (entries : list ClaudeLogEntry) : list ConversationTurn :=
  let st := foldl (turn_step now sid isLatestV) initial_state entries in
  push_if_changed (st_turns st) (currentTurn st).

(** [entries.find(e => e.timestamp)?.timestamp || now] when every element
    of [entries] is a record. *)
Definition first_timestamp (now : string) (entries : list ClaudeLogEntry) : string :=
  or_else (List.find (λ e, truthy_opt (entry_timestamp e)) entries
             ≫= entry_timestamp) now.

(** ** Reverting a change: [ChangeTracker.revertChange] and
    [RevertServer.handleRevert] *)

(** The fields of a [ParsedChange] that a revert reads. *)
Record ParsedChange := {
  pc_id : string;
  pc_filePath : string;
  pc_oldContent : string;
  pc_isLatestSession : bool
}.

(** Modelled from the spec: the state a revert works on (the class
    [ChangeTracker] of [src/change-tracker.ts] is not among the sources):
    the files on disk, the ledger of reverted changes, keyed by change id,
    and its durable copy. *)
Record Tracker := {
  disk : gmap string string;
  ledger : gmap string string;
  ledger_store : gmap string string
}.

(** Modelled from the spec: the permission or disk errors of section 7 that
    the file operations of one revert may meet; [Some msg] when the
    operation throws an error with message [msg]. *)
Record IoFaults := {
  write_fault : option string;
  rename_fault : option string;
  unlink_fault : option string
}.

(** Modelled from the spec: the reasons of section 7 for which a revert
    throws: the two typed rejections and the failure of a file operation. *)
Inductive RevertFailure :=
  | AlreadyReverted
  | NotLatestSession
  | IoFailure (msg : string).

(** Modelled from the spec: the [message] of the error thrown; section 7
    asks for a specific reason and fixes no wording. *)
Definition failure_message (e : RevertFailure) : string :=
  match e with
  | AlreadyReverted => "Change already reverted"
  | NotLatestSession => "Change belongs to a historical session"
  | IoFailure msg => msg
  end.

(** Modelled from the spec: [canRevert] of section 4.5 (the class
    [ChangeTracker] of [src/change-tracker.ts] is not among the sources):
    [canRevert = isLatestSession AND NOT alreadyReverted(change.id)], the
    ledger being the source of truth for [alreadyReverted]. *)
Definition canRevert (tr : Tracker) (change : ParsedChange) : bool :=
  pc_isLatestSession change && bool_decide (ledger tr !! pc_id change = None).

(** Modelled from the spec: the sibling temporary path of the atomic write
    of step 3. *)
Definition tmp_path (path : string) : string := path +:+ ".tmp".

(** Modelled from the spec: step 4, the upsert of the ledger entry of the
    change with the current time and its flush to durable storage. *)
Definition record_revert (clock : string) (change : ParsedChange)
    (files : gmap string string) (tr : Tracker) : Tracker :=
  {| disk := files;
     ledger := <[pc_id change := clock]> (ledger tr);
     ledger_store := <[pc_id change := clock]> (ledger_store tr) |}.

(** Modelled from the spec: a change of the files that leaves the ledger
    as it was. *)
Definition with_disk (files : gmap string string) (tr : Tracker) : Tracker :=
  {| disk := files; ledger := ledger tr; ledger_store := ledger_store tr |}.

(** Modelled from the spec: [ChangeTracker.revertChange] of section 4.5
    ([src/change-tracker.ts] is not among the sources).  Step 1 rejects a
    change that cannot be reverted, without any file operation.  Step 2
    deletes the target of a creation (empty "before" snapshot) and accepts
    an absent target.  Step 3 overwrites the target with the "before"
    snapshot by writing a sibling temporary file and renaming it over the
    target.  Step 4 upserts the ledger entry and flushes it, on success
    only; by step 5 a failed file operation leaves the ledger as it was.
    The result is [None] on success and [Some e] when the revert throws. *)
Definition revertChange (clock : string) (io : IoFaults) (change : ParsedChange)
    (tr : Tracker) : option RevertFailure * Tracker :=
  if negb (canRevert tr change) then
    (Some (if pc_isLatestSession change then AlreadyReverted else NotLatestSession), tr)
  else if negb (truthy (pc_oldContent change)) then
    match disk tr !! pc_filePath change with
    | None => (None, record_revert clock change (disk tr) tr)
    | Some _ =>
        match unlink_fault io with
        | Some msg => (Some (IoFailure msg), tr)
        | None =>
            (None, record_revert clock change (delete (pc_filePath change) (disk tr)) tr)
        end
    end
  else
    match write_fault io with
    | Some msg => (Some (IoFailure msg), tr)
    | None =>
        let tmp := tmp_path (pc_filePath change) in
        let written := <[tmp := pc_oldContent change]> (disk tr) in
        match rename_fault io with
        | Some msg => (Some (IoFailure msg), with_disk written tr)
        | None =>
            (None, record_revert clock change
                     (<[pc_filePath change := pc_oldContent change]> (delete tmp written))
                     tr)
        end
    end.

(** The message [handleRevert] sends on the socket. *)
Inductive WsMessage :=
  | revertSuccess (changeId : string)
  | revertError (error : string).

(** [RevertServer.handleRevert]: the [try] block looks the change up in
    [this.changes] and awaits the revert; the [catch] answers with the
    message of the error, or a fixed text when it has none. *)
Definition handleRevert (clock : string) (io : IoFaults)
    (known : list ParsedChange) (tr : Tracker) (changeId : string)
    : WsMessage * Tracker :=
  match List.find (λ c, String.eqb (pc_id c) changeId) known with
  | None => (revertError (or_else (Some "Change not found") "Failed to revert change"), tr)
  | Some change =>
      match revertChange clock io change tr with
      | (None, tr') => (revertSuccess changeId, tr')
      | (Some e, tr') =>
          (revertError (or_else (Some (failure_message e)) "Failed to revert change"), tr')
      end
  end.

(** ** Notions of the specification *)

(** The entries of a session: its lines that decode to a record, in order. *)
Definition valid_entries (lines : list Line) : list ClaudeLogEntry :=
  omap record_of lines.

(** A session file with its malformed lines deleted: the lines that do not
    decode to a record.  When nothing is left the file is empty, and an
    empty file splits into one empty line. *)
Definition without_malformed (f : SessionFile) : SessionFile :=
  match valid_entries (file_lines f) with
  | [] => {| file_mtime := file_mtime f; first_line := None; more_lines := [] |}
  | e :: es =>
      {| file_mtime := file_mtime f; first_line := line_of e;
         more_lines := line_of <$> es |}
  end.

Definition dir_without_malformed (dir : ProjectDir) : ProjectDir :=
  match dir with
  | Directory files =>
      Directory ((λ f : string * option SessionFile,
                    (fst f, without_malformed <$> snd f)) <$> files)
  | NoDirectory => NoDirectory
  | NotADirectory => NotADirectory
  end.

(** The blocks of an assistant entry with array-form content. *)
Definition assistant_blocks (entry : ClaudeLogEntry) : list ContentBlock :=
  if String.eqb (entry_type entry) "assistant"
  then default [] (array_content entry) else [].

(** A [tool_use] block named [Write], [Edit] or [MultiEdit]. *)
Definition is_file_tool_use (c : ContentBlock) : bool :=
  String.eqb (block_type c) "tool_use" && bool_decide (is_Some (tool_kind (block_name c))).

(** The number of file-mutating tool invocations of a session, in the
    words of the specification: every such block of every assistant entry
    with array-form content counts, with or without a file path. *)
Definition file_tool_uses (lines : list Line) : nat :=
  length (List.filter is_file_tool_use (valid_entries lines ≫= assistant_blocks)).

(** The session marked latest is alone in being marked and its [mtime] is
    strictly above every other one: the reading of "strictly greatest". *)
Definition strictly_latest_marked (sessions : list SessionMetadata) : Prop :=
  ∃ i s, sessions !! i = Some s ∧ isLatest s = true ∧
    ∀ j s', j ≠ i → sessions !! j = Some s' →
      isLatest s' = false ∧ (mtime s' < mtime s)%Z.

(** A directory holds a session file: a name ending in [.jsonl]. *)
Definition has_session_file (dir : ProjectDir) : Prop :=
  match dir with
  | Directory files => ∃ f, f ∈ files ∧ is_jsonl f = true
  | NoDirectory | NotADirectory => False
  end.

(** A directory holds a session file that can be read. *)
Definition has_readable_session_file (dir : ProjectDir) : Prop :=
  match dir with
  | Directory files => ∃ name f, (name, Some f) ∈ files ∧ endsWith name ".jsonl" = true
  | NoDirectory | NotADirectory => False
  end.

(** One file-mutating tool invocation: the tool and its input. *)
Definition Invocation : Type := ToolKind * option ToolInput.

(** The invocation carried by a block: a [tool_use] block named [Write],
    [Edit] or [MultiEdit]. *)
Definition file_invocation (c : ContentBlock) : option Invocation :=
  if String.eqb (block_type c) "tool_use"
  then (λ kind, (kind, block_input c)) <$> tool_kind (block_name c)
  else None.

(** The file-mutating invocations of an array content, in content order. *)
Definition file_invocations (blocks : list ContentBlock) : list Invocation :=
  omap file_invocation blocks.

(** The invocation names a target: [input?.file_path] is truthy. *)
Definition has_target_path (inv : Invocation) : bool :=
  truthy_opt (input_get file_path (snd inv)).

(** What a [FileChange] says apart from its id and session attribution. *)
Definition Payload : Type :=
  option string * ChangeType * option string * option string * option (list EditOp).

Definition change_payload (c : FileChange) : Payload :=
  (fc_timestamp c, fc_type c, filePath c, newContent c, changes c).

(** The change of an invocation, in the words of section 4.4: a full-file
    replace gives a [write] change with the new content, a single
    replacement an [edit] change with one operation, a multi-replacement an
    [edit] change with the operations as given. *)
Definition invocation_payload (timestamp : option string) (inv : Invocation) : Payload :=
  let input := snd inv in
  match fst inv with
  | KWrite =>
      (Some (or_else timestamp ""), TypeWrite, input_get file_path input,
       input_get input_content input, None)
  | KEdit =>
      (Some (or_else timestamp ""), TypeEdit, input_get file_path input, None,
       Some [ {| oldString := input_get old_string input;
                 newString := input_get new_string input;
                 replaceAll := input_get replace_all input |} ])
  | KMultiEdit =>
      (Some (or_else timestamp ""), TypeEdit, input_get file_path input, None,
       input_get edits input)
  end.

(** The changes an assistant entry asks for: one for each file-mutating
    invocation that names a target, in content order. *)
Definition entry_payloads (entry : ClaudeLogEntry) : list Payload :=
  invocation_payload (entry_timestamp entry) <$>
    List.filter has_target_path (file_invocations (assistant_blocks entry)).

(** All the changes of the emitted turns, turn after turn. *)
Definition turn_changes (emitted : list ConversationTurn) : list FileChange :=
  emitted ≫= fileChanges.

(** The changes held by the loop state: those of the closed turns, then
    those of the open one. *)
Definition state_changes (st : TurnState) : list FileChange :=
  turn_changes (st_turns st) ++ from_option fileChanges [] (currentTurn st).

(** The file-mutating invocations of an array content, each with the value
    of the counter [changeIndex] at its block: the 1-based position of the
    block among the [tool_use] blocks after the first [i]. *)
Fixpoint indexed_invocations (i : nat) (blocks : list ContentBlock)
    : list (nat * Invocation) :=
  match blocks with
  | [] => []
  | c :: rest =>
      if String.eqb (block_type c) "tool_use" then
        match tool_kind (block_name c) with
        | Some kind => (S i, (kind, block_input c)) :: indexed_invocations (S i) rest
        | None => indexed_invocations (S i) rest
        end
      else indexed_invocations i rest
  end.

(** The change [extractAllFileChanges] builds for an indexed invocation. *)
Definition indexed_change (turnId : string) (timestamp : option string)
    (isLatestSession : bool) (inv : nat * Invocation) : FileChange :=
  turn_change turnId timestamp isLatestSession (fst (snd inv)) (fst inv) (snd (snd inv)).

(** The turn id under which the changes of an entry are extracted in a
    state of the loop: [currentTurn?.id || sessionId-turn-0]. *)
Definition extraction_id (sid : string) (st : TurnState) : string :=
  or_else (turn_id <$> currentTurn st) (turn_name sid 0).

(** The changes one entry adds to the state of the loop. *)
Definition entry_changes (now sid : string) (isLatestV : bool) (st : TurnState)
    (entry : ClaudeLogEntry) : list FileChange :=
  if String.eqb (entry_type entry) "assistant" then
    match array_content entry with
    | Some _ =>
        extractAllFileChanges entry
          (extraction_id sid (user_step now sid isLatestV st entry)) isLatestV
    | None => []
    end
  else [].

(** ** Sample sessions *)

Definition write_input (path : option string) (text : string) : ToolInput :=
  {| file_path := path; input_content := Some text; old_string := None;
     new_string := None; replace_all := None; edits := None |}.

Definition tool_use (name : string) (input : option ToolInput) : ContentBlock :=
  {| block_type := "tool_use"; block_name := Some name;
     block_input := input; block_text := None |}.

Definition text_block (t : string) : ContentBlock :=
  {| block_type := "text"; block_name := None; block_input := None;
     block_text := Some t |}.

Definition tool_result_block : ContentBlock :=
  {| block_type := "tool_result"; block_name := None; block_input := None;
     block_text := None |}.

Definition assistant_entry (ts : string) (blocks : list ContentBlock) : ClaudeLogEntry :=
  {| entry_type := "assistant"; entry_timestamp := Some ts;
     message := Some {| content := Some (ArrayContent blocks) |} |}.

Definition user_entry (ts : string) (c : MessageContent) : ClaudeLogEntry :=
  {| entry_type := "user"; entry_timestamp := Some ts;
     message := Some {| content := Some c |} |}.

(** A project directory with the single session [s1], of the given lines. *)
Definition one_session (first : Line) (more : list Line) : ProjectDir :=
  Directory [("s1.jsonl",
              Some {| file_mtime := 1000; first_line := first; more_lines := more |})].

(** An assistant entry whose only block is a [Write] without [file_path]. *)
Definition pathless_write : ClaudeLogEntry :=
  assistant_entry "2025-01-01T00:00:00Z" [tool_use "Write" (Some (write_input None "x"))].

(** An assistant entry with two [Write] blocks, each with its target. *)
Definition two_writes : ClaudeLogEntry :=
  assistant_entry "2025-01-01T00:00:00Z"
    [tool_use "Write" (Some (write_input (Some "a.txt") "x"));
     tool_use "Write" (Some (write_input (Some "b.txt") "y"))].

(** A block of type [text] whose text has a character that is not white
    space. *)
Definition nonblank_text_block (c : ContentBlock) : Prop :=
  block_type c = "text" ∧ ∃ t, block_text c = Some t ∧ trim t ≠ "".

(** The echo of a tool result as the specification words it: array-form
    content with no [text] block and at least one [tool_result] block. *)
Definition echo_as_stated (entry : ClaudeLogEntry) : Prop :=
  ∃ blocks, message_content entry = Some (ArrayContent blocks) ∧
    (∀ c, c ∈ blocks → block_type c ≠ "text") ∧
    (∃ c, c ∈ blocks ∧ block_type c = "tool_result").

(** The echo of a tool result as the code decides it: no [text] block with
    a text that is not blank. *)
Definition echo_as_decided (entry : ClaudeLogEntry) : Prop :=
  ∃ blocks, message_content entry = Some (ArrayContent blocks) ∧
    (∀ c, c ∈ blocks → ¬ nonblank_text_block c) ∧
    (∃ c, c ∈ blocks ∧ block_type c = "tool_result").

(** A user entry with a [text] block holding one space and a
    [tool_result] block. *)
Definition blank_text_echo : ClaudeLogEntry :=
  user_entry "2025-01-01T00:00:00Z" (ArrayContent [text_block " "; tool_result_block]).

(** Two session files modified at the same instant. *)
Definition tie_dir : ProjectDir :=
  Directory
    [("a.jsonl", Some {| file_mtime := 5; first_line := line_of two_writes; more_lines := [] |});
     ("b.jsonl", Some {| file_mtime := 5; first_line := line_of pathless_write; more_lines := [] |})].

(** A session file that cannot be read. *)
Definition unreadable_dir : ProjectDir := Directory [("a.jsonl", None)].

(** The sessions collected from the files of a directory, before the sort. *)
Definition collected (now projectLogDir : string)
    (files : list (string * option SessionFile)) : list SessionMetadata :=
  foldl (collect_step now projectLogDir) [] (List.filter is_jsonl files).

(** ** The shape of the ids of the turn path *)

(** The string has no hyphen. *)
Fixpoint no_dash (s : string) : bool :=
  match s with
  | EmptyString => true
  | String c s' => negb (Ascii.eqb c "-") && no_dash s'
  end.

(** The tool as it is spelled inside an id. *)
Definition kind_tag (kind : ToolKind) : string :=
  match kind with
  | KWrite => "write"
  | KEdit => "edit"
  | KMultiEdit => "multiedit"
  end.

(** The id of a change of the turn path: turn id, timestamp, tool and
    positional counter, hyphen-separated. *)
Definition turn_path_id (turnId stamp : string) (kind : ToolKind) (i : nat) : string :=
  ((turnId +:+ "-" +:+ stamp) +:+ "-" +:+ kind_tag kind) +:+ "-" +:+ tpl_nat i.

(** The timestamp of an entry as its ids spell it. *)
Definition stamp (entry : ClaudeLogEntry) : string := tpl (entry_timestamp entry).

(** The entry asks for at least one change that names a target. *)
Definition mutating (entry : ClaudeLogEntry) : bool :=
  match entry_payloads entry with
  | [] => false
  | _ :: _ => true
  end.

(** The entry holds at least one file-mutating invocation, with or without
    a target: the entries from which the flat path takes a change. *)
Definition invoking (entry : ClaudeLogEntry) : bool :=
  match file_invocations (assistant_blocks entry) with
  | [] => false
  | _ :: _ => true
  end.

(** The id of a change of the flat path: timestamp and tool. *)
Definition flat_path_id (stamp : string) (kind : ToolKind) : string :=
  stamp +:+ "-" +:+ kind_tag kind.

(** The change the flat path takes from an entry: that of its first
    file-mutating invocation. *)
Definition flat_entry_change (entry : ClaudeLogEntry) : option FileChange :=
  (λ inv : Invocation, flat_change (entry_timestamp entry) (fst inv) (snd inv)) <$>
    head (file_invocations (assistant_blocks entry)).

(** A session of one turn in which two assistant entries of the same
    timestamp each write a file. *)
Definition same_stamp_lines : list Line :=
  [line_of (assistant_entry "2025-01-01T00:00:00Z"
           [tool_use "Write" (Some (write_input (Some "a.txt") "x"))]);
   line_of (assistant_entry "2025-01-01T00:00:00Z"
           [tool_use "Write" (Some (write_input (Some "b.txt") "y"))])].

Definition same_stamp_dir : ProjectDir :=
  one_session (line_of (user_entry "2025-01-01T00:00:00Z" (StringContent "go")))
    same_stamp_lines.

(** What the loop keeps true of the ids it holds, [seen] being the
    timestamps of the mutating entries met so far: the ids are pairwise
    distinct, each one is built from a turn of the session and from a
    timestamp met, and the open turn is a turn of the session. *)
Definition ids_invariant (sid : string) (seen : list string) (st : TurnState) : Prop :=
  NoDup (fc_id <$> state_changes st) ∧
  (∀ c, c ∈ state_changes st →
        ∃ n s kind i, s ∈ seen ∧ fc_id c = turn_path_id (turn_name sid n) s kind i) ∧
  (∀ t, currentTurn st = Some t → ∃ n, turn_id t = turn_name sid n).

(** ** Changes met before any turn is open *)

(** The entry opens a turn when none is open: a [user] entry that is not
    the echo of a tool result, or an [assistant] entry with array-form
    content that brings a change or a text. *)
Definition opens_turn (entry : ClaudeLogEntry) : bool :=
  (String.eqb (entry_type entry) "user" && negb (isToolResultEntry entry)) ||
  (String.eqb (entry_type entry) "assistant" &&
   match array_content entry with
   | Some _ => mutating entry || truthy (extractAssistantText entry)
   | None => false
   end).

(** A session without user message in which two assistant entries each
    write a file. *)
Definition two_early_writes : ProjectDir :=
  one_session
    (line_of (assistant_entry "2025-01-01T00:00:00Z"
             [tool_use "Write" (Some (write_input (Some "a.txt") "x"))]))
    [line_of (assistant_entry "2025-01-01T00:00:01Z"
             [tool_use "Write" (Some (write_input (Some "b.txt") "y"))])].

(** Where the turn that an early entry opened ends up: still open, or
    first of the closed turns; it is turn 1 and its changes start with
    those of the entry. *)
Definition holds_early_changes (sid : string) (found : list FileChange)
    (t : ConversationTurn) : Prop :=
  turn_id t = turn_name sid 1 ∧ turn_userMessage t = "No message" ∧
  ∃ later, fileChanges t = found ++ later.

Definition early_turn_kept (sid : string) (found : list FileChange)
    (st : TurnState) : Prop :=
  (∃ t, st_turns st = [] ∧ currentTurn st = Some t ∧ holds_early_changes sid found t) ∨
  (∃ t others, st_turns st = t :: others ∧ holds_early_changes sid found t).

(** ** A revert that fails *)

(** The fault the revert of a change meets, if any: that of the delete when
    the change was a creation and its target is there, else that of the
    write of the temporary file or of the rename. *)
Definition fault_met (io : IoFaults) (tr : Tracker) (change : ParsedChange)
    : option string :=
  if truthy (pc_oldContent change) then
    match write_fault io with
    | Some msg => Some msg
    | None => rename_fault io
    end
  else
    match disk tr !! pc_filePath change with
    | Some _ => unlink_fault io
    | None => None
    end.

(** A change of the latest session that overwrote [notes.txt]. *)
Definition overwrite_change : ParsedChange :=
  {| pc_id := "s1-turn-1-2025-01-01T00:00:00Z-write-1";
     pc_filePath := "notes.txt";
     pc_oldContent := "before";
     pc_isLatestSession := true |}.

Definition tracker_with_notes : Tracker :=
  {| disk := {[ "notes.txt" := "after" ]}; ledger := ∅; ledger_store := ∅ |}.

(** The disk refuses the write of the temporary file. *)
Definition write_refused : IoFaults :=
  {| write_fault := Some "EACCES: permission denied";
     rename_fault := None; unlink_fault := None |}.

(** A user entry with a text and a [tool_result] block. *)
Definition text_and_result : ClaudeLogEntry :=
  user_entry "2025-01-01T00:00:00Z"
    (ArrayContent [text_block "keep going"; tool_result_block]).

(** A session of two turns: a question answered by a text, two writes
    around a read and, after the echo of a tool result, an edit; then a
    question answered by a text only. *)
Definition edit_input (path old new : string) : ToolInput :=
  {| file_path := Some path; input_content := None; old_string := Some old;
     new_string := Some new; replace_all := None; edits := None |}.

Definition two_turn_entries : list ClaudeLogEntry :=
  [user_entry "t0" (StringContent "  add a readme  ");
   assistant_entry "t1"
     [text_block " On it. ";
      tool_use "Write" (Some (write_input (Some "README.md") "# crevr"));
      tool_use "Read" None;
      tool_use "Write" (Some (write_input (Some "LICENSE") "MIT"))];
   user_entry "t2" (ArrayContent [tool_result_block]);
   assistant_entry "t3"
     [tool_use "Edit" (Some (edit_input "README.md" "crevr" "Crevr")); text_block "Done."];
   user_entry "t4" (StringContent "thanks");
   assistant_entry "t5" [text_block "You are welcome."]].

Definition session_of_mtime (m : Z) : option SessionFile :=
  Some {| file_mtime := m; first_line := None; more_lines := [] |}.

(** An assistant entry that writes one file. *)
Definition one_write : ClaudeLogEntry :=
  assistant_entry "2025-01-01T00:00:00Z"
    [tool_use "Write" (Some (write_input (Some "a.txt") "x"))].

(** A session file of two lines: an assistant entry that writes a file,
    then the line [null], which [JSON.parse] accepts. *)
Definition null_line_dir : ProjectDir :=
  one_session (line_of one_write) [Some Null].

(** ** The project key: [getCurrentProjectPath] *)

(** The characters of the class [/[\/\\:_]/]: slash, backslash, colon and
    underscore. *)
Definition is_separator (c : ascii) : bool :=
  Ascii.eqb c "/" || Ascii.eqb c "\" || Ascii.eqb c ":" || Ascii.eqb c "_".

(** [cwd.replace(/[\/\\:_]/g, '-')]: every occurrence is replaced. *)
Fixpoint getCurrentProjectPath (cwd : string) : string :=
  match cwd with
  | EmptyString => EmptyString
  | String c rest =>
      String (if is_separator c then "-"%char else c) (getCurrentProjectPath rest)
  end.

(** The characters of a string, in order. *)
Definition chars (s : string) : list ascii := list_ascii_of_string s.

(** ** Entries the turn loop passes over *)

(** The entry is neither a genuine user message nor an assistant entry
    with array-form content: the echo of a tool result, an assistant entry
    whose content is a string or is missing, or an entry of another type. *)
Definition inert (entry : ClaudeLogEntry) : bool :=
  (if String.eqb (entry_type entry) "user" then isToolResultEntry entry else true) &&
  negb (String.eqb (entry_type entry) "assistant" &&
        bool_decide (is_Some (array_content entry))).

(** What the loop keeps true of the numbers of the turns: those of the
    closed turns increase, start at 1 and stay below the counter, which is
    the number of the open turn. *)
Definition numbers_invariant (sid : string) (st : TurnState) : Prop :=
  ∃ ks, turn_id <$> st_turns st = turn_name sid <$> ks ∧
        StronglySorted lt ks ∧
        Forall (λ k, 1 ≤ k < turnCounter st) ks ∧
        (∀ t, currentTurn st = Some t →
              turn_id t = turn_name sid (turnCounter st) ∧ 1 ≤ turnCounter st).

(** A session with a blank first message, then a question and two writes
    in two assistant entries. *)
Definition attributed_lines : list Line :=
  [line_of (user_entry "t0" (StringContent "   "));
   line_of (user_entry "t1" (StringContent "add a readme"));
   line_of (assistant_entry "t2" [tool_use "Write" (Some (write_input (Some "README.md") "x"))]);
   line_of (user_entry "t3" (StringContent "and a license"));
   line_of (assistant_entry "t4" [tool_use "Write" (Some (write_input (Some "LICENSE") "MIT"))])].

(** ** The turn a user message opens *)

(** A [user] entry that is not the echo of a tool result. *)
Definition is_genuine_user (entry : ClaudeLogEntry) : bool :=
  String.eqb (entry_type entry) "user" && negb (isToolResultEntry entry).

(** The texts an assistant entry with array-form content adds to its turn:
    those of its [text] blocks that are not blank, trimmed. *)
Definition assistant_texts (entry : ClaudeLogEntry) : list string :=
  if String.eqb (entry_type entry) "assistant" then
    match array_content entry with
    | Some blocks =>
        (λ c, trim (default "" (block_text c))) <$> List.filter is_nonblank_text blocks
    | None => []
    end
  else [].

(** The changes an entry adds to an open turn of the given id. *)
Definition changes_under (turnId : string) (isLatestV : bool) (entry : ClaudeLogEntry)
    : list FileChange :=
  if String.eqb (entry_type entry) "assistant" then
    match array_content entry with
    | Some _ => extractAllFileChanges entry turnId isLatestV
    | None => []
    end
  else [].

(** The turn number [n] opened by the user entry [u] once it has absorbed
    the entries [rest]. *)
Definition opened_turn (now sid : string) (isLatestV : bool) (n : nat)
    (u : ClaudeLogEntry) (rest : list ClaudeLogEntry) : ConversationTurn :=
  {| turn_id := turn_name sid n;
     turn_timestamp := or_else (entry_timestamp u) now;
     turn_userMessage := extractUserMessage u;
     turn_userMessageFull := extractUserMessage u;
     assistantMessage := join (newline +:+ newline) (rest ≫= assistant_texts);
     fileChanges := rest ≫= changes_under (turn_name sid n) isLatestV;
     turn_isLatestSession := isLatestV |}.

(** The open turn with more changes and a longer assistant message. *)
Definition grown (t : ConversationTurn) (more : list FileChange) (texts : list string)
    : ConversationTurn :=
  {| turn_id := turn_id t; turn_timestamp := turn_timestamp t;
     turn_userMessage := turn_userMessage t;
     turn_userMessageFull := turn_userMessageFull t;
     assistantMessage := join (newline +:+ newline) texts;
     fileChanges := fileChanges t ++ more;
     turn_isLatestSession := turn_isLatestSession t |}.

(** ** The flat view of a session *)

(** What a change does: its kind, target and payload. *)
Definition Core : Type :=
  ChangeType * option string * option string * option (list EditOp).

Definition change_core (c : FileChange) : Core :=
  (fc_type c, filePath c, newContent c, changes c).

(** What an invocation asks for. *)
Definition invocation_core (inv : Invocation) : Core :=
  let input := snd inv in
  match fst inv with
  | KWrite => (TypeWrite, input_get file_path input, input_get input_content input, None)
  | KEdit =>
      (TypeEdit, input_get file_path input, None,
       Some [ {| oldString := input_get old_string input;
                 newString := input_get new_string input;
                 replaceAll := input_get replace_all input |} ])
  | KMultiEdit => (TypeEdit, input_get file_path input, None, input_get edits input)
  end.

(** The first file-mutating invocation of an assistant entry. *)
Definition first_invocation (entry : ClaudeLogEntry) : option Invocation :=
  head (file_invocations (assistant_blocks entry)).

(** The entry holds at most one file-mutating invocation, and it names a
    target: the shape of the entries of a log that records one content
    block per line. *)
Definition single_targeted (entry : ClaudeLogEntry) : bool :=
  match file_invocations (assistant_blocks entry) with
  | [] => true
  | [inv] => has_target_path inv
  | _ :: _ :: _ => false
  end.

(** ** The latest log file: [getLatestLogFile] *)

(** A file of a project directory as [stat] and [readFile] see it: [stat]
    throws, or it gives the last-modified time and [readFile] throws, or
    the file can be read. *)
Inductive FileNode :=
  | StatThrows
  | Unreadable (modified : Z)
  | Readable (f : SessionFile).

(** [(await fs.promises.stat(filePath)).mtime]; [None] when [stat] throws. *)
Definition node_mtime (node : FileNode) : option Z :=
  match node with
  | StatThrows => None
  | Unreadable m => Some m
  | Readable f => Some (file_mtime f)
  end.

(** An entry of the log directory: [stat] throws on it, or it is not a
    directory, or [readdir] throws on it, or it is a directory with its
    files in the order [readdir] gives them. *)
Inductive DirNode :=
  | DirStatThrows
  | NotDir
  | ReaddirThrows
  | Dir (files : list (string * FileNode)).

(** The inner loop over the session files of one directory: a [stat] that
    throws leaves the loop, and [allFiles] keeps what was pushed. *)
Fixpoint stat_files (projectPath : string) (files : list (string * FileNode))
    (allFiles : list (string * Z)) : list (string * Z) :=
  match files with
  | [] => allFiles
  | (file, node) :: rest =>
      match node_mtime node with
      | Some m => stat_files projectPath rest (allFiles ++ [(path_join projectPath file, m)])
      | None => allFiles
      end
  end.

(** The body of the loop over the matching directories; its [catch] goes
    on to the next directory. *)
Definition scan_dir (logDir : string) (allFiles : list (string * Z))
    (d : string * DirNode) : list (string * Z) :=
  match snd d with
  | Dir files =>
      stat_files (path_join logDir (fst d))
        (List.filter (λ f, endsWith (fst f) ".jsonl") files) allFiles
  | DirStatThrows | NotDir | ReaddirThrows => allFiles
  end.

(** [allFiles.sort((a, b) => b.mtime.getTime() - a.mtime.getTime())]: the
    stable arrangement by decreasing time. *)
Fixpoint insert_file (x : string * Z) (sorted : list (string * Z)) : list (string * Z) :=
  match sorted with
  | [] => [x]
  | y :: rest =>
      if (snd y <=? snd x)%Z then x :: y :: rest else y :: insert_file x rest
  end.

Definition sort_files (allFiles : list (string * Z)) : list (string * Z) :=
  foldr insert_file [] allFiles.

(** [getLatestLogFile]; [root] is what [readdir(logDir)] returns, [None]
    when it throws, and the result is [None] where the source returns
    [null]. *)
Definition getLatestLogFile (logDir currentProjectPath : string)
    (root : option (list (string * DirNode))) : option string :=
  match root with
  | None => None
  | Some projectDirs =>
      let matchingDirs :=
        List.filter (λ d, String.eqb (fst d) currentProjectPath) projectDirs in
      if bool_decide (length matchingDirs = 0) then None
      else
        let allFiles := foldl (scan_dir logDir) [] matchingDirs in
        if bool_decide (length allFiles = 0) then None
        else fst <$> head (sort_files allFiles)
  end.

(** The session files of a directory on which [stat] succeeds, up to the
    first on which it throws, each with its last-modified time. *)
Fixpoint statable_prefix (files : list (string * FileNode)) : list (string * Z) :=
  match files with
  | [] => []
  | (file, node) :: rest =>
      match node_mtime node with
      | Some m => (file, m) :: statable_prefix rest
      | None => []
      end
  end.

(** The project directory as [getAllSessionMetadata] sees it: a file is
    read when both [stat] and [readFile] succeed. *)
Definition readable_view (files : list (string * FileNode))
    : list (string * option SessionFile) :=
  (λ f, (fst f, match snd f with Readable s => Some s | _ => None end)) <$> files.

(** Every session file of the directory can be read. *)
Definition all_sessions_readable (files : list (string * FileNode)) : Prop :=
  Forall (λ f, endsWith (fst f) ".jsonl" = true → ∃ s, snd f = Readable s) files.

(** A log directory in which the second session file cannot be examined. *)
Definition broken_stat_files : list (string * FileNode) :=
  [("a.jsonl", Unreadable 3); ("b.jsonl", StatThrows); ("c.jsonl", Unreadable 9)].

(** A log directory whose session files can be read, beside a file that is
    not a session file. *)
Definition readable_files : list (string * FileNode) :=
  [("a.jsonl", Readable {| file_mtime := 3; first_line := None; more_lines := [] |});
   ("notes.txt", StatThrows);
   ("b.jsonl", Readable {| file_mtime := 9; first_line := line_of two_writes;
                           more_lines := [] |})].

(** ** The id of a session and the name of its file *)

(** The pattern occurs in [s ++ pat] at its end only: at no position of
    [s] does an occurrence start. *)
Fixpoint first_at_end (pat s : string) : bool :=
  match s with
  | EmptyString => true
  | String c s' => negb (String.prefix pat (s +:+ pat)) && first_at_end pat s'
  end.

(** A session file in whose name [.jsonl] occurs before the extension. *)
Definition odd_name_dir : ProjectDir :=
  Directory [("x.jsonly.jsonl",
              Some {| file_mtime := 1; first_line := line_of one_write; more_lines := [] |})].

(** ** The embedding at work *)

Example trim_both_ends : trim "  add a readme  " = "add a readme".
Proof. reflexivity. Qed.

Example trim_blank : trim (" " +:+ newline) = "".
Proof. reflexivity. Qed.

Example session_file_name :
  endsWith "s1.jsonl" ".jsonl" = true ∧ endsWith "notes.txt" ".jsonl" = false ∧
  remove_first ".jsonl" "s1.jsonl" = "s1".
Proof. repeat split. Qed.

Example counter_in_id : tpl_nat 12 = "12".
Proof. reflexivity. Qed.

(** The first turn keeps the three changes of its two assistant entries,
    the counter skipping the [Read]; the second turn has no change and is
    not returned. *)
Example two_turns_built :
  (λ t, (turn_id t, turn_userMessage t, assistantMessage t, fc_id <$> fileChanges t))
    <$> build_turns "now" "s1" true two_turn_entries
  = [("s1-turn-1", "add a readme",
      "On it." +:+ newline +:+ newline +:+ "Done.",
      ["s1-turn-1-t1-write-1"; "s1-turn-1-t1-write-3"; "s1-turn-1-t3-edit-1"])].
Proof. vm_compute. reflexivity. Qed.

(** The flat path takes one change from each assistant entry. *)
Example two_turns_flat :
  fc_id <$> parseLogFile (line_of <$> two_turn_entries) = ["t1-write"; "t3-edit"].
Proof. vm_compute. reflexivity. Qed.

(** Newest first, the order of the directory kept among equal times. *)
Example sessions_sorted :
  (λ s, (sessionId s, mtime s, isLatest s))
    <$> getAllSessionMetadata "now" "/logs"
          (Directory [("a.jsonl", session_of_mtime 3); ("b.jsonl", session_of_mtime 7);
                      ("notes.txt", session_of_mtime 9); ("c.jsonl", None);
                      ("d.jsonl", session_of_mtime 7); ("e.jsonl", session_of_mtime 5)])
  = [("b", 7%Z, true); ("d", 7%Z, false); ("e", 5%Z, false); ("a", 3%Z, false)].
Proof. vm_compute. reflexivity. Qed.
(** ** Malformed lines *)

(** A loop whose body does nothing on a line that is not a record sees the
    records only. *)
Lemma foldl_skip_malformed {S} (step : S → Line → S) :
  (∀ st line, record_of line = None → step st line = st) →
  ∀ lines st, foldl step st lines = foldl step st (line_of <$> valid_entries lines).
Proof.
  intros Hskip lines.
  induction lines as [|[[| |e]|] lines IH]; intros st; simpl;
    rewrite ?Hskip by done; [done|apply IH..].
Qed.

Lemma filter_fmap_comm {A} (P : A → bool) (g : A → A) (l : list A) :
  (∀ x, P (g x) = P x) → List.filter P (g <$> l) = g <$> List.filter P l.
Proof.
  intros HP. induction l as [|x l IH]; [done|].
  change (g <$> x :: l) with (g x :: (g <$> l)). simpl.
  rewrite HP, IH. by destruct (P x).
Qed.

Lemma valid_entries_line_of (entries : list ClaudeLogEntry) :
  valid_entries (line_of <$> entries) = entries.
Proof.
  unfold valid_entries. induction entries as [|e es IH]; simpl; [done|].
  by f_equal.
Qed.

Lemma no_null_line_of (entries : list ClaudeLogEntry) :
  existsb is_null (line_of <$> entries) = false.
Proof. by induction entries. Qed.

Lemma without_malformed_lines (f : SessionFile) :
  file_lines (without_malformed f) = line_of <$> valid_entries (file_lines f) ∨
  (file_lines (without_malformed f) = [None] ∧ valid_entries (file_lines f) = []).
Proof.
  unfold without_malformed.
  destruct (valid_entries (file_lines f)) as [|e es] eqn:E; [right|left]; done.
Qed.

Lemma valid_entries_without_malformed (f : SessionFile) :
  valid_entries (file_lines (without_malformed f)) = valid_entries (file_lines f).
Proof.
  destruct (without_malformed_lines f) as [->|[-> ->]].
  - apply valid_entries_line_of.
  - done.
Qed.

Lemma no_null_without_malformed (f : SessionFile) :
  existsb is_null (file_lines (without_malformed f)) = false.
Proof.
  destruct (without_malformed_lines f) as [->|[-> _]].
  - apply no_null_line_of.
  - done.
Qed.

Lemma foldl_without_malformed {S} (step : S → Line → S) (f : SessionFile) st :
  (∀ st line, record_of line = None → step st line = st) →
  foldl step st (file_lines (without_malformed f)) = foldl step st (file_lines f).
Proof.
  intros Hskip.
  rewrite (foldl_skip_malformed step Hskip (file_lines f)).
  rewrite (foldl_skip_malformed step Hskip (file_lines (without_malformed f))).
  by rewrite valid_entries_without_malformed.
Qed.

Lemma parseLogFile_step_skip changes line :
  record_of line = None → parseLogFile_step changes line = changes.
Proof. by destruct line as [[| |e]|]. Qed.

Lemma metadata_step_skip st line :
  record_of line = None → metadata_step st line = st.
Proof. by destruct line as [[| |e]|]. Qed.

Lemma parse_entries_acc (lines : list Line) (acc : list Decoded) :
  foldl (λ entries line,
           match line with
           | Some entry => entries ++ [entry]
           | None => entries
           end) acc lines = acc ++ omap id lines.
Proof.
  revert acc. induction lines as [|[v|] lines IH]; intros acc; simpl.
  - by rewrite app_nil_r.
  - rewrite IH. by rewrite <-(assoc_L (++)).
  - apply IH.
Qed.

Lemma parse_entries_decoded (lines : list Line) :
  parse_entries lines = omap id lines.
Proof. apply parse_entries_acc. Qed.

(** The second loop throws as soon as a line decoded to [null], and goes
    through the records otherwise. *)
Lemma turn_loop_lines now sid isLatestV (lines : list Line) st :
  turn_loop now sid isLatestV st (parse_entries lines)
  = if existsb is_null lines then Throw TypeError
    else Ok (foldl (turn_step now sid isLatestV) st (valid_entries lines)).
Proof.
  rewrite parse_entries_decoded. revert st.
  induction lines as [|[[| |e]|] lines IH]; intros st; simpl; [done..| |]; apply IH.
Qed.

Lemma find_timestamp_lines (lines : list Line) :
  existsb is_null lines = false →
  find_timestamp (parse_entries lines)
  = Ok (List.find (λ e, truthy_opt (entry_timestamp e)) (valid_entries lines)
          ≫= entry_timestamp).
Proof.
  rewrite parse_entries_decoded.
  induction lines as [|[[| |e]|] lines IH]; intros Hnull; simpl in *; [done..| | |].
  - by apply IH.
  - destruct (truthy_opt (entry_timestamp e)); [done|by apply IH].
  - by apply IH.
Qed.

(** [getSessionWithTurns] on a session file that can be read: a TypeError
    when a line decoded to [null], else the turns and the first timestamp
    of the records. *)
Lemma getSessionWithTurns_readable now p dir sid f :
  lookup_session dir sid = Some (Some f) →
  getSessionWithTurns now p dir sid
  = if existsb is_null (file_lines f) then Throw TypeError
    else
      Ok {| swt_sessionId := sid;
            swt_sessionFile := path_join p (sid +:+ ".jsonl");
            swt_timestamp := first_timestamp now (valid_entries (file_lines f));
            swt_mtime := file_mtime f;
            swt_isLatest := is_latest_session (getAllSessionMetadata now p dir) sid;
            turns := build_turns now sid
                       (is_latest_session (getAllSessionMetadata now p dir) sid)
                       (valid_entries (file_lines f)) |}.
Proof.
  intros Hf. unfold getSessionWithTurns. rewrite Hf.
  cbn zeta. rewrite turn_loop_lines.
  destruct (existsb is_null (file_lines f)) eqn:Hnull; [done|].
  by rewrite find_timestamp_lines.
Qed.

Lemma getSessionWithTurns_Ok_inv now p dir sid r :
  getSessionWithTurns now p dir sid = Ok r →
  ∃ f, lookup_session dir sid = Some (Some f) ∧
       existsb is_null (file_lines f) = false ∧
       r = {| swt_sessionId := sid;
              swt_sessionFile := path_join p (sid +:+ ".jsonl");
              swt_timestamp := first_timestamp now (valid_entries (file_lines f));
              swt_mtime := file_mtime f;
              swt_isLatest := is_latest_session (getAllSessionMetadata now p dir) sid;
              turns := build_turns now sid
                         (is_latest_session (getAllSessionMetadata now p dir) sid)
                         (valid_entries (file_lines f)) |}.
Proof.
  intros Hok.
  destruct (lookup_session dir sid) as [[f|]|] eqn:Hf;
    [|unfold getSessionWithTurns in Hok; by rewrite Hf in Hok..].
  rewrite (getSessionWithTurns_readable now p dir sid f Hf) in Hok.
  destruct (existsb is_null (file_lines f)) eqn:Hnull; [done|].
  injection Hok as <-. by exists f.
Qed.

Lemma getFirstUserMessage_valid (lines : list Line) :
  getFirstUserMessage lines = getFirstUserMessage (line_of <$> valid_entries lines).
Proof.
  induction lines as [|[[| |e]|] lines IH]; simpl; [done..| |done].
  by rewrite IH.
Qed.

Lemma getFirstUserMessage_without_malformed (f : SessionFile) :
  getFirstUserMessage (file_lines (without_malformed f))
  = getFirstUserMessage (file_lines f).
Proof.
  rewrite (getFirstUserMessage_valid (file_lines f)).
  rewrite (getFirstUserMessage_valid (file_lines (without_malformed f))).
  by rewrite valid_entries_without_malformed.
Qed.

Lemma parseLogFile_without_malformed (f : SessionFile) :
  parseLogFile (file_lines (without_malformed f)) = parseLogFile (file_lines f).
Proof. apply foldl_without_malformed, parseLogFile_step_skip. Qed.

Lemma metadata_scan_without_malformed (f : SessionFile) :
  metadata_scan (file_lines (without_malformed f)) = metadata_scan (file_lines f).
Proof. apply foldl_without_malformed, metadata_step_skip. Qed.

Lemma file_mtime_without_malformed (f : SessionFile) :
  file_mtime (without_malformed f) = file_mtime f.
Proof. unfold without_malformed. by destruct (valid_entries _). Qed.

Lemma extractSessionMetadata_without_malformed now p name node :
  extractSessionMetadata now p name (without_malformed <$> node)
  = extractSessionMetadata now p name node.
Proof.
  destruct node as [f|]; simpl; [|done].
  rewrite metadata_scan_without_malformed, file_mtime_without_malformed.
  done.
Qed.

Lemma getAllSessionMetadata_without_malformed now p dir :
  getAllSessionMetadata now p (dir_without_malformed dir)
  = getAllSessionMetadata now p dir.
Proof.
  destruct dir as [| |files]; simpl; [done..|].
  set (g := λ f : string * option SessionFile, (fst f, without_malformed <$> snd f)).
  rewrite (filter_fmap_comm is_jsonl g) by done.
  rewrite length_fmap.
  case_bool_decide as Hlen; [done|]. clear Hlen.
  f_equal. f_equal.
  generalize (@nil SessionMetadata).
  induction (List.filter is_jsonl files) as [|x l IH]; intros acc; simpl; [done|].
  rewrite IH. f_equal. unfold collect_step, g; simpl.
  by rewrite extractSessionMetadata_without_malformed.
Qed.

Lemma lookup_session_without_malformed dir sid :
  lookup_session (dir_without_malformed dir) sid
  = (λ node : option SessionFile, without_malformed <$> node) <$> lookup_session dir sid.
Proof.
  destruct dir as [| |files]; simpl; [done..|].
  induction files as [|x files IH]; simpl; [done|].
  destruct (String.eqb (fst x) (sid +:+ ".jsonl")); simpl; [done|apply IH].
Qed.

Lemma getSessionChanges_without_malformed now p dir sid :
  getSessionChanges now p (dir_without_malformed dir) sid
  = getSessionChanges now p dir sid.
Proof.
  unfold getSessionChanges.
  rewrite lookup_session_without_malformed, getAllSessionMetadata_without_malformed.
  destruct (lookup_session dir sid) as [[f|]|]; [|done..].
  cbn -[file_lines parseLogFile getFirstUserMessage without_malformed].
  by rewrite parseLogFile_without_malformed, getFirstUserMessage_without_malformed.
Qed.

(** The turns of a session file without a [null] line are those of the
    file with its malformed lines deleted. *)
Lemma getSessionWithTurns_without_malformed now p dir sid f :
  lookup_session dir sid = Some (Some f) →
  existsb is_null (file_lines f) = false →
  getSessionWithTurns now p (dir_without_malformed dir) sid
  = getSessionWithTurns now p dir sid.
Proof.
  intros Hf Hnull.
  rewrite (getSessionWithTurns_readable now p dir sid f Hf), Hnull.
  rewrite (getSessionWithTurns_readable now p _ sid (without_malformed f)).
  - rewrite no_null_without_malformed, getAllSessionMetadata_without_malformed.
    by rewrite valid_entries_without_malformed, file_mtime_without_malformed.
  - by rewrite lookup_session_without_malformed, Hf.
Qed.

(** C7.  The turn scan does not skip a line that [JSON.parse] accepts as
    [null]: on the session of [null_line_dir], whose second line is
    [null], [getSessionWithTurns] throws a TypeError, where it returns the
    turn of the write once the line is deleted; the flat scan of the same
    file skips the line and returns the change of the write. *)
Theorem null_line_aborts_turn_scan :
  getSessionWithTurns "now" "/logs" null_line_dir "s1" = Throw TypeError ∧
  (∃ r, getSessionWithTurns "now" "/logs" (dir_without_malformed null_line_dir) "s1"
        = Ok r ∧
        fc_id <$> turn_changes (turns r)
        = ["s1-turn-0-2025-01-01T00:00:00Z-write-1"]) ∧
  (∃ cs, getSessionChanges "now" "/logs" null_line_dir "s1" = Ok cs ∧
         getSessionChanges "now" "/logs" (dir_without_malformed null_line_dir) "s1"
         = Ok cs ∧
         fc_id <$> cs = ["2025-01-01T00:00:00Z-write"]).
Proof.
  split_and!.
  - vm_compute. reflexivity.
  - eexists. split; vm_compute; reflexivity.
  - eexists. split_and!; vm_compute; reflexivity.
Qed.

(** ** The extractor of the turn path *)

Lemma extractAll_foldl tid ts l blocks acc i :
  fst (foldl (extractAll_step tid ts l) (acc, i) blocks)
  = acc ++ (indexed_change tid ts l <$>
              List.filter (λ inv, has_target_path (snd inv)) (indexed_invocations i blocks)).
Proof.
  revert acc i. induction blocks as [|c rest IH]; intros acc i; simpl.
  - by rewrite app_nil_r.
  - destruct (String.eqb (block_type c) "tool_use"); [|apply IH].
    destruct (tool_kind (block_name c)) as [kind|] eqn:Hkind; [|apply IH].
    simpl. unfold has_target_path at 1. simpl.
    assert (Hpath : filePath (turn_change tid ts l kind (S i) (block_input c))
                    = input_get file_path (block_input c)) by by destruct kind.
    rewrite Hpath.
    destruct (truthy_opt (input_get file_path (block_input c))); rewrite IH; [|done].
    by rewrite <-(assoc_L (++)).
Qed.

Lemma extractAllFileChanges_indexed entry tid l :
  extractAllFileChanges entry tid l
  = indexed_change tid (entry_timestamp entry) l <$>
      List.filter (λ inv, has_target_path (snd inv))
        (indexed_invocations 0 (default [] (array_content entry))).
Proof.
  unfold extractAllFileChanges.
  destruct (array_content entry) as [blocks|]; simpl; [|done].
  by rewrite extractAll_foldl.
Qed.

Lemma indexed_invocations_snd i blocks :
  snd <$> indexed_invocations i blocks = file_invocations blocks.
Proof.
  unfold file_invocations. revert i.
  induction blocks as [|c rest IH]; intros i; simpl; [done|].
  unfold file_invocation at 1.
  destruct (String.eqb (block_type c) "tool_use"); [|apply IH].
  destruct (tool_kind (block_name c)); simpl; [by f_equal|apply IH].
Qed.

Lemma indexed_invocations_bounds i blocks :
  Forall (λ inv, i < fst inv) (indexed_invocations i blocks).
Proof.
  revert i. induction blocks as [|c rest IH]; intros i; simpl; [done|].
  destruct (String.eqb (block_type c) "tool_use"); [|apply IH].
  assert (Forall (λ inv, i < fst inv) (indexed_invocations (S i) rest)).
  { eapply Forall_impl; [apply IH|]. simpl. lia. }
  destruct (tool_kind (block_name c)); [|done].
  constructor; [simpl; lia|done].
Qed.

Lemma indexed_invocations_NoDup i blocks :
  NoDup (fst <$> indexed_invocations i blocks).
Proof.
  revert i. induction blocks as [|c rest IH]; intros i; simpl; [constructor|].
  destruct (String.eqb (block_type c) "tool_use"); [|apply IH].
  destruct (tool_kind (block_name c)); [|apply IH].
  simpl. constructor; [|apply IH].
  intros Hin. apply list_elem_of_fmap in Hin as [inv [Heq Hin]].
  pose proof (indexed_invocations_bounds (S i) rest) as Hb.
  rewrite Forall_forall in Hb. apply Hb in Hin. lia.
Qed.

Lemma change_payload_indexed tid ts l inv :
  change_payload (indexed_change tid ts l inv) = invocation_payload ts (snd inv).
Proof. destruct inv as [i [[] input]]; done. Qed.

Lemma filter_fmap_pred {A B} (P : B → bool) (g : A → B) (xs : list A) :
  List.filter P (g <$> xs) = g <$> List.filter (λ x, P (g x)) xs.
Proof.
  induction xs as [|x xs IH]; [done|].
  change (g <$> x :: xs) with (g x :: (g <$> xs)). simpl.
  rewrite IH. by destruct (P (g x)).
Qed.

(** The changes of one entry on the turn path, without their ids. *)
Lemma extractAllFileChanges_payloads entry tid l :
  change_payload <$> extractAllFileChanges entry tid l
  = invocation_payload (entry_timestamp entry) <$>
      List.filter has_target_path (file_invocations (default [] (array_content entry))).
Proof.
  rewrite extractAllFileChanges_indexed.
  rewrite <-(indexed_invocations_snd 0), filter_fmap_pred.
  rewrite <-!list_fmap_compose. apply list_fmap_ext.
  intros ? inv _. apply change_payload_indexed.
Qed.

(** Every change of the turn path names a target. *)
Lemma extractAllFileChanges_has_path entry tid l c :
  c ∈ extractAllFileChanges entry tid l → truthy_opt (filePath c) = true.
Proof.
  rewrite extractAllFileChanges_indexed. intros Hin.
  apply list_elem_of_fmap in Hin as [inv [-> Hin]].
  apply list_elem_of_In, filter_In in Hin as [_ Hpath].
  destruct inv as [i [[] input]]; exact Hpath.
Qed.

(** ** The loop that builds the turns *)

Lemma turn_changes_app (xs ys : list ConversationTurn) :
  turn_changes (xs ++ ys) = turn_changes xs ++ turn_changes ys.
Proof. unfold turn_changes. apply bind_app. Qed.

Lemma turn_changes_push emitted current :
  turn_changes (push_if_changed emitted current)
  = turn_changes emitted ++ from_option fileChanges [] current.
Proof.
  unfold push_if_changed. destruct current as [t|]; simpl; [|by rewrite app_nil_r].
  case_bool_decide as Hlen.
  - rewrite turn_changes_app. unfold turn_changes at 2. simpl. by rewrite app_nil_r.
  - destruct (fileChanges t); simpl in *; [by rewrite app_nil_r|lia].
Qed.

Lemma state_changes_user_step now sid l st entry :
  state_changes (user_step now sid l st entry) = state_changes st.
Proof.
  unfold user_step.
  destruct (String.eqb (entry_type entry) "user"); [|done].
  destruct (isToolResultEntry entry); simpl; [done|].
  unfold state_changes; simpl. by rewrite turn_changes_push, app_nil_r.
Qed.

Lemma fileChanges_absorb found text t :
  fileChanges (absorb found text t) = fileChanges t ++ found.
Proof.
  unfold absorb. case_bool_decide as Hlen.
  - destruct (truthy text); [|done]. by destruct (truthy (assistantMessage _)).
  - assert (found = []) as -> by (destruct found; simpl in *; [done|lia]).
    rewrite app_nil_r.
    destruct (truthy text); [|done]. by destruct (truthy (assistantMessage _)).
Qed.

Lemma state_changes_assistant_step now sid l st entry :
  state_changes (assistant_step now sid l st entry)
  = state_changes st ++
    (if String.eqb (entry_type entry) "assistant" then
       match array_content entry with
       | Some _ => extractAllFileChanges entry (extraction_id sid st) l
       | None => []
       end
     else []).
Proof.
  unfold assistant_step, extraction_id.
  destruct (String.eqb (entry_type entry) "assistant"); [|by rewrite app_nil_r].
  destruct (array_content entry) as [blocks|]; [|by rewrite app_nil_r].
  set (found := extractAllFileChanges _ _ _).
  destruct (currentTurn st) as [t|] eqn:Hcur.
  - unfold state_changes; simpl. rewrite Hcur; simpl.
    by rewrite fileChanges_absorb, (assoc_L (++)).
  - destruct (bool_decide (0 < length found) || truthy (extractAssistantText entry))
      eqn:Hopen; simpl.
    + unfold state_changes; simpl. rewrite Hcur; simpl.
      by rewrite fileChanges_absorb, app_nil_r.
    + rewrite Hcur. apply orb_false_iff in Hopen as [Hlen _].
      apply bool_decide_eq_false in Hlen.
      assert (found = []) as -> by (destruct found; simpl in *; [done|lia]).
      by rewrite app_nil_r.
Qed.

Lemma state_changes_turn_step now sid l st entry :
  state_changes (turn_step now sid l st entry)
  = state_changes st ++ entry_changes now sid l st entry.
Proof.
  unfold turn_step, entry_changes.
  by rewrite state_changes_assistant_step, state_changes_user_step.
Qed.

Lemma turn_changes_build_turns now sid l entries :
  turn_changes (build_turns now sid l entries)
  = state_changes (foldl (turn_step now sid l) initial_state entries).
Proof. unfold build_turns. apply turn_changes_push. Qed.

Lemma entry_changes_payloads now sid l st entry :
  change_payload <$> entry_changes now sid l st entry = entry_payloads entry.
Proof.
  unfold entry_changes, entry_payloads, assistant_blocks.
  destruct (String.eqb (entry_type entry) "assistant"); [|done].
  destruct (array_content entry) as [blocks|] eqn:Hblocks; [|done].
  by rewrite extractAllFileChanges_payloads, Hblocks.
Qed.

Lemma state_changes_payloads now sid l entries st :
  change_payload <$> state_changes (foldl (turn_step now sid l) st entries)
  = (change_payload <$> state_changes st) ++ (entries ≫= entry_payloads).
Proof.
  revert st. induction entries as [|e entries IH]; intros st; simpl.
  - by rewrite app_nil_r.
  - rewrite IH, state_changes_turn_step, fmap_app, entry_changes_payloads.
    by rewrite <-(assoc_L (++)).
Qed.

(** The turns hold the changes the entries ask for, in entry order and
    then content order. *)
Lemma build_turns_payloads now sid l entries :
  change_payload <$> turn_changes (build_turns now sid l entries)
  = entries ≫= entry_payloads.
Proof. by rewrite turn_changes_build_turns, state_changes_payloads. Qed.

(** A closed turn is kept only with a change. *)
Lemma push_if_changed_Forall emitted current :
  Forall (λ t, fileChanges t ≠ []) emitted →
  Forall (λ t, fileChanges t ≠ []) (push_if_changed emitted current).
Proof.
  intros Hem. unfold push_if_changed. destruct current as [t|]; [|done].
  case_bool_decide as Hlen; [|done].
  apply Forall_app; split; [done|]. constructor; [|done].
  destruct (fileChanges t); simpl in *; [lia|done].
Qed.

Lemma turn_step_Forall now sid l st entry :
  Forall (λ t, fileChanges t ≠ []) (st_turns st) →
  Forall (λ t, fileChanges t ≠ []) (st_turns (turn_step now sid l st entry)).
Proof.
  intros Hst. unfold turn_step.
  assert (Huser : Forall (λ t, fileChanges t ≠ [])
                    (st_turns (user_step now sid l st entry))).
  { unfold user_step. destruct (String.eqb (entry_type entry) "user"); [|done].
    destruct (isToolResultEntry entry); simpl; [done|].
    by apply push_if_changed_Forall. }
  revert Huser. generalize (user_step now sid l st entry). clear. intros st Hst.
  unfold assistant_step.
  destruct (String.eqb (entry_type entry) "assistant"); [|done].
  destruct (array_content entry); [|done].
  destruct (currentTurn st) as [t|] eqn:Hcur; simpl.
  - by rewrite Hcur.
  - destruct (_ || _); simpl; [done|by rewrite Hcur].
Qed.

Lemma build_turns_Forall now sid l entries :
  Forall (λ t, fileChanges t ≠ []) (build_turns now sid l entries).
Proof.
  unfold build_turns. apply push_if_changed_Forall.
  assert (H0 : Forall (λ t, fileChanges t ≠ []) (st_turns initial_state)) by done.
  revert H0. generalize initial_state.
  induction entries as [|e entries IH]; intros st Hst; simpl; [done|].
  apply IH. by apply turn_step_Forall.
Qed.

Lemma getSessionWithTurns_Ok now p dir sid r :
  getSessionWithTurns now p dir sid = Ok r →
  ∃ f, lookup_session dir sid = Some (Some f) ∧
       turns r = build_turns now sid
                   (is_latest_session (getAllSessionMetadata now p dir) sid)
                   (valid_entries (file_lines f)).
Proof.
  intros (f & Hf & _ & ->)%getSessionWithTurns_Ok_inv. by exists f.
Qed.

(** C6.  Every turn [getSessionWithTurns] returns has at least one file
    change: [push_if_changed], the only way into the list of turns, is what
    closes the open turn at a genuine user message and at the end of the
    entries, and it drops a turn without changes. *)
Theorem emitted_turns_have_changes now projectLogDir dir sid r :
  getSessionWithTurns now projectLogDir dir sid = Ok r →
  Forall (λ t, 0 < length (fileChanges t)) (turns r).
Proof.
  intros Hok. apply getSessionWithTurns_Ok in Hok as (f & _ & ->).
  eapply Forall_impl; [apply build_turns_Forall|].
  intros t Ht. simpl in Ht. destruct (fileChanges t); simpl; [done|lia].
Qed.

(** ** The two extraction paths *)

(** C2.  The flat path materializes a change without a target: on a
    session whose assistant entry holds a [Write] with no [file_path],
    [getSessionChanges] returns one [FileChange] whose [filePath] is
    undefined, while [getSessionWithTurns] drops it. *)
Theorem flat_path_keeps_pathless_change :
  (∃ c, getSessionChanges "now" "/logs" (one_session (line_of pathless_write) []) "s1"
          = Ok [c] ∧ filePath c = None) ∧
  (∃ r, getSessionWithTurns "now" "/logs" (one_session (line_of pathless_write) []) "s1"
          = Ok r ∧ turns r = []).
Proof. split; eexists; split; vm_compute; reflexivity. Qed.

(** C3, as stated, fails twice: on the flat path an entry with two [Write]
    invocations yields one change, and on the turn path an entry whose
    [Write] has no [file_path] yields none. *)
Lemma one_change_per_invocation_fails :
  (length (file_invocations (assistant_blocks two_writes)) = 2 ∧
   ∃ cs, getSessionChanges "now" "/logs" (one_session (line_of two_writes) []) "s1" = Ok cs ∧
         length cs = 1) ∧
  (length (file_invocations (assistant_blocks pathless_write)) = 1 ∧
   ∃ r, getSessionWithTurns "now" "/logs" (one_session (line_of pathless_write) []) "s1" = Ok r ∧
        length (turn_changes (turns r)) = 0).
Proof.
  split; (split; [reflexivity|]); eexists; split; vm_compute; reflexivity.
Qed.

(** C3, amended.  On the turn path the changes of the returned turns, read
    turn after turn, are the changes of the file-mutating invocations that
    name a target, one for each, in entry order and then content order. *)
Theorem turn_path_extracts_each_targeted_invocation now projectLogDir dir sid r :
  getSessionWithTurns now projectLogDir dir sid = Ok r →
  ∃ f, lookup_session dir sid = Some (Some f) ∧
       change_payload <$> turn_changes (turns r)
       = valid_entries (file_lines f) ≫= entry_payloads.
Proof.
  intros Hok. apply getSessionWithTurns_Ok in Hok as (f & Hf & ->).
  exists f. split; [done|]. apply build_turns_payloads.
Qed.

Lemma turn_path_extracts_each_targeted_invocation_witness :
  ∃ r, getSessionWithTurns "now" "/logs" (one_session (line_of two_writes) []) "s1" = Ok r ∧
  ∃ f, lookup_session (one_session (line_of two_writes) []) "s1" = Some (Some f) ∧
       change_payload <$> turn_changes (turns r)
       = valid_entries (file_lines f) ≫= entry_payloads.
Proof.
  eexists. split; [vm_compute; reflexivity|].
  apply (turn_path_extracts_each_targeted_invocation
           "now" "/logs" (one_session (line_of two_writes) []) "s1").
  vm_compute; reflexivity.
Defined.

Lemma emitted_turns_have_changes_witness :
  ∃ r, getSessionWithTurns "now" "/logs" (one_session (line_of two_writes) []) "s1" = Ok r ∧
       Forall (λ t, 0 < length (fileChanges t)) (turns r).
Proof.
  eexists. split; [vm_compute; reflexivity|].
  apply (emitted_turns_have_changes
           "now" "/logs" (one_session (line_of two_writes) []) "s1").
  vm_compute; reflexivity.
Defined.

(** The turn path never returns a change without a target. *)
Lemma turn_path_changes_have_paths now sid l entries :
  Forall (λ c, truthy_opt (filePath c) = true)
    (turn_changes (build_turns now sid l entries)).
Proof.
  rewrite turn_changes_build_turns.
  assert (H0 : Forall (λ c, truthy_opt (filePath c) = true) (state_changes initial_state))
    by constructor.
  revert H0. generalize initial_state.
  induction entries as [|e entries IH]; intros st Hst; simpl; [done|].
  apply IH. rewrite state_changes_turn_step. apply Forall_app; split; [done|].
  apply Forall_forall. intros c Hc. unfold entry_changes in Hc.
  destruct (String.eqb (entry_type e) "assistant"); [|by apply elem_of_nil in Hc].
  destruct (array_content e); [|by apply elem_of_nil in Hc].
  by eapply extractAllFileChanges_has_path.
Qed.

(** ** Genuine messages and echoes of tool results *)

Lemma is_nonblank_text_spec (c : ContentBlock) :
  is_nonblank_text c = true ↔ nonblank_text_block c.
Proof.
  unfold is_nonblank_text, nonblank_text_block.
  rewrite andb_true_iff, String.eqb_eq.
  split.
  - intros [Hty Htext]. split; [done|].
    destruct (block_text c) as [t|]; [|done].
    exists t. split; [done|].
    apply andb_true_iff in Htext as [_ Htrim]. intros Heq. by rewrite Heq in Htrim.
  - intros [Hty (t & -> & Htrim)]. split; [done|].
    apply andb_true_iff. split.
    + destruct t; [done|done].
    + destruct (trim t); [done|done].
Qed.

Lemma existsb_elem_of {A} (P : A → bool) (xs : list A) :
  existsb P xs = true ↔ ∃ x, x ∈ xs ∧ P x = true.
Proof.
  rewrite existsb_exists. split; intros (x & Hin & HP); exists x;
    (split; [by apply list_elem_of_In|done]).
Qed.

Lemma isToolResultEntry_decided (entry : ClaudeLogEntry) :
  isToolResultEntry entry = true ↔ echo_as_decided entry.
Proof.
  unfold isToolResultEntry, echo_as_decided, has_content.
  destruct (message_content entry) as [[s|blocks]|] eqn:Hc; cbn [negb].
  - split; [by destruct (truthy s)|]. by intros (blocks & [=] & _).
  - destruct (existsb is_nonblank_text blocks) eqn:Htext.
    + split; [done|]. intros (blocks' & [= <-] & Hno & _).
      apply existsb_elem_of in Htext as (c & Hin & Hc').
      apply is_nonblank_text_spec in Hc'. by destruct (Hno c Hin).
    + destruct (existsb (λ c, String.eqb (block_type c) "tool_result") blocks) eqn:Hres.
      * split; [intros _|done]. exists blocks. split; [done|]. split.
        -- intros c Hin Hnb. apply is_nonblank_text_spec in Hnb.
           assert (existsb is_nonblank_text blocks = true) as Hex
             by (apply existsb_elem_of; eauto).
           by rewrite Hex in Htext.
        -- apply existsb_elem_of in Hres as (c & Hin & Hty).
           exists c. split; [done|]. by apply String.eqb_eq.
      * split; [done|]. intros (blocks' & [= <-] & _ & c & Hin & Hty).
        assert (existsb (λ c, String.eqb (block_type c) "tool_result") blocks = true)
          as Hex.
        { apply existsb_elem_of. exists c. split; [done|]. by apply String.eqb_eq. }
        by rewrite Hex in Hres.
  - split; [done|]. by intros (blocks & [=] & _).
Qed.

(** C4, as stated, fails: a user entry whose content holds a [text] block
    with one space and a [tool_result] block is classified as the echo of
    a tool result, although it has a [text] block, and one whose text is
    not empty. *)
Lemma echo_as_stated_fails :
  isToolResultEntry blank_text_echo = true ∧
  ¬ echo_as_stated blank_text_echo ∧
  (∃ c t, message_content blank_text_echo
            = Some (ArrayContent [c; tool_result_block]) ∧
          block_type c = "text" ∧ block_text c = Some t ∧ t ≠ "").
Proof.
  split; [reflexivity|]. split.
  - intros (blocks & [= <-] & Hno & _).
    apply (Hno (text_block " ")); [apply list_elem_of_here|reflexivity].
  - exists (text_block " "), " ". done.
Qed.

(** C4, amended.  A user entry is classified as the echo of a tool result
    exactly when its content is an array with no [text] block whose text
    has a character other than white space, and with at least one
    [tool_result] block.  So string-form content, and array content with
    any [text] block that is not blank, are classified as genuine. *)
Theorem isToolResultEntry_iff (entry : ClaudeLogEntry) :
  (isToolResultEntry entry = true ↔ echo_as_decided entry) ∧
  (∀ s, message_content entry = Some (StringContent s) →
        isToolResultEntry entry = false) ∧
  (∀ blocks c, message_content entry = Some (ArrayContent blocks) →
        c ∈ blocks → nonblank_text_block c → isToolResultEntry entry = false).
Proof.
  split_and!.
  - apply isToolResultEntry_decided.
  - intros s Hs. apply not_true_is_false. rewrite isToolResultEntry_decided.
    intros (blocks & Hb & _). congruence.
  - intros blocks c Hb Hin Hnb. apply not_true_is_false.
    rewrite isToolResultEntry_decided.
    intros (blocks' & Hb' & Hno & _). rewrite Hb in Hb'. injection Hb' as <-.
    by apply (Hno c).
Qed.

Lemma isToolResultEntry_iff_witness :
  nonblank_text_block (text_block "keep going") ∧
  isToolResultEntry text_and_result = false.
Proof.
  assert (H : nonblank_text_block (text_block "keep going")).
  { split; [reflexivity|]. exists "keep going". split; [reflexivity|].
    vm_compute. discriminate. }
  split; [exact H|].
  apply (proj2 (proj2 (isToolResultEntry_iff text_and_result))
           [text_block "keep going"; tool_result_block] (text_block "keep going")).
  - reflexivity.
  - apply list_elem_of_here.
  - exact H.
Defined.

(** ** The count of file-mutating invocations *)

Lemma count_step_spec n c :
  count_step n c = if is_file_tool_use c then S n else n.
Proof.
  unfold count_step, is_file_tool_use, tool_kind.
  destruct (String.eqb (block_type c) "tool_use"); [|done]. simpl.
  destruct (block_name c) as [name|]; simpl; [|done].
  destruct (String.eqb name "Write"); [done|].
  destruct (String.eqb name "Edit"); [done|].
  by destruct (String.eqb name "MultiEdit").
Qed.

Lemma foldl_count_step blocks n :
  foldl count_step n blocks = n + length (List.filter is_file_tool_use blocks).
Proof.
  revert n. induction blocks as [|c blocks IH]; intros n; simpl; [lia|].
  rewrite IH, count_step_spec. destruct (is_file_tool_use c); simpl; lia.
Qed.

Lemma metadata_step_fileCount st entry :
  meta_fileCount (metadata_step st (line_of entry))
  = meta_fileCount st + length (List.filter is_file_tool_use (assistant_blocks entry)).
Proof.
  unfold metadata_step, line_of, assistant_blocks; simpl.
  destruct (String.eqb (entry_type entry) "assistant"); simpl; [|lia].
  destruct (array_content entry) as [blocks|]; simpl; [|lia].
  apply foldl_count_step.
Qed.

Lemma filter_app_length {A} (P : A → bool) (xs ys : list A) :
  length (List.filter P (xs ++ ys))
  = length (List.filter P xs) + length (List.filter P ys).
Proof. by rewrite List.filter_app, length_app. Qed.

Lemma metadata_scan_fileCount lines st :
  meta_fileCount (foldl metadata_step st lines)
  = meta_fileCount st + file_tool_uses lines.
Proof.
  unfold file_tool_uses, valid_entries.
  revert st. induction lines as [|[[| |e]|] lines IH]; intros st.
  - simpl. lia.
  - apply IH.
  - apply IH.
  - change (foldl metadata_step st (Some (Entry e) :: lines))
      with (foldl metadata_step (metadata_step st (line_of e)) lines).
    rewrite IH, metadata_step_fileCount.
    change (omap record_of (Some (Entry e) :: lines)) with (e :: omap record_of lines).
    rewrite bind_cons, filter_app_length. lia.
  - apply IH.
Qed.

Lemma extractSessionMetadata_Some now p name node s :
  extractSessionMetadata now p name node = Some s →
  ∃ f, node = Some f ∧
       sessionId s = remove_first ".jsonl" name ∧
       sessionFile s = path_join p name ∧
       mtime s = file_mtime f ∧
       fileCount s = file_tool_uses (file_lines f) ∧
       isLatest s = false.
Proof.
  unfold extractSessionMetadata. destruct node as [f|]; [|done].
  case_bool_decide; [done|]. intros [= <-]. exists f. simpl.
  split_and!; try done.
  unfold metadata_scan. by rewrite metadata_scan_fileCount.
Qed.

Lemma extractSessionMetadata_readable now p name f :
  is_Some (extractSessionMetadata now p name (Some f)).
Proof. unfold extractSessionMetadata. simpl. eauto. Qed.

(** ** Collecting, sorting and marking the sessions *)

Lemma foldl_collect_step now p files acc :
  foldl (collect_step now p) acc files
  = acc ++ omap (λ f, extractSessionMetadata now p (fst f) (snd f)) files.
Proof.
  revert acc. induction files as [|f files IH]; intros acc; simpl.
  - by rewrite app_nil_r.
  - rewrite IH. unfold collect_step.
    destruct (extractSessionMetadata now p (fst f) (snd f)); simpl; [|done].
    by rewrite <-(assoc_L (++)).
Qed.

Lemma elem_of_collected now p files s :
  s ∈ collected now p files →
  ∃ name f, (name, Some f) ∈ files ∧ endsWith name ".jsonl" = true ∧
            extractSessionMetadata now p name (Some f) = Some s.
Proof.
  unfold collected. rewrite foldl_collect_step, app_nil_l.
  intros Hin. apply list_elem_of_omap in Hin as ([name node] & Hin & Hs).
  apply list_elem_of_In, filter_In in Hin as [Hin Hjsonl]. simpl in *.
  apply list_elem_of_In in Hin.
  destruct (extractSessionMetadata_Some _ _ _ _ _ Hs) as (f & -> & _).
  by exists name, f.
Qed.

Lemma collected_nonempty now p files name f :
  (name, Some f) ∈ files → endsWith name ".jsonl" = true →
  collected now p files ≠ [].
Proof.
  intros Hin Hjsonl. unfold collected. rewrite foldl_collect_step, app_nil_l.
  destruct (extractSessionMetadata_readable now p name f) as [s Hs].
  assert (Hs' : s ∈ omap (λ f, extractSessionMetadata now p (fst f) (snd f))
                      (List.filter is_jsonl files)).
  { apply list_elem_of_omap. exists (name, Some f). split; [|done].
    apply list_elem_of_In, filter_In. split; [by apply list_elem_of_In|done]. }
  intros Heq. rewrite Heq in Hs'. by apply elem_of_nil in Hs'.
Qed.

Lemma insert_session_perm s sorted :
  insert_session s sorted ≡ₚ s :: sorted.
Proof.
  induction sorted as [|s' rest IH]; simpl; [done|].
  destruct (mtime s' <=? mtime s)%Z; [done|].
  rewrite IH. apply Permutation_swap.
Qed.

Lemma sort_sessions_perm sessions : sort_sessions sessions ≡ₚ sessions.
Proof.
  induction sessions as [|s sessions IH]; simpl; [done|].
  by rewrite insert_session_perm, IH.
Qed.

(** No session later in the list is more recent than an earlier one. *)
Lemma insert_session_sorted s sorted :
  StronglySorted (λ a b, (mtime b ≤ mtime a)%Z) sorted →
  StronglySorted (λ a b, (mtime b ≤ mtime a)%Z) (insert_session s sorted).
Proof.
  induction 1 as [|s' rest Hsorted IH Hall]; simpl.
  - repeat constructor.
  - destruct (mtime s' <=? mtime s)%Z eqn:Hle.
    + apply Z.leb_le in Hle. constructor; [by constructor|].
      constructor; [done|].
      eapply Forall_impl; [exact Hall|]. simpl. lia.
    + apply Z.leb_gt in Hle. constructor; [done|].
      rewrite insert_session_perm. constructor; [lia|done].
Qed.

Lemma sort_sessions_sorted sessions :
  StronglySorted (λ a b, (mtime b ≤ mtime a)%Z) (sort_sessions sessions).
Proof.
  induction sessions as [|s sessions IH]; simpl; [constructor|].
  by apply insert_session_sorted.
Qed.

Lemma getAllSessionMetadata_Directory now p files :
  getAllSessionMetadata now p (Directory files)
  = mark_latest (sort_sessions (collected now p files)).
Proof.
  unfold getAllSessionMetadata, collected.
  case_bool_decide as Hlen; [|done].
  by destruct (List.filter is_jsonl files).
Qed.

Lemma elem_of_mark_latest s sessions :
  s ∈ mark_latest sessions → ∃ s0 v, s0 ∈ sessions ∧ s = set_isLatest v s0.
Proof.
  destruct sessions as [|s1 rest]; simpl; [by intros ?%elem_of_nil|].
  intros [->|Hin]%elem_of_cons.
  - exists s1, true. split; [apply list_elem_of_here|done].
  - exists s, (isLatest s). split; [by apply list_elem_of_further|by destruct s].
Qed.

Lemma elem_of_mark_latest_of s0 sessions :
  s0 ∈ sessions → ∃ v, set_isLatest v s0 ∈ mark_latest sessions.
Proof.
  destruct sessions as [|s1 rest]; simpl; [by intros ?%elem_of_nil|].
  intros [->|Hin]%elem_of_cons.
  - exists true. apply list_elem_of_here.
  - exists (isLatest s0). apply list_elem_of_further. by destruct s0.
Qed.

Lemma collected_of_file now p files name f :
  (name, Some f) ∈ files → endsWith name ".jsonl" = true →
  ∃ s, s ∈ collected now p files ∧
       extractSessionMetadata now p name (Some f) = Some s.
Proof.
  intros Hin Hjsonl.
  destruct (extractSessionMetadata_readable now p name f) as [s Hs].
  exists s. split; [|done].
  unfold collected. rewrite foldl_collect_step, app_nil_l.
  apply list_elem_of_omap. exists (name, Some f). split; [|done].
  apply list_elem_of_In, filter_In. split; [by apply list_elem_of_In|done].
Qed.

(** C9.  Every session [getAllSessionMetadata] lists comes from a session
    file of the directory, every session file that can be read is listed,
    and the [fileCount] of its metadata is the number of [tool_use] blocks
    named [Write], [Edit] or [MultiEdit] in the assistant entries with
    array-form content among the lines of the file that decode: each block
    counts, several in one entry and blocks without a file path included. *)
Theorem fileCount_counts_file_tool_uses now projectLogDir files :
  Forall (λ s, ∃ name f, (name, Some f) ∈ files ∧ endsWith name ".jsonl" = true ∧
                 sessionFile s = path_join projectLogDir name ∧
                 fileCount s = file_tool_uses (file_lines f))
    (getAllSessionMetadata now projectLogDir (Directory files)) ∧
  (∀ name f, (name, Some f) ∈ files → endsWith name ".jsonl" = true →
     ∃ s, s ∈ getAllSessionMetadata now projectLogDir (Directory files) ∧
          sessionFile s = path_join projectLogDir name ∧
          fileCount s = file_tool_uses (file_lines f)).
Proof.
  rewrite getAllSessionMetadata_Directory. split.
  - apply Forall_forall. intros s Hin.
    apply elem_of_mark_latest in Hin as (s0 & v & Hin & ->).
    rewrite sort_sessions_perm in Hin.
    apply elem_of_collected in Hin as (name & f & Hin & Hjsonl & Hs).
    apply extractSessionMetadata_Some in Hs as (f' & [= <-] & _ & Hfile & _ & Hcount & _).
    exists name, f. by split_and!.
  - intros name f Hin Hjsonl.
    destruct (collected_of_file now projectLogDir files name f Hin Hjsonl)
      as (s0 & Hs0 & Hs).
    rewrite <-sort_sessions_perm in Hs0.
    apply elem_of_mark_latest_of in Hs0 as [v Hv].
    exists (set_isLatest v s0). split; [done|].
    by apply extractSessionMetadata_Some in Hs as (f' & [= <-] & _ & Hfile & _ & Hcount & _).
Qed.

Lemma fileCount_counts_file_tool_uses_witness :
  ∃ s, s ∈ getAllSessionMetadata "now" "/logs" tie_dir ∧
       sessionFile s = "/logs/a.jsonl" ∧ fileCount s = 2.
Proof.
  destruct (proj2 (fileCount_counts_file_tool_uses "now" "/logs"
                     [("a.jsonl", Some {| file_mtime := 5; first_line := line_of two_writes;
                                          more_lines := [] |});
                      ("b.jsonl", Some {| file_mtime := 5; first_line := line_of pathless_write;
                                          more_lines := [] |})])
              "a.jsonl"
              {| file_mtime := 5; first_line := line_of two_writes; more_lines := [] |})
    as (s & Hin & Hfile & Hcount).
  - apply list_elem_of_here.
  - reflexivity.
  - exists s. split; [exact Hin|]. split; [exact Hfile|exact Hcount].
Defined.

(** C1, as stated, fails twice: with two session files modified at the
    same instant no session is strictly the most recent, and with a
    session file that cannot be read no session is listed at all. *)
Lemma strictly_latest_fails :
  (has_session_file tie_dir ∧
   ¬ strictly_latest_marked (getAllSessionMetadata "now" "/logs" tie_dir)) ∧
  (has_session_file unreadable_dir ∧
   ¬ strictly_latest_marked (getAllSessionMetadata "now" "/logs" unreadable_dir)).
Proof.
  split; split.
  - exists ("a.jsonl", Some {| file_mtime := 5; first_line := line_of two_writes;
                               more_lines := [] |}).
    split; [apply list_elem_of_here|reflexivity].
  - intros (i & s & Hi & Hlatest & Hothers).
    destruct i as [|[|i]]; vm_compute in Hi; [| |done].
    + injection Hi as <-.
      destruct (Hothers 1 (set_isLatest false
                  {| sessionId := "b"; sessionFile := "/logs/b.jsonl";
                     timestamp := "2025-01-01T00:00:00Z"; mtime := 5;
                     userMessage := "No message"; fileCount := 1;
                     isLatest := false |})) as [_ Hlt]; [done|reflexivity|].
      vm_compute in Hlt. done.
    + injection Hi as <-. vm_compute in Hlatest. done.
  - exists ("a.jsonl", None). split; [apply list_elem_of_here|reflexivity].
  - intros (i & s & Hi & _). vm_compute in Hi. by destruct i.
Qed.

(** C1, amended.  When the directory holds a session file that can be
    read, [getAllSessionMetadata] marks exactly one session, the first of
    the list, and no other session has a later last-modified time. *)
Theorem latest_session_is_marked now projectLogDir dir :
  has_readable_session_file dir →
  ∃ s rest, getAllSessionMetadata now projectLogDir dir = s :: rest ∧
    isLatest s = true ∧
    Forall (λ s', isLatest s' = false ∧ (mtime s' ≤ mtime s)%Z) rest.
Proof.
  destruct dir as [| |files]; [done..|]. intros (name & f & Hin & Hjsonl).
  rewrite getAllSessionMetadata_Directory.
  pose proof (collected_nonempty now projectLogDir files name f Hin Hjsonl) as Hne.
  pose proof (sort_sessions_sorted (collected now projectLogDir files)) as Hsorted.
  pose proof (sort_sessions_perm (collected now projectLogDir files)) as Hperm.
  destruct (sort_sessions (collected now projectLogDir files)) as [|s rest].
  { apply Permutation_nil_l in Hperm. by rewrite <-Hperm in Hne. }
  exists (set_isLatest true s), rest. split_and!; [done..|].
  apply StronglySorted_inv in Hsorted as [_ Hall].
  apply Forall_forall. intros s' Hs'. split.
  - assert (Hc : s' ∈ collected now projectLogDir files).
    { rewrite <-Hperm. by apply list_elem_of_further. }
    apply elem_of_collected in Hc as (name' & f' & _ & _ & Hs).
    by apply extractSessionMetadata_Some in Hs as (? & _ & _ & _ & _ & _ & ?).
  - rewrite Forall_forall in Hall. by apply Hall.
Qed.

Lemma latest_session_is_marked_witness :
  has_readable_session_file tie_dir ∧
  ∃ s rest, getAllSessionMetadata "now" "/logs" tie_dir = s :: rest ∧
    isLatest s = true ∧
    Forall (λ s', isLatest s' = false ∧ (mtime s' ≤ mtime s)%Z) rest.
Proof.
  assert (H : has_readable_session_file tie_dir).
  { exists "a.jsonl", {| file_mtime := 5; first_line := line_of two_writes;
                         more_lines := [] |}.
    split; [apply list_elem_of_here|reflexivity]. }
  split; [exact H|].
  exact (latest_session_is_marked "now" "/logs" tie_dir H).
Defined.

(** ** Ids of the turn path are told apart by their parts *)

Lemma string_app_assoc (a b c : string) : (a +:+ b) +:+ c = a +:+ b +:+ c.
Proof.
  induction a as [|x a IH]; [done|].
  change (String x ((a +:+ b) +:+ c) = String x (a +:+ b +:+ c)).
  by rewrite IH.
Qed.

Lemma no_dash_app_dash (x a : string) : no_dash (x +:+ String "-" a) = false.
Proof.
  induction x as [|c x IH]; [done|].
  change (no_dash (String c x +:+ String "-" a))
    with (negb (Ascii.eqb c "-") && no_dash (x +:+ String "-" a)).
  rewrite IH. apply andb_false_r.
Qed.

(** A string splits in one way at its last hyphen. *)
Lemma last_dash_unique (x1 x2 a1 a2 : string) :
  no_dash a1 = true → no_dash a2 = true →
  x1 +:+ String "-" a1 = x2 +:+ String "-" a2 → x1 = x2 ∧ a1 = a2.
Proof.
  intros H1 H2. revert x2.
  induction x1 as [|c x1 IH]; intros [|c' x2]; simpl; intros Heq.
  - by injection Heq.
  - injection Heq as _ ->. by rewrite no_dash_app_dash in H1.
  - injection Heq as _ <-. by rewrite no_dash_app_dash in H2.
  - injection Heq as -> Heq. destruct (IH _ Heq) as [-> ->]. done.
Qed.

(** A string splits in one way at its first hyphen. *)
Lemma first_dash_unique (d1 d2 r1 r2 : string) :
  no_dash d1 = true → no_dash d2 = true →
  d1 +:+ String "-" r1 = d2 +:+ String "-" r2 → d1 = d2 ∧ r1 = r2.
Proof.
  revert d2. induction d1 as [|c d1 IH]; intros [|c' d2]; simpl; intros H1 H2 Heq.
  - by injection Heq.
  - injection Heq as <- _. done.
  - injection Heq as -> _. done.
  - apply andb_true_iff in H1 as [_ H1]. apply andb_true_iff in H2 as [_ H2].
    injection Heq as -> Heq. destruct (IH _ H1 H2 Heq) as [-> ->]. done.
Qed.

Lemma no_dash_string_of_uint (d : Decimal.uint) :
  no_dash (NilEmpty.string_of_uint d) = true.
Proof. induction d; simpl; done. Qed.

Lemma no_dash_tpl_nat (n : nat) : no_dash (tpl_nat n) = true.
Proof. apply no_dash_string_of_uint. Qed.

Lemma tpl_nat_inj (n m : nat) : tpl_nat n = tpl_nat m → n = m.
Proof.
  unfold tpl_nat. intros Heq.
  apply DecimalNat.Unsigned.to_uint_inj.
  assert (Some (Nat.to_uint n) = Some (Nat.to_uint m)) as [= ?]; [|done].
  by rewrite <-!NilEmpty.usu, Heq.
Qed.

Lemma no_dash_kind_tag (kind : ToolKind) : no_dash (kind_tag kind) = true.
Proof. by destruct kind. Qed.

Lemma fc_id_turn_change tid ts l kind i input :
  fc_id (turn_change tid ts l kind i input) = turn_path_id tid (tpl ts) kind i.
Proof.
  unfold turn_path_id. rewrite !string_app_assoc. by destruct kind.
Qed.

(** Two ids under one turn id and one timestamp that agree have the same
    counter. *)
Lemma turn_path_id_counter tid1 tid2 s1 s2 k1 k2 i1 i2 :
  turn_path_id tid1 s1 k1 i1 = turn_path_id tid2 s2 k2 i2 → i1 = i2.
Proof.
  unfold turn_path_id. intros Heq.
  apply last_dash_unique in Heq as [_ Heq]; auto using no_dash_tpl_nat.
  by apply tpl_nat_inj.
Qed.

(** Two ids of one session that agree have the same timestamp. *)
Lemma turn_path_id_stamp sid n1 n2 s1 s2 k1 k2 i1 i2 :
  turn_path_id (turn_name sid n1) s1 k1 i1 = turn_path_id (turn_name sid n2) s2 k2 i2 →
  s1 = s2.
Proof.
  unfold turn_path_id, turn_name. intros Heq.
  apply last_dash_unique in Heq as [Heq _]; auto using no_dash_tpl_nat.
  apply last_dash_unique in Heq as [Heq _]; auto using no_dash_kind_tag.
  rewrite !string_app_assoc in Heq. apply (inj (String.append sid)) in Heq.
  simpl in Heq. injection Heq as Heq.
  apply first_dash_unique in Heq as [_ Heq]; auto using no_dash_tpl_nat.
Qed.

Lemma fc_id_indexed_change tid ts l inv :
  fc_id (indexed_change tid ts l inv)
  = turn_path_id tid (tpl ts) (fst (snd inv)) (fst inv).
Proof. apply fc_id_turn_change. Qed.

(** The ids of the changes of one entry are pairwise distinct, whatever
    the timestamp: the counter tells them apart. *)
Lemma extractAllFileChanges_ids_NoDup entry tid l :
  NoDup (fc_id <$> extractAllFileChanges entry tid l).
Proof.
  rewrite extractAllFileChanges_indexed.
  set (invs := indexed_invocations 0 (default [] (array_content entry))).
  assert (Hnd : NoDup (fst <$> invs)) by apply indexed_invocations_NoDup.
  rewrite <-list_fmap_compose.
  apply NoDup_fmap_2_strong.
  - intros x y Hx Hy Heq. simpl in Heq. rewrite !fc_id_indexed_change in Heq.
    apply turn_path_id_counter in Heq.
    apply list_elem_of_In, filter_In in Hx as [Hx _].
    apply list_elem_of_In, filter_In in Hy as [Hy _].
    apply list_elem_of_In in Hx, Hy.
    apply list_elem_of_lookup in Hx as [ix Hx]. apply list_elem_of_lookup in Hy as [iy Hy].
    assert (ix = iy) as ->.
    { eapply NoDup_lookup; [exact Hnd| |].
      - rewrite list_lookup_fmap, Hx. done.
      - rewrite list_lookup_fmap, Hy. simpl. by rewrite Heq. }
    congruence.
  - assert (Hnd' : NoDup invs) by (eapply NoDup_fmap_1; exact Hnd).
    clear -Hnd'. induction Hnd' as [|x xs Hx Hxs IH]; simpl; [constructor|].
    destruct (has_target_path (snd x)); [|done].
    constructor; [|done]. intros Hin. apply Hx.
    apply list_elem_of_In, filter_In in Hin as [Hin _]. by apply list_elem_of_In.
Qed.

(** ** Ids across a session *)

Lemma extraction_id_form sid st :
  (∀ t, currentTurn st = Some t → ∃ n, turn_id t = turn_name sid n) →
  ∃ n, extraction_id sid st = turn_name sid n.
Proof.
  intros Hcur. unfold extraction_id.
  destruct (currentTurn st) as [t|]; simpl; [|by exists 0].
  destruct (truthy (turn_id t)); [by apply Hcur|by exists 0].
Qed.

Lemma turn_id_absorb found text t : turn_id (absorb found text t) = turn_id t.
Proof.
  unfold absorb. case_bool_decide; destruct (truthy text); try done;
    by destruct (truthy (assistantMessage _)).
Qed.

Lemma user_step_current now sid l st entry :
  (∀ t, currentTurn st = Some t → ∃ n, turn_id t = turn_name sid n) →
  ∀ t, currentTurn (user_step now sid l st entry) = Some t →
       ∃ n, turn_id t = turn_name sid n.
Proof.
  intros Hcur t. unfold user_step.
  destruct (String.eqb (entry_type entry) "user"); [|apply Hcur].
  destruct (isToolResultEntry entry); simpl; [apply Hcur|].
  intros [= <-]. by eexists.
Qed.

Lemma assistant_step_current now sid l st entry :
  (∀ t, currentTurn st = Some t → ∃ n, turn_id t = turn_name sid n) →
  ∀ t, currentTurn (assistant_step now sid l st entry) = Some t →
       ∃ n, turn_id t = turn_name sid n.
Proof.
  intros Hcur t. unfold assistant_step.
  destruct (String.eqb (entry_type entry) "assistant"); [|apply Hcur].
  destruct (array_content entry); [|apply Hcur].
  destruct (currentTurn st) as [t0|] eqn:Hst; simpl.
  - rewrite Hst. intros [= <-]. rewrite turn_id_absorb. by apply Hcur.
  - destruct (_ || _); simpl.
    + intros [= <-]. rewrite turn_id_absorb. by eexists.
    + rewrite Hst; simpl. by rewrite Hst.
Qed.

Lemma entry_changes_ids now sid l st entry c :
  c ∈ entry_changes now sid l st entry →
  ∃ kind i, fc_id c
    = turn_path_id (extraction_id sid (user_step now sid l st entry)) (stamp entry) kind i.
Proof.
  unfold entry_changes.
  destruct (String.eqb (entry_type entry) "assistant"); [|by intros ?%elem_of_nil].
  destruct (array_content entry); [|by intros ?%elem_of_nil].
  rewrite extractAllFileChanges_indexed.
  intros (inv & -> & _)%list_elem_of_fmap.
  rewrite fc_id_indexed_change. by eexists _, _.
Qed.

Lemma entry_changes_ids_NoDup now sid l st entry :
  NoDup (fc_id <$> entry_changes now sid l st entry).
Proof.
  unfold entry_changes.
  destruct (String.eqb (entry_type entry) "assistant"); [|constructor].
  destruct (array_content entry); [|constructor].
  apply extractAllFileChanges_ids_NoDup.
Qed.

Lemma entry_changes_not_mutating now sid l st entry :
  mutating entry = false → entry_changes now sid l st entry = [].
Proof.
  unfold mutating. intros Hm.
  pose proof (entry_changes_payloads now sid l st entry) as Hp.
  destruct (entry_payloads entry); [|done].
  by apply fmap_nil_inv in Hp.
Qed.

Lemma ids_invariant_step now sid l seen st entry :
  ids_invariant sid seen st →
  (mutating entry = true → stamp entry ∉ seen) →
  ids_invariant sid (if mutating entry then stamp entry :: seen else seen)
    (turn_step now sid l st entry).
Proof.
  intros (Hnd & Hids & Hcur) Hfresh.
  assert (Hcur' : ∀ t, currentTurn (turn_step now sid l st entry) = Some t →
                       ∃ n, turn_id t = turn_name sid n).
  { unfold turn_step. by apply assistant_step_current, user_step_current. }
  destruct (mutating entry) eqn:Hm.
  - destruct (extraction_id_form sid (user_step now sid l st entry)) as [n Hn].
    { by apply user_step_current. }
    split_and!; [| |done].
    + rewrite state_changes_turn_step, fmap_app. apply NoDup_app. split_and!.
      * done.
      * intros x (c & -> & Hc)%list_elem_of_fmap (c' & Heq & Hc')%list_elem_of_fmap.
        destruct (Hids c Hc) as (n0 & s & k & i & Hs & Hid).
        destruct (entry_changes_ids _ _ _ _ _ _ Hc') as (k' & i' & Hid').
        rewrite Hid, Hid', Hn in Heq. apply turn_path_id_stamp in Heq.
        apply Hfresh; [done|]. by rewrite <-Heq.
      * apply entry_changes_ids_NoDup.
    + intros c. rewrite state_changes_turn_step.
      intros [Hc|Hc]%elem_of_app.
      * destruct (Hids c Hc) as (n0 & s & k & i & Hs & Hid).
        exists n0, s, k, i. split; [by apply list_elem_of_further|done].
      * destruct (entry_changes_ids _ _ _ _ _ _ Hc) as (k & i & Hid).
        exists n, (stamp entry), k, i. split; [apply list_elem_of_here|].
        by rewrite Hid, Hn.
  - split_and!; [| |done];
      rewrite state_changes_turn_step, entry_changes_not_mutating, app_nil_r by done;
      done.
Qed.

Lemma ids_invariant_foldl now sid l entries seen st :
  ids_invariant sid seen st →
  NoDup (stamp <$> List.filter mutating entries) →
  (∀ s, s ∈ seen → s ∉ stamp <$> List.filter mutating entries) →
  ∃ seen', ids_invariant sid seen' (foldl (turn_step now sid l) st entries).
Proof.
  revert seen st. induction entries as [|e entries IH]; intros seen st Hinv Hnd Hseen.
  - by exists seen.
  - simpl in *. destruct (mutating e) eqn:Hm.
    + change (stamp <$> e :: List.filter mutating entries)
        with (stamp e :: (stamp <$> List.filter mutating entries)) in *.
      apply NoDup_cons in Hnd as [Hfresh Hnd].
      apply (IH (stamp e :: seen)); [|done|].
      * pose proof (ids_invariant_step now sid l seen st e Hinv) as Hstep.
        rewrite Hm in Hstep. apply Hstep. intros _ Hin.
        apply (Hseen _ Hin), list_elem_of_here.
      * intros s [->|Hs]%elem_of_cons; [done|].
        intros Hin. apply (Hseen _ Hs). by apply list_elem_of_further.
    + apply (IH seen); [|done|done].
      pose proof (ids_invariant_step now sid l seen st e Hinv) as Hstep.
      rewrite Hm in Hstep. apply Hstep. done.
Qed.

Lemma build_turns_ids_NoDup now sid l entries :
  NoDup (stamp <$> List.filter mutating entries) →
  NoDup (fc_id <$> turn_changes (build_turns now sid l entries)).
Proof.
  intros Hnd. rewrite turn_changes_build_turns.
  destruct (ids_invariant_foldl now sid l entries [] initial_state) as (seen & Hinv & _).
  - split_and!; [constructor|by intros c ?%elem_of_nil|done].
  - done.
  - by intros s ?%elem_of_nil.
  - done.
Qed.

(** ** Ids of the flat path *)

Lemma extractFileChange_loop_head ts blocks :
  extractFileChange_loop ts blocks
  = (λ inv : Invocation, flat_change ts (fst inv) (snd inv)) <$>
      head (file_invocations blocks).
Proof.
  unfold file_invocations.
  induction blocks as [|c rest IH]; simpl; [done|].
  unfold file_invocation at 1.
  destruct (String.eqb (block_type c) "tool_use"); [|apply IH].
  destruct (tool_kind (block_name c)); simpl; [done|apply IH].
Qed.

Lemma parseLogFile_step_flat acc entry :
  parseLogFile_step acc (line_of entry) = acc ++ option_list (flat_entry_change entry).
Proof.
  unfold parseLogFile_step, line_of, flat_entry_change, assistant_blocks,
    extractFileChange, has_content, array_content.
  destruct (String.eqb (entry_type entry) "assistant"); simpl;
    [|by rewrite app_nil_r].
  destruct (message_content entry) as [[s|blocks]|]; simpl.
  - destruct (truthy s); by rewrite app_nil_r.
  - rewrite extractFileChange_loop_head.
    destruct (head (file_invocations blocks)); simpl; [done|by rewrite app_nil_r].
  - by rewrite app_nil_r.
Qed.

Lemma parseLogFile_flat lines :
  parseLogFile lines = omap flat_entry_change (valid_entries lines).
Proof.
  unfold parseLogFile. rewrite <-(app_nil_l (omap _ _)).
  generalize (@nil FileChange). unfold valid_entries.
  induction lines as [|[[| |e]|] lines IH]; intros acc.
  - simpl. by rewrite app_nil_r.
  - apply IH.
  - apply IH.
  - change (foldl parseLogFile_step acc (Some (Entry e) :: lines))
      with (foldl parseLogFile_step (parseLogFile_step acc (line_of e)) lines).
    rewrite IH, parseLogFile_step_flat, <-(assoc_L (++)). f_equal.
    change (omap record_of (Some (Entry e) :: lines)) with (e :: omap record_of lines).
    change (omap flat_entry_change (e :: omap record_of lines))
      with (match flat_entry_change e with
            | Some c => c :: omap flat_entry_change (omap record_of lines)
            | None => omap flat_entry_change (omap record_of lines)
            end).
    by destruct (flat_entry_change e).
  - apply IH.
Qed.

Lemma flat_entry_change_id entry c :
  flat_entry_change entry = Some c →
  invoking entry = true ∧ ∃ kind, fc_id c = flat_path_id (stamp entry) kind.
Proof.
  unfold flat_entry_change, invoking.
  destruct (file_invocations (assistant_blocks entry)) as [|[kind input] invs];
    simpl; [done|].
  intros [= <-]. split; [done|]. exists kind. by destruct kind.
Qed.

Lemma flat_path_id_stamp s1 s2 k1 k2 :
  flat_path_id s1 k1 = flat_path_id s2 k2 → s1 = s2.
Proof.
  unfold flat_path_id. intros Heq.
  apply last_dash_unique in Heq as [Heq _]; auto using no_dash_kind_tag.
Qed.

Lemma flat_ids_NoDup entries :
  NoDup (stamp <$> List.filter invoking entries) →
  NoDup (fc_id <$> omap flat_entry_change entries).
Proof.
  induction entries as [|e entries IH]; intros Hnd; [constructor|].
  change (omap flat_entry_change (e :: entries))
    with (match flat_entry_change e with
          | Some c => c :: omap flat_entry_change entries
          | None => omap flat_entry_change entries
          end).
  simpl in Hnd. destruct (flat_entry_change e) as [c|] eqn:Hc.
  - destruct (flat_entry_change_id e c Hc) as [Hinv [kind Hid]].
    rewrite Hinv in Hnd.
    change (stamp <$> e :: List.filter invoking entries)
      with (stamp e :: (stamp <$> List.filter invoking entries)) in Hnd.
    apply NoDup_cons in Hnd as [Hfresh Hnd].
    change (fc_id <$> c :: omap flat_entry_change entries)
      with (fc_id c :: (fc_id <$> omap flat_entry_change entries)).
    constructor; [|by apply IH].
    intros (c' & Heq & Hc')%list_elem_of_fmap.
    apply list_elem_of_omap in Hc' as (e' & He' & Hc').
    destruct (flat_entry_change_id e' c' Hc') as [Hinv' [kind' Hid']].
    rewrite Hid, Hid' in Heq. apply flat_path_id_stamp in Heq.
    apply Hfresh. rewrite Heq. apply list_elem_of_fmap. exists e'. split; [done|].
    apply list_elem_of_In, filter_In. split; [by apply list_elem_of_In|done].
  - apply IH. destruct (invoking e); [|done].
    change (stamp <$> e :: List.filter invoking entries)
      with (stamp e :: (stamp <$> List.filter invoking entries)) in Hnd.
    by apply NoDup_cons in Hnd as [_ Hnd].
Qed.

Lemma getSessionChanges_ids now p dir sid cs :
  getSessionChanges now p dir sid = Ok cs →
  ∃ f, lookup_session dir sid = Some (Some f) ∧
       fc_id <$> cs = fc_id <$> parseLogFile (file_lines f).
Proof.
  unfold getSessionChanges.
  destruct (lookup_session dir sid) as [[f|]|]; [|done..].
  intros [= <-]. exists f. split; [done|].
  rewrite <-list_fmap_compose. by apply list_fmap_ext.
Qed.

(** C5, as stated, fails: two assistant entries of one turn with the same
    timestamp, each with one [Write], get the same id; the ids of the flat
    path repeat on the same session. *)
Lemma change_ids_repeat :
  (∃ r, getSessionWithTurns "now" "/logs" same_stamp_dir "s1" = Ok r ∧
        ¬ NoDup (fc_id <$> turn_changes (turns r))) ∧
  (∃ cs, getSessionChanges "now" "/logs" same_stamp_dir "s1" = Ok cs ∧
         ¬ NoDup (fc_id <$> cs)).
Proof.
  split; eexists; (split; [vm_compute; reflexivity|]);
    intros Hnd; apply NoDup_cons in Hnd as [Hnotin _];
    apply Hnotin, list_elem_of_here.
Qed.

(** C5, amended.  On the turn path the ids of the changes of one entry are
    pairwise distinct even though they share a timestamp, since each id
    joins turn id, timestamp, tool and a 1-based counter that restarts at
    every entry.  The ids of all the changes [getSessionWithTurns] returns
    are pairwise distinct when no two mutating entries of the session
    share a timestamp, and so are those of [getSessionChanges], built from
    timestamp and tool only, when no two entries with a file-mutating
    invocation do. *)
Theorem change_ids_unique now projectLogDir dir sid :
  (∀ entry turnId isLatestV,
     NoDup (fc_id <$> extractAllFileChanges entry turnId isLatestV)) ∧
  (∀ r f,
     getSessionWithTurns now projectLogDir dir sid = Ok r →
     lookup_session dir sid = Some (Some f) →
     NoDup (stamp <$> List.filter mutating (valid_entries (file_lines f))) →
     NoDup (fc_id <$> turn_changes (turns r))) ∧
  (∀ cs f,
     getSessionChanges now projectLogDir dir sid = Ok cs →
     lookup_session dir sid = Some (Some f) →
     NoDup (stamp <$> List.filter invoking (valid_entries (file_lines f))) →
     NoDup (fc_id <$> cs)).
Proof.
  split_and!.
  - intros. apply extractAllFileChanges_ids_NoDup.
  - intros r f Hok Hf Hnd.
    apply getSessionWithTurns_Ok in Hok as (f' & Hf' & ->).
    rewrite Hf in Hf'. injection Hf' as <-.
    by apply build_turns_ids_NoDup.
  - intros cs f Hok Hf Hnd.
    apply getSessionChanges_ids in Hok as (f' & Hf' & ->).
    rewrite Hf in Hf'. injection Hf' as <-.
    rewrite parseLogFile_flat. by apply flat_ids_NoDup.
Qed.

Lemma change_ids_unique_witness :
  ∃ r, getSessionWithTurns "now" "/logs" (one_session (line_of two_writes) []) "s1" = Ok r ∧
       NoDup (fc_id <$> turn_changes (turns r)).
Proof.
  eexists. split; [vm_compute; reflexivity|].
  eapply (proj1 (proj2 (change_ids_unique "now" "/logs"
                          (one_session (line_of two_writes) []) "s1"))).
  - vm_compute; reflexivity.
  - vm_compute; reflexivity.
  - vm_compute. apply NoDup_singleton.
Defined.

(** ** Changes met before any turn is open *)

Lemma extractAllFileChanges_mutating entry tid l :
  String.eqb (entry_type entry) "assistant" = true →
  (extractAllFileChanges entry tid l = [] ↔ mutating entry = false).
Proof.
  intros Hty. pose proof (extractAllFileChanges_payloads entry tid l) as Hp.
  unfold mutating, entry_payloads, assistant_blocks. rewrite Hty, <-Hp.
  destruct (extractAllFileChanges entry tid l); simpl; split; done.
Qed.

Lemma turn_userMessage_absorb found text t :
  turn_userMessage (absorb found text t) = turn_userMessage t.
Proof.
  unfold absorb. case_bool_decide; destruct (truthy text); try done;
    by destruct (truthy (assistantMessage _)).
Qed.

Lemma mutating_assistant entry :
  mutating entry = true → String.eqb (entry_type entry) "assistant" = true.
Proof.
  unfold mutating, entry_payloads, assistant_blocks.
  by destruct (String.eqb (entry_type entry) "assistant").
Qed.

Lemma mutating_found entry tid l :
  mutating entry = true → extractAllFileChanges entry tid l ≠ [].
Proof.
  intros Hm Hnil.
  apply extractAllFileChanges_mutating in Hnil; [congruence|].
  by apply mutating_assistant.
Qed.

Lemma turn_step_idle now sid l st entry :
  opens_turn entry = false → currentTurn st = None →
  turn_step now sid l st entry = st.
Proof.
  unfold opens_turn. intros [Huser Hasst]%orb_false_iff Hcur.
  unfold turn_step.
  assert (user_step now sid l st entry = st) as ->.
  { unfold user_step. destruct (String.eqb (entry_type entry) "user"); [|done].
    simpl in Huser. by destruct (isToolResultEntry entry). }
  unfold assistant_step.
  destruct (String.eqb (entry_type entry) "assistant") eqn:Hty; [|done].
  destruct (array_content entry) as [blocks|]; [|done].
  simpl in Hasst. apply orb_false_iff in Hasst as [Hm Htext].
  apply (extractAllFileChanges_mutating entry (extraction_id sid st) l Hty) in Hm.
  unfold extraction_id in Hm. rewrite Hm, Hcur, Htext. simpl. by rewrite Hcur.
Qed.

Lemma foldl_turn_step_idle now sid l pre :
  Forall (λ e, opens_turn e = false) pre →
  foldl (turn_step now sid l) initial_state pre = initial_state.
Proof.
  induction 1 as [|e pre He _ IH]; simpl; [done|].
  by rewrite turn_step_idle.
Qed.

Lemma turn_step_early now sid l entry :
  mutating entry = true →
  early_turn_kept sid (extractAllFileChanges entry (turn_name sid 0) l)
    (turn_step now sid l initial_state entry).
Proof.
  intros Hm.
  pose proof (mutating_assistant entry Hm) as Hty.
  pose proof (mutating_found entry (turn_name sid 0) l Hm) as Hfound.
  assert (Hblocks : is_Some (array_content entry)).
  { unfold extractAllFileChanges in Hfound. by destruct (array_content entry). }
  destruct Hblocks as [blocks Hblocks].
  unfold turn_step.
  assert (user_step now sid l initial_state entry = initial_state) as ->.
  { unfold user_step. apply String.eqb_eq in Hty. by rewrite Hty. }
  unfold assistant_step. rewrite Hty, Hblocks. simpl.
  change (or_else None (turn_name sid 0)) with (turn_name sid 0).
  destruct (extractAllFileChanges entry (turn_name sid 0) l) as [|c found] eqn:Hf;
    [done|].
  left. eexists. split_and!; [done..|]. split_and!.
  - by rewrite turn_id_absorb.
  - by rewrite turn_userMessage_absorb.
  - exists []. by rewrite fileChanges_absorb, app_nil_r.
Qed.

Lemma push_if_changed_nonempty emitted t :
  fileChanges t ≠ [] → push_if_changed emitted (Some t) = emitted ++ [t].
Proof.
  intros Hne. unfold push_if_changed. case_bool_decide as Hlen; [done|].
  destruct (fileChanges t); simpl in Hlen; [done|lia].
Qed.

Lemma holds_early_changes_nonempty sid found t :
  found ≠ [] → holds_early_changes sid found t → fileChanges t ≠ [].
Proof.
  intros Hne (_ & _ & later & Hlater). rewrite Hlater. by destruct found.
Qed.

Lemma holds_early_changes_absorb sid found more text t :
  holds_early_changes sid found t →
  holds_early_changes sid found (absorb more text t).
Proof.
  intros (Hid & Hmsg & later & Hlater). split_and!.
  - by rewrite turn_id_absorb.
  - by rewrite turn_userMessage_absorb.
  - exists (later ++ more). by rewrite fileChanges_absorb, Hlater, (assoc_L (++)).
Qed.

Lemma early_turn_kept_step now sid l found st entry :
  found ≠ [] →
  early_turn_kept sid found st →
  early_turn_kept sid found (turn_step now sid l st entry).
Proof.
  intros Hne Hkept. unfold turn_step.
  assert (Huser : early_turn_kept sid found (user_step now sid l st entry)).
  { unfold user_step. destruct (String.eqb (entry_type entry) "user"); [|done].
    destruct (isToolResultEntry entry); simpl; [done|].
    destruct Hkept as [(t & Hturns & Hcur & Ht)|(t & others & Hturns & Ht)].
    - right. exists t, []. split; [|done]. simpl. rewrite Hturns, Hcur.
      rewrite push_if_changed_nonempty; [done|].
      by eapply holds_early_changes_nonempty.
    - right. simpl. rewrite Hturns. unfold push_if_changed.
      destruct (currentTurn st) as [t'|]; [|by eauto].
      case_bool_decide; by eauto. }
  revert Huser. generalize (user_step now sid l st entry). clear Hkept.
  intros st' Hkept. unfold assistant_step.
  destruct (String.eqb (entry_type entry) "assistant"); [|done].
  destruct (array_content entry) as [blocks|]; [|done].
  destruct Hkept as [(t & Hturns & Hcur & Ht)|(t & others & Hturns & Ht)].
  - rewrite Hcur. simpl. rewrite Hcur. left. eexists.
    split; [done|]. split; [done|].
    by apply holds_early_changes_absorb.
  - right. exists t, others. split; [|done].
    destruct (currentTurn st') as [t'|] eqn:Hcur; simpl.
    + by rewrite Hcur.
    + destruct (_ || _); simpl; [done|by rewrite Hcur].
Qed.

Lemma early_turn_kept_foldl now sid l found rest st :
  found ≠ [] →
  early_turn_kept sid found st →
  early_turn_kept sid found (foldl (turn_step now sid l) st rest).
Proof.
  intros Hne. revert st. induction rest as [|e rest IH]; intros st Hkept; [done|].
  simpl. by apply IH, early_turn_kept_step.
Qed.

Lemma build_turns_early now sid l pre entry rest :
  Forall (λ e, opens_turn e = false) pre →
  mutating entry = true →
  ∃ t others,
    build_turns now sid l (pre ++ entry :: rest) = t :: others ∧
    holds_early_changes sid (extractAllFileChanges entry (turn_name sid 0) l) t.
Proof.
  intros Hpre Hm. unfold build_turns.
  rewrite foldl_app, foldl_turn_step_idle by done. simpl.
  set (found := extractAllFileChanges entry (turn_name sid 0) l).
  assert (Hne : found ≠ []) by by apply mutating_found.
  pose proof (early_turn_kept_foldl now sid l found rest _ Hne
                (turn_step_early now sid l entry Hm)) as Hkept.
  destruct Hkept as [(t & Hturns & Hcur & Ht)|(t & others & Hturns & Ht)].
  - exists t, []. split; [|done]. rewrite Hturns, Hcur.
    rewrite push_if_changed_nonempty; [done|].
    by eapply holds_early_changes_nonempty.
  - rewrite Hturns. unfold push_if_changed.
    destruct (currentTurn _) as [t'|]; [|by eauto].
    case_bool_decide; by eauto.
Qed.

Lemma prefix_app (a b : string) : String.prefix a (a +:+ b) = true.
Proof.
  induction a as [|c a IH]; simpl; [by destruct b|].
  destruct (ascii_dec c c); [done|done].
Qed.

Lemma prefix_app_cancel (a b c : string) :
  String.prefix (a +:+ b) (a +:+ c) = String.prefix b c.
Proof.
  induction a as [|x a IH]; simpl; [done|].
  destruct (ascii_dec x x); [done|done].
Qed.

Lemma early_ids sid entry l c :
  c ∈ extractAllFileChanges entry (turn_name sid 0) l →
  String.prefix (sid +:+ "-turn-0-") (fc_id c) = true ∧
  String.prefix (turn_name sid 1) (fc_id c) = false.
Proof.
  rewrite extractAllFileChanges_indexed.
  intros (inv & -> & _)%list_elem_of_fmap.
  rewrite fc_id_indexed_change. unfold turn_path_id, turn_name.
  rewrite !string_app_assoc. split.
  - change (sid +:+ "-turn-0-") with (sid +:+ "-turn-0-" +:+ "").
    change (sid +:+ "-turn-" +:+ tpl_nat 0 +:+ "-" +:+ ?x)
      with (sid +:+ "-turn-0-" +:+ x).
    rewrite prefix_app_cancel. exact (prefix_app "-turn-0-" _).
  - rewrite prefix_app_cancel. done.
Qed.

(** C10, as stated, fails: of two file-mutating assistant entries that
    precede every genuine user message, both held by turn 1, the second
    has its change under an id that begins with turn 1. *)
Lemma early_changes_under_turn_0_fails :
  ∃ r, getSessionWithTurns "now" "/logs" two_early_writes "s1" = Ok r ∧
       turn_id <$> turns r = ["s1-turn-1"] ∧
       fc_id <$> turn_changes (turns r)
       = ["s1-turn-0-2025-01-01T00:00:00Z-write-1";
          "s1-turn-1-2025-01-01T00:00:01Z-write-1"].
Proof. eexists. split; [vm_compute; reflexivity|]. split; reflexivity. Qed.

(** C10, amended.  When a file-mutating assistant entry is the first entry
    of the session to open a turn (no genuine user message and no
    assistant entry with a text or a change comes before it), the first
    turn returned is the synthesized one, its id is [<sessionId>-turn-1],
    its changes start with those of the entry, and each of these has an id
    that begins with [<sessionId>-turn-0-] and does not begin with the id
    of the turn. *)
Theorem early_changes_carry_turn_0 now projectLogDir dir sid r f pre entry rest :
  getSessionWithTurns now projectLogDir dir sid = Ok r →
  lookup_session dir sid = Some (Some f) →
  valid_entries (file_lines f) = pre ++ entry :: rest →
  Forall (λ e, opens_turn e = false) pre →
  mutating entry = true →
  ∃ t others found later,
    turns r = t :: others ∧
    turn_id t = sid +:+ "-turn-1" ∧
    turn_userMessage t = "No message" ∧
    found = extractAllFileChanges entry (sid +:+ "-turn-0") (swt_isLatest r) ∧
    found ≠ [] ∧
    fileChanges t = found ++ later ∧
    Forall (λ c, String.prefix (sid +:+ "-turn-0-") (fc_id c) = true ∧
                 String.prefix (turn_id t) (fc_id c) = false) found.
Proof.
  intros Hok Hf Hentries Hpre Hm.
  apply getSessionWithTurns_Ok_inv in Hok as (f' & Hf' & _ & ->).
  rewrite Hf in Hf'. injection Hf' as <-.
  cbn [turns swt_isLatest]. rewrite Hentries.
  set (l := is_latest_session _ sid).
  destruct (build_turns_early now sid l pre entry rest Hpre Hm)
    as (t & others & Hturns & Hid & Hmsg & later & Hlater).
  exists t, others, (extractAllFileChanges entry (turn_name sid 0) l), later.
  split_and!; try done.
  - by apply mutating_found.
  - apply Forall_forall. intros c Hc. rewrite Hid. by eapply early_ids.
Qed.

Lemma early_changes_carry_turn_0_witness :
  ∃ r t others found later,
    getSessionWithTurns "now" "/logs" two_early_writes "s1" = Ok r ∧
    turns r = t :: others ∧
    turn_id t = "s1-turn-1" ∧
    turn_userMessage t = "No message" ∧
    found = extractAllFileChanges
              (assistant_entry "2025-01-01T00:00:00Z"
                 [tool_use "Write" (Some (write_input (Some "a.txt") "x"))])
              "s1-turn-0" (swt_isLatest r) ∧
    found ≠ [] ∧
    fileChanges t = found ++ later ∧
    Forall (λ c, String.prefix "s1-turn-0-" (fc_id c) = true ∧
                 String.prefix (turn_id t) (fc_id c) = false) found.
Proof.
  assert (Hr : ∃ r, getSessionWithTurns "now" "/logs" two_early_writes "s1" = Ok r)
    by (eexists; vm_compute; reflexivity).
  destruct Hr as [r Hr]. exists r.
  destruct (early_changes_carry_turn_0 "now" "/logs" two_early_writes "s1" r
              {| file_mtime := 1000;
                 first_line :=
                   line_of (assistant_entry "2025-01-01T00:00:00Z"
                           [tool_use "Write" (Some (write_input (Some "a.txt") "x"))]);
                 more_lines :=
                   [line_of (assistant_entry "2025-01-01T00:00:01Z"
                            [tool_use "Write" (Some (write_input (Some "b.txt") "y"))])] |}
              []
              (assistant_entry "2025-01-01T00:00:00Z"
                 [tool_use "Write" (Some (write_input (Some "a.txt") "x"))])
              [assistant_entry "2025-01-01T00:00:01Z"
                 [tool_use "Write" (Some (write_input (Some "b.txt") "y"))]]
              Hr)
    as (t & others & found & later & H).
  - vm_compute; reflexivity.
  - vm_compute; reflexivity.
  - constructor.
  - vm_compute; reflexivity.
  - exists t, others, found, later. split; [exact Hr|exact H].
Defined.

(** ** A revert that fails is not recorded *)

(** Whatever makes a revert throw, both copies of the ledger stay as they
    were. *)
Lemma revertChange_failure_keeps_ledger clock io change tr e tr' :
  revertChange clock io change tr = (Some e, tr') →
  ledger tr' = ledger tr ∧ ledger_store tr' = ledger_store tr.
Proof.
  unfold revertChange.
  destruct (negb (canRevert tr change)); [by intros [= _ <-]|].
  destruct (negb (truthy (pc_oldContent change))).
  - destruct (disk tr !! pc_filePath change); [|done].
    destruct (unlink_fault io); [by intros [= _ <-]|done].
  - destruct (write_fault io); [by intros [= _ <-]|].
    destruct (rename_fault io); [by intros [= _ <-]|done].
Qed.

(** A revert that meets a fault throws it. *)
Lemma revertChange_fault clock io change tr msg :
  canRevert tr change = true →
  fault_met io tr change = Some msg →
  ∃ tr', revertChange clock io change tr = (Some (IoFailure msg), tr').
Proof.
  unfold revertChange, fault_met. intros -> Hfault. simpl.
  destruct (truthy (pc_oldContent change)); simpl.
  - destruct (write_fault io) as [m|]; [injection Hfault as ->; by eexists|].
    rewrite Hfault. by eexists.
  - destruct (disk tr !! pc_filePath change); [|done].
    rewrite Hfault. by eexists.
Qed.

(** A revert records the change in the ledger only when it returns. *)
Lemma revertChange_success_records clock io change tr tr' :
  revertChange clock io change tr = (None, tr') →
  ledger tr' !! pc_id change = Some clock ∧
  ledger_store tr' !! pc_id change = Some clock.
Proof.
  unfold revertChange.
  destruct (negb (canRevert tr change)); [done|].
  destruct (negb (truthy (pc_oldContent change))).
  - destruct (disk tr !! pc_filePath change).
    + destruct (unlink_fault io); [done|]. intros [= <-]. simpl.
      by rewrite !lookup_insert_eq.
    + intros [= <-]. simpl. by rewrite !lookup_insert_eq.
  - destruct (write_fault io); [done|].
    destruct (rename_fault io); [done|]. intros [= <-]. simpl.
    by rewrite !lookup_insert_eq.
Qed.

(** C8.  When the revert of a change that may be reverted meets a fault of
    the write, the rename or the delete, [handleRevert] answers
    [revertError] with the message of the fault, never [revertSuccess],
    and the ledger and its durable copy are what they were: no entry is
    made for the change. *)
Theorem failed_revert_is_not_recorded clock io known tr changeId change msg :
  List.find (λ c, String.eqb (pc_id c) changeId) known = Some change →
  canRevert tr change = true →
  fault_met io tr change = Some msg →
  ∃ tr', handleRevert clock io known tr changeId
           = (revertError (or_else (Some msg) "Failed to revert change"), tr') ∧
         ledger tr' = ledger tr ∧
         ledger_store tr' = ledger_store tr ∧
         ledger tr' !! pc_id change = None.
Proof.
  intros Hfind Hcan Hfault.
  destruct (revertChange_fault clock io change tr msg Hcan Hfault) as [tr' Hrev].
  exists tr'. unfold handleRevert. rewrite Hfind, Hrev.
  destruct (revertChange_failure_keeps_ledger _ _ _ _ _ _ Hrev) as [Hl Hs].
  split_and!; [done..|].
  rewrite Hl. unfold canRevert in Hcan.
  apply andb_true_iff in Hcan as [_ Hcan]. by apply bool_decide_eq_true in Hcan.
Qed.

Lemma failed_revert_is_not_recorded_witness :
  ∃ tr', handleRevert "2025-01-02T00:00:00Z" write_refused [overwrite_change]
           tracker_with_notes "s1-turn-1-2025-01-01T00:00:00Z-write-1"
           = (revertError "EACCES: permission denied", tr') ∧
         ledger tr' = ledger tracker_with_notes ∧
         ledger_store tr' = ledger_store tracker_with_notes ∧
         ledger tr' !! pc_id overwrite_change = None.
Proof.
  apply (failed_revert_is_not_recorded "2025-01-02T00:00:00Z" write_refused
           [overwrite_change] tracker_with_notes
           "s1-turn-1-2025-01-01T00:00:00Z-write-1" overwrite_change
           "EACCES: permission denied").
  - reflexivity.
  - reflexivity.
  - reflexivity.
Defined.

(** ** The project key *)

Example project_key_unix : getCurrentProjectPath "/Users/foo_bar" = "-Users-foo-bar".
Proof. reflexivity. Qed.

Example project_key_windows :
  getCurrentProjectPath "C:\Users\Foo_Bar" = "C--Users-Foo-Bar".
Proof. reflexivity. Qed.

Lemma getCurrentProjectPath_app (a b : string) :
  getCurrentProjectPath (a +:+ b) = getCurrentProjectPath a +:+ getCurrentProjectPath b.
Proof.
  induction a as [|c a IH]; [done|].
  change (getCurrentProjectPath (String c a +:+ b))
    with (String (if is_separator c then "-"%char else c)
            (getCurrentProjectPath (a +:+ b))).
  by rewrite IH.
Qed.

Lemma project_key_free (cwd : string) :
  Forall (λ c, is_separator c = false) (chars (getCurrentProjectPath cwd)).
Proof.
  induction cwd as [|c cwd IH]; [constructor|].
  change (chars (getCurrentProjectPath (String c cwd)))
    with ((if is_separator c then "-"%char else c) :: chars (getCurrentProjectPath cwd)).
  constructor; [|done]. by destruct (is_separator c) eqn:Hc.
Qed.

Lemma project_key_fixed (s : string) :
  Forall (λ c, is_separator c = false) (chars s) → getCurrentProjectPath s = s.
Proof.
  induction s as [|c s IH]; [done|].
  change (chars (String c s)) with (c :: chars s).
  intros [Hc Hs]%Forall_cons. simpl. by rewrite Hc, IH.
Qed.

(** X1.  The project key has the length of the working directory and none
    of the four characters the pattern replaces; a working directory
    without any of them is its own key, so computing the key twice changes
    nothing. *)
Theorem project_key_has_no_separator (cwd : string) :
  String.length (getCurrentProjectPath cwd) = String.length cwd ∧
  Forall (λ c, is_separator c = false) (chars (getCurrentProjectPath cwd)) ∧
  (Forall (λ c, is_separator c = false) (chars cwd) → getCurrentProjectPath cwd = cwd) ∧
  getCurrentProjectPath (getCurrentProjectPath cwd) = getCurrentProjectPath cwd.
Proof.
  split_and!.
  - induction cwd as [|c cwd IH]; simpl; [done|by rewrite IH].
  - apply project_key_free.
  - apply project_key_fixed.
  - apply project_key_fixed, project_key_free.
Qed.

Lemma project_key_has_no_separator_witness :
  getCurrentProjectPath "my-project" = "my-project".
Proof.
  apply (proj1 (proj2 (proj2 (project_key_has_no_separator "my-project")))).
  vm_compute. repeat constructor.
Defined.

(** X2.  The key does not tell the replaced characters from one another
    nor from the hyphen: two working directories that differ in one
    position, both holding there a replaced character or a hyphen, have the
    same key, hence the same log directory. *)
Theorem project_key_collides (a b : string) (c d : ascii) :
  is_separator c = true ∨ c = "-"%char →
  is_separator d = true ∨ d = "-"%char →
  getCurrentProjectPath (a +:+ String c b) = getCurrentProjectPath (a +:+ String d b).
Proof.
  intros Hc Hd. rewrite !getCurrentProjectPath_app. f_equal. simpl. f_equal.
  assert (Hdash : ∀ x, is_separator x = true ∨ x = "-"%char →
                       (if is_separator x then "-"%char else x) = "-"%char).
  { intros x [->| ->]; done. }
  by rewrite !Hdash.
Qed.

Lemma project_key_collides_witness :
  getCurrentProjectPath "/work/app_v2" = getCurrentProjectPath "/work/app/v2".
Proof.
  apply (project_key_collides "/work/app" "v2" "_" "/"); left; reflexivity.
Defined.

(** ** The listing of the sessions *)

Lemma mark_latest_sorted (sessions : list SessionMetadata) :
  StronglySorted (λ a b, (mtime b ≤ mtime a)%Z) sessions →
  StronglySorted (λ a b, (mtime b ≤ mtime a)%Z) (mark_latest sessions).
Proof.
  destruct sessions as [|s rest]; [done|]. simpl.
  intros [Hrest Hall]%StronglySorted_inv. by constructor.
Qed.

(** X3.  The listing is ordered newest first: no session comes after one
    that was modified earlier than it. *)
Theorem listing_newest_first now projectLogDir dir :
  StronglySorted (λ a b, (mtime b ≤ mtime a)%Z)
    (getAllSessionMetadata now projectLogDir dir).
Proof.
  destruct dir as [| |files]; [constructor..|].
  rewrite getAllSessionMetadata_Directory.
  apply mark_latest_sorted, sort_sessions_sorted.
Qed.

Lemma insert_session_filter m s sorted :
  List.filter (λ x, (mtime x =? m)%Z) (insert_session s sorted)
  = List.filter (λ x, (mtime x =? m)%Z) (s :: sorted).
Proof.
  induction sorted as [|s' rest IH]; [done|].
  simpl insert_session. destruct (mtime s' <=? mtime s)%Z eqn:Hle; [done|].
  apply Z.leb_gt in Hle.
  change (List.filter (λ x, (mtime x =? m)%Z) (s' :: insert_session s rest))
    with (if (mtime s' =? m)%Z
          then s' :: List.filter (λ x, (mtime x =? m)%Z) (insert_session s rest)
          else List.filter (λ x, (mtime x =? m)%Z) (insert_session s rest)).
  rewrite IH. simpl.
  destruct (mtime s =? m)%Z eqn:Hs, (mtime s' =? m)%Z eqn:Hs'; try done.
  apply Z.eqb_eq in Hs, Hs'. lia.
Qed.

Lemma sort_sessions_filter m sessions :
  List.filter (λ x, (mtime x =? m)%Z) (sort_sessions sessions)
  = List.filter (λ x, (mtime x =? m)%Z) sessions.
Proof.
  induction sessions as [|s sessions IH]; [done|].
  simpl sort_sessions. rewrite insert_session_filter. simpl. by rewrite IH.
Qed.

Lemma set_isLatest_false_id s : isLatest s = false → set_isLatest false s = s.
Proof. destruct s; simpl. by intros ->. Qed.

Lemma unmark_latest sessions :
  Forall (λ s, isLatest s = false) sessions →
  set_isLatest false <$> mark_latest sessions = sessions.
Proof.
  intros Hall. destruct sessions as [|s rest]; [done|].
  apply Forall_cons in Hall as [Hs Hrest]. simpl. f_equal.
  - destruct s; simpl in *. by rewrite Hs.
  - rewrite <-(list_fmap_id rest) at 2. apply Forall_fmap_ext.
    eapply Forall_impl; [exact Hrest|]. intros x Hx. by apply set_isLatest_false_id.
Qed.

Lemma collected_omap now p files :
  collected now p files
  = omap (λ f, extractSessionMetadata now p (fst f) (snd f)) (List.filter is_jsonl files).
Proof. unfold collected. by rewrite foldl_collect_step. Qed.

Lemma collected_unmarked now p files :
  Forall (λ s, isLatest s = false) (collected now p files).
Proof.
  apply Forall_forall. intros s Hs.
  apply elem_of_collected in Hs as (name & f & _ & _ & Hs).
  by apply extractSessionMetadata_Some in Hs as (? & _ & _ & _ & _ & _ & ?).
Qed.

(** X4.  The listing holds the metadata of every session file that can be
    read, once each and nothing else: with the mark taken off it is a
    rearrangement of the metadata taken in directory order, and sessions
    modified at the same instant stay in directory order. *)
Theorem listing_keeps_directory_order now projectLogDir files m :
  set_isLatest false <$> getAllSessionMetadata now projectLogDir (Directory files)
    ≡ₚ omap (λ f, extractSessionMetadata now projectLogDir (fst f) (snd f))
         (List.filter is_jsonl files) ∧
  List.filter (λ s, (mtime s =? m)%Z)
    (set_isLatest false <$> getAllSessionMetadata now projectLogDir (Directory files))
  = List.filter (λ s, (mtime s =? m)%Z)
      (omap (λ f, extractSessionMetadata now projectLogDir (fst f) (snd f))
         (List.filter is_jsonl files)).
Proof.
  rewrite getAllSessionMetadata_Directory, <-collected_omap.
  rewrite unmark_latest.
  - split; [apply sort_sessions_perm|apply sort_sessions_filter].
  - rewrite Forall_forall. intros s Hs. rewrite sort_sessions_perm in Hs.
    pose proof (collected_unmarked now projectLogDir files) as Hall.
    rewrite Forall_forall in Hall. by apply Hall.
Qed.

(** X5.  The listing is empty exactly when the project directory holds no
    session file that can be read; a directory that is absent, or is not a
    directory, gives the empty listing and no error. *)
Theorem listing_empty_iff now projectLogDir dir :
  getAllSessionMetadata now projectLogDir dir = [] ↔ ¬ has_readable_session_file dir.
Proof.
  destruct dir as [| |files]; [by split; [intros _ []|]..|].
  rewrite getAllSessionMetadata_Directory. simpl. split.
  - intros Hnil (name & f & Hin & Hjsonl).
    pose proof (collected_nonempty now projectLogDir files name f Hin Hjsonl) as Hne.
    pose proof (sort_sessions_perm (collected now projectLogDir files)) as Hperm.
    destruct (sort_sessions (collected now projectLogDir files)); [|done].
    apply Permutation_nil_l in Hperm. by rewrite <-Hperm in Hne.
  - intros Hnone.
    destruct (collected now projectLogDir files) as [|s rest] eqn:Hc; [done|].
    exfalso. apply Hnone.
    assert (Hs : s ∈ collected now projectLogDir files)
      by (rewrite Hc; apply list_elem_of_here).
    apply elem_of_collected in Hs as (name & f & Hin & Hjsonl & _). by exists name, f.
Qed.

Lemma substring_0_length n s : String.length (String.substring 0 n s) ≤ n.
Proof.
  revert s. induction n as [|n IH]; intros [|c s]; simpl; try lia.
  specialize (IH s). lia.
Qed.

Lemma first_text_100_length blocks t :
  first_text_100 blocks = Some t → String.length t ≤ 100.
Proof.
  induction blocks as [|c rest IH]; simpl; [done|].
  destruct (_ && _); [|done]. intros [= <-]. apply substring_0_length.
Qed.

Lemma metadata_step_userMessage st line :
  String.length (firstUserMessage st) ≤ 100 →
  String.length (firstUserMessage (metadata_step st line)) ≤ 100.
Proof.
  intros Hst. destruct line as [[| |entry]|]; [done..| |done]. unfold metadata_step.
  cbn [firstUserMessage].
  destruct (_ && _); [|done].
  destruct (message_content entry) as [[s|blocks]|]; [| |done].
  - apply substring_0_length.
  - destruct (first_text_100 blocks) as [t|] eqn:Ht; simpl; [|done].
    by eapply first_text_100_length.
Qed.

Lemma metadata_scan_userMessage lines :
  String.length (firstUserMessage (metadata_scan lines)) ≤ 100.
Proof.
  unfold metadata_scan.
  assert (H0 : String.length (firstUserMessage
            {| firstUserMessage := "No message"; meta_timestamp := "";
               meta_fileCount := 0 |}) ≤ 100) by (simpl; lia).
  revert H0. generalize {| firstUserMessage := "No message"; meta_timestamp := "";
                           meta_fileCount := 0 |}.
  induction lines as [|line lines IH]; intros st Hst; [done|].
  simpl. by apply IH, metadata_step_userMessage.
Qed.

(** X6.  The user message shown for a session in the listing is never
    longer than 100 code units. *)
Theorem listed_userMessage_at_most_100 now projectLogDir dir :
  Forall (λ s, String.length (userMessage s) ≤ 100)
    (getAllSessionMetadata now projectLogDir dir).
Proof.
  destruct dir as [| |files]; [constructor..|].
  rewrite getAllSessionMetadata_Directory. apply Forall_forall. intros s Hin.
  apply elem_of_mark_latest in Hin as (s0 & v & Hin & ->).
  rewrite sort_sessions_perm in Hin.
  apply elem_of_collected in Hin as (name & f & _ & _ & Hs).
  unfold extractSessionMetadata in Hs. case_bool_decide; [done|].
  injection Hs as <-. simpl. apply metadata_scan_userMessage.
Qed.

(** ** The listing and the two views of a session *)




Lemma lookup_session_Some dir sid node :
  lookup_session dir sid = Some node →
  ∃ files, dir = Directory files ∧ (sid +:+ ".jsonl", node) ∈ files.
Proof.
  destruct dir as [| |files]; [done..|]. simpl. intros Hfind.
  exists files. split; [done|].
  destruct (List.find _ files) as [[name node']|] eqn:Hf; [|done].
  injection Hfind as <-. apply find_some in Hf as [Hin Hname].
  apply String.eqb_eq in Hname. simpl in Hname. subst name.
  by apply list_elem_of_In.
Qed.












(** ** Messages are never blank *)

Lemma trimEnd_idempotent (s : string) : trimEnd (trimEnd s) = trimEnd s.
Proof.
  induction s as [|c s IH]; [done|].
  assert (Heq : ∀ x, trimEnd (String c x)
                = match trimEnd x with
                  | EmptyString => if is_js_space c then EmptyString else String c EmptyString
                  | String d r => String c (String d r)
                  end) by reflexivity.
  rewrite (Heq s). destruct (trimEnd s) as [|d r] eqn:Hr.
  - destruct (is_js_space c) eqn:Hc; [done|]. rewrite (Heq "").
    by change (trimEnd "") with "".
  - rewrite (Heq (String d r)), IH. done.
Qed.

Lemma trimStart_head (s : string) :
  match trimStart s with
  | EmptyString => True
  | String c _ => is_js_space c = false
  end.
Proof.
  induction s as [|c s IH]; [done|]. simpl.
  destruct (is_js_space c) eqn:Hc; [done|done].
Qed.

Lemma trimStart_trimEnd (s : string) :
  match s with EmptyString => True | String c _ => is_js_space c = false end →
  trimStart (trimEnd s) = trimEnd s.
Proof.
  destruct s as [|c s]; [done|]. intros Hc.
  assert (Heq : trimEnd (String c s)
                = match trimEnd s with
                  | EmptyString => if is_js_space c then EmptyString else String c EmptyString
                  | String d r => String c (String d r)
                  end) by reflexivity.
  rewrite Heq. destruct (trimEnd s); rewrite ?Hc; cbn [trimStart]; by rewrite Hc.
Qed.

(** Trimming a trimmed string changes nothing. *)
Lemma trim_idempotent (s : string) : trim (trim s) = trim s.
Proof.
  unfold trim. rewrite trimStart_trimEnd by apply trimStart_head.
  apply trimEnd_idempotent.
Qed.

Lemma first_nonblank_text_Some blocks t :
  first_nonblank_text blocks = Some t → trim t ≠ "".
Proof.
  induction blocks as [|c rest IH]; simpl; [done|].
  destruct (is_nonblank_text c) eqn:Hc; [|done].
  apply is_nonblank_text_spec in Hc as [_ (t' & Ht' & Htrim)].
  rewrite Ht'. by intros [= <-].
Qed.

Lemma extractUserMessage_not_blank (entry : ClaudeLogEntry) :
  trim (extractUserMessage entry) ≠ "".
Proof.
  unfold extractUserMessage.
  destruct (negb (has_content entry)); [done|].
  destruct (message_content entry) as [[s|blocks]|]; [| |done].
  - simpl. destruct (truthy (trim s)) eqn:Hs; [|done].
    rewrite trim_idempotent. by destruct (trim s).
  - destruct (first_nonblank_text blocks) as [t|] eqn:Ht; simpl; [|done].
    by eapply first_nonblank_text_Some.
Qed.

(** A property of the turns that holds of a turn when it is opened and is
    kept when the turn absorbs an assistant entry holds of every turn
    returned. *)
Lemma build_turns_Forall_turn (Q : ConversationTurn → Prop) now sid l entries :
  (∀ n ts entry, Q (new_turn sid n ts (extractUserMessage entry) l)) →
  (∀ n ts, Q (new_turn sid n ts "No message" l)) →
  (∀ found text t, Q t → Q (absorb found text t)) →
  Forall Q (build_turns now sid l entries).
Proof.
  intros Huser Hsynth Habsorb.
  assert (Hpush : ∀ emitted current, Forall Q emitted →
            (∀ t, current = Some t → Q t) → Forall Q (push_if_changed emitted current)).
  { intros emitted [t|] Hem Hcur; simpl; [|done].
    case_bool_decide; [|done]. apply Forall_app. split; [done|].
    constructor; [by apply Hcur|done]. }
  unfold build_turns.
  assert (Hinv : Forall Q (st_turns initial_state) ∧
                 ∀ t, currentTurn initial_state = Some t → Q t) by done.
  revert Hinv. generalize initial_state.
  induction entries as [|e entries IH]; intros st [Hturns Hcur].
  - by apply Hpush.
  - simpl. apply IH. unfold turn_step.
    assert (Hu : Forall Q (st_turns (user_step now sid l st e)) ∧
                 ∀ t, currentTurn (user_step now sid l st e) = Some t → Q t).
    { unfold user_step. destruct (String.eqb (entry_type e) "user"); [|done].
      destruct (isToolResultEntry e); simpl; [done|].
      split; [by apply Hpush|]. intros t [= <-]. apply Huser. }
    revert Hu. generalize (user_step now sid l st e). clear Hturns Hcur st.
    intros st [Hturns Hcur]. unfold assistant_step.
    destruct (String.eqb (entry_type e) "assistant"); [|done].
    destruct (array_content e); [|done].
    destruct (currentTurn st) as [t|] eqn:Hst; simpl.
    + rewrite Hst. simpl. split; [done|]. intros t' [= <-]. by apply Habsorb, Hcur.
    + destruct (_ || _); simpl.
      * split; [done|]. intros t' [= <-]. apply Habsorb, Hsynth.
      * rewrite Hst. simpl. rewrite Hst. split; [done|]. by intros t' [=].
Qed.

(** X10.  The user message of every turn returned is a text that is not
    blank: the message of the user entry, trimmed when its content is a
    string, or the placeholder [No message]; the full message is a copy of
    it. *)
Theorem turn_userMessage_not_blank now projectLogDir dir sid r :
  getSessionWithTurns now projectLogDir dir sid = Ok r →
  Forall (λ t, trim (turn_userMessage t) ≠ "" ∧
               turn_userMessageFull t = turn_userMessage t) (turns r).
Proof.
  intros Hok. apply getSessionWithTurns_Ok in Hok as (f & _ & ->).
  apply build_turns_Forall_turn.
  - intros n ts entry. split; [apply extractUserMessage_not_blank|done].
  - done.
  - intros found text t Ht. rewrite turn_userMessage_absorb.
    assert (turn_userMessageFull (absorb found text t) = turn_userMessageFull t) as ->; [|done].
    unfold absorb. case_bool_decide; destruct (truthy text); try done;
      by destruct (truthy (assistantMessage _)).
Qed.

Lemma turn_userMessage_not_blank_witness :
  ∃ r, getSessionWithTurns "now" "/logs" (one_session (line_of two_writes) []) "s1" = Ok r ∧
       Forall (λ t, trim (turn_userMessage t) ≠ "" ∧
                    turn_userMessageFull t = turn_userMessage t) (turns r).
Proof.
  eexists. split; [vm_compute; reflexivity|].
  apply (turn_userMessage_not_blank "now" "/logs" (one_session (line_of two_writes) []) "s1").
  vm_compute; reflexivity.
Defined.




(** ** The latest flag in the two views *)

Lemma build_turns_Forall_change (P : FileChange → Prop) now sid l entries :
  (∀ entry tid c, c ∈ extractAllFileChanges entry tid l → P c) →
  Forall P (turn_changes (build_turns now sid l entries)).
Proof.
  intros HP. rewrite turn_changes_build_turns.
  assert (H0 : Forall P (state_changes initial_state)) by constructor.
  revert H0. generalize initial_state.
  induction entries as [|e entries IH]; intros st Hst; simpl; [done|].
  apply IH. rewrite state_changes_turn_step. apply Forall_app; split; [done|].
  apply Forall_forall. intros c Hc. unfold entry_changes in Hc.
  destruct (String.eqb (entry_type e) "assistant"); [|by apply elem_of_nil in Hc].
  destruct (array_content e); [|by apply elem_of_nil in Hc].
  by eapply HP.
Qed.

Lemma turn_isLatestSession_absorb found text t :
  turn_isLatestSession (absorb found text t) = turn_isLatestSession t.
Proof.
  unfold absorb. case_bool_decide; destruct (truthy text); try done;
    by destruct (truthy (assistantMessage _)).
Qed.

(** X9.  When the flat view of a session fails, the turn view fails with
    the same error, and when both succeed they agree on whether the
    session is the latest: every turn and every change of the turn view,
    and every change of the flat view, carries the flag of the session;
    the flag is set only for the session the listing marks. *)
Theorem views_agree_on_latest now projectLogDir dir sid :
  (∀ e, getSessionChanges now projectLogDir dir sid = Throw e →
        getSessionWithTurns now projectLogDir dir sid = Throw e) ∧
  (∀ r cs,
     getSessionWithTurns now projectLogDir dir sid = Ok r →
     getSessionChanges now projectLogDir dir sid = Ok cs →
     Forall (λ t, turn_isLatestSession t = swt_isLatest r) (turns r) ∧
     Forall (λ c, fc_isLatestSession c = Some (swt_isLatest r))
       (turn_changes (turns r)) ∧
     Forall (λ c, fc_isLatestSession c = Some (swt_isLatest r) ∧
                  fc_sessionFile c = Some (swt_sessionFile r)) cs ∧
     (swt_isLatest r = true →
      ∃ s rest, getAllSessionMetadata now projectLogDir dir = s :: rest ∧
                isLatest s = true ∧ sessionId s = sid)).
Proof.
  split.
  - intros e. unfold getSessionWithTurns, getSessionChanges.
    destruct (lookup_session dir sid) as [[f|]|]; [discriminate|by intros [= <-]..].
  - intros r cs (f & Hf & _ & ->)%getSessionWithTurns_Ok_inv.
    unfold getSessionChanges. rewrite Hf. intros [= <-].
    cbn [turns swt_isLatest swt_sessionFile].
    set (l := is_latest_session _ sid). split_and!.
    + apply build_turns_Forall_turn; [done..|].
      intros found text t Ht. by rewrite turn_isLatestSession_absorb.
    + apply build_turns_Forall_change. intros entry tid c.
      rewrite extractAllFileChanges_indexed.
      intros (inv & -> & _)%list_elem_of_fmap. by destruct inv as [i [[] input]].
    + apply Forall_fmap, Forall_forall. by intros c _.
    + unfold l, is_latest_session.
      apply lookup_session_Some in Hf as (files & -> & _).
      rewrite getAllSessionMetadata_Directory.
      destruct (sort_sessions (collected now projectLogDir files)) as [|s rest];
        [done|].
      simpl. intros Hsid%String.eqb_eq. by exists (set_isLatest true s), rest.
Qed.

Lemma views_agree_on_latest_witness :
  ∃ r cs,
    getSessionWithTurns "now" "/logs" tie_dir "a" = Ok r ∧
    getSessionChanges "now" "/logs" tie_dir "a" = Ok cs ∧
    Forall (λ t, turn_isLatestSession t = swt_isLatest r) (turns r) ∧
    Forall (λ c, fc_isLatestSession c = Some (swt_isLatest r))
      (turn_changes (turns r)) ∧
    Forall (λ c, fc_isLatestSession c = Some (swt_isLatest r) ∧
                 fc_sessionFile c = Some (swt_sessionFile r)) cs ∧
    (swt_isLatest r = true →
     ∃ s rest, getAllSessionMetadata "now" "/logs" tie_dir = s :: rest ∧
               isLatest s = true ∧ sessionId s = "a").
Proof.
  eexists _, _. split; [vm_compute; reflexivity|]. split; [vm_compute; reflexivity|].
  apply (proj2 (views_agree_on_latest "now" "/logs" tie_dir "a"));
    vm_compute; reflexivity.
Defined.

(** ** Entries that leave the turns alone *)

Lemma turn_step_inert now sid l st entry :
  inert entry = true → turn_step now sid l st entry = st.
Proof.
  unfold inert. intros [Huser Hasst]%andb_true_iff.
  apply negb_true_iff in Hasst. unfold turn_step.
  assert (user_step now sid l st entry = st) as ->.
  { unfold user_step. destruct (String.eqb (entry_type entry) "user"); [|done].
    by rewrite Huser. }
  unfold assistant_step.
  destruct (String.eqb (entry_type entry) "assistant") eqn:Hty; [|done].
  destruct (array_content entry) eqn:Hb; [|done].
  rewrite ?Hty, ?Hb in Hasst. cbn [andb] in Hasst.
  by rewrite bool_decide_eq_true_2 in Hasst by eauto.
Qed.

(** X12.  The turns do not depend on the entries that are neither genuine
    user messages nor assistant entries with array-form content: echoes of
    tool results, assistant entries whose content is a string or missing,
    and entries of any other type can be taken out of a session without
    changing its turns. *)
Theorem inert_entries_change_no_turn now sid isLatestV entries :
  build_turns now sid isLatestV (List.filter (λ e, negb (inert e)) entries)
  = build_turns now sid isLatestV entries.
Proof.
  unfold build_turns. f_equal; f_equal; generalize initial_state;
    induction entries as [|e entries IH]; intros st; try done;
    simpl; destruct (inert e) eqn:He; simpl;
    try (rewrite turn_step_inert by done); apply IH.
Qed.

(** ** The numbers of the turns *)

Lemma StronglySorted_snoc (ks : list nat) (k : nat) :
  StronglySorted lt ks → Forall (λ x, x < k) ks → StronglySorted lt (ks ++ [k]).
Proof.
  induction 1 as [|x ks Hks IH Hx]; intros Hall; simpl.
  - repeat constructor.
  - apply Forall_cons in Hall as [Hxk Hall]. constructor; [by apply IH|].
    apply Forall_app. split; [done|]. by constructor.
Qed.

Lemma numbers_invariant_push sid st :
  numbers_invariant sid st →
  ∃ ks, turn_id <$> push_if_changed (st_turns st) (currentTurn st) = turn_name sid <$> ks ∧
        StronglySorted lt ks ∧ Forall (λ k, 1 ≤ k < S (turnCounter st)) ks.
Proof.
  intros (ks & Hids & Hsorted & Hbound & Hcur).
  assert (Hweak : Forall (λ k, 1 ≤ k < S (turnCounter st)) ks).
  { eapply Forall_impl; [exact Hbound|]. simpl. lia. }
  unfold push_if_changed. destruct (currentTurn st) as [t|]; [|by exists ks].
  case_bool_decide; [|by exists ks].
  destruct (Hcur t eq_refl) as [Hid Hpos].
  exists (ks ++ [turnCounter st]). split_and!.
  - rewrite !fmap_app, Hids. change (turn_id <$> [t]) with [turn_id t].
    by rewrite Hid.
  - apply StronglySorted_snoc; [done|].
    eapply Forall_impl; [exact Hbound|]. simpl. lia.
  - apply Forall_app. split; [done|]. constructor; [lia|done].
Qed.

Lemma numbers_invariant_step now sid l st entry :
  numbers_invariant sid st → numbers_invariant sid (turn_step now sid l st entry).
Proof.
  intros Hinv. unfold turn_step.
  assert (Hu : numbers_invariant sid (user_step now sid l st entry)).
  { unfold user_step. destruct (String.eqb (entry_type entry) "user"); [|done].
    destruct (isToolResultEntry entry); simpl; [done|].
    destruct (numbers_invariant_push sid st Hinv) as (ks & Hids & Hsorted & Hbound).
    exists ks. simpl. split_and!; [done..|].
    intros t [= <-]. simpl. split; [done|lia]. }
  revert Hu. generalize (user_step now sid l st entry). clear Hinv st.
  intros st (ks & Hids & Hsorted & Hbound & Hcur). unfold assistant_step.
  destruct (String.eqb (entry_type entry) "assistant"); [|by exists ks].
  destruct (array_content entry); [|by exists ks].
  destruct (currentTurn st) as [t|] eqn:Hst; simpl.
  - rewrite Hst. exists ks. simpl. split_and!; [done..|].
    intros t' [= <-]. rewrite turn_id_absorb. by apply Hcur.
  - destruct (_ || _); simpl.
    + exists ks. simpl. split_and!; [done| done | |].
      * eapply Forall_impl; [exact Hbound|]. simpl. lia.
      * intros t' [= <-]. rewrite turn_id_absorb. simpl. split; [done|lia].
    + rewrite Hst. simpl. exists ks. rewrite Hst. by split_and!.
Qed.

Lemma turn_name_inj sid : Inj (=) (=) (turn_name sid).
Proof.
  intros n m Heq. unfold turn_name in Heq.
  apply (inj (String.append sid)) in Heq.
  apply (inj (String.append "-turn-")) in Heq. by apply tpl_nat_inj.
Qed.

(** X13.  The ids of the turns returned are [<sessionId>-turn-k] for
    numbers k that start at 1 or above and increase along the list, so no
    two turns share an id. *)
Theorem turn_ids_increase now projectLogDir dir sid r :
  getSessionWithTurns now projectLogDir dir sid = Ok r →
  ∃ ks, turn_id <$> turns r = turn_name sid <$> ks ∧
        StronglySorted lt ks ∧ Forall (λ k, 1 ≤ k) ks ∧
        NoDup (turn_id <$> turns r).
Proof.
  intros Hok. apply getSessionWithTurns_Ok in Hok as (f & _ & ->).
  unfold build_turns.
  set (st := foldl _ _ _).
  assert (Hinv : numbers_invariant sid st).
  { unfold st. clear st.
    assert (H0 : numbers_invariant sid initial_state).
    { exists []. split_and!; [done|constructor|constructor|done]. }
    revert H0. generalize initial_state.
    induction (valid_entries (file_lines f)) as [|e es IH]; intros st0 H0; [done|].
    simpl. by apply IH, numbers_invariant_step. }
  destruct (numbers_invariant_push sid st Hinv) as (ks & Hids & Hsorted & Hbound).
  exists ks. split_and!; [done..| |].
  - eapply Forall_impl; [exact Hbound|]. simpl. lia.
  - rewrite Hids. apply (@NoDup_fmap_2 _ _ (turn_name sid) (turn_name_inj sid)).
    clear -Hsorted. induction Hsorted as [|k ks Hks IH Hk]; constructor; [|done].
    intros Hin. rewrite Forall_forall in Hk. apply Hk in Hin. lia.
Qed.

Lemma turn_ids_increase_witness :
  ∃ r, getSessionWithTurns "now" "/logs"
         (one_session (line_of (user_entry "t" (StringContent " "))) attributed_lines) "s1"
       = Ok r ∧
  ∃ ks, turn_id <$> turns r = turn_name "s1" <$> ks ∧
        StronglySorted lt ks ∧ Forall (λ k, 1 ≤ k) ks ∧
        NoDup (turn_id <$> turns r).
Proof.
  eexists. split; [vm_compute; reflexivity|].
  apply (turn_ids_increase "now" "/logs"
           (one_session (line_of (user_entry "t" (StringContent " "))) attributed_lines) "s1").
  vm_compute; reflexivity.
Defined.

(** ** The turn a user message opens *)

Lemma join_truthy sep (parts : list string) :
  Forall (λ s, truthy s = true) parts →
  truthy (join sep parts) = match parts with [] => false | _ :: _ => true end.
Proof.
  intros Hall. destruct parts as [|x [|y rest]]; [done| |].
  - by apply Forall_cons in Hall as [Hx _].
  - apply Forall_cons in Hall as [Hx _]. unfold join. simpl. by destruct x.
Qed.

Lemma join_app sep (xs ys : list string) :
  xs ≠ [] → ys ≠ [] →
  join sep (xs ++ ys) = join sep xs +:+ sep +:+ join sep ys.
Proof.
  intros Hxs Hys. induction xs as [|x xs IH]; [done|].
  destruct xs as [|x' xs].
  - destruct ys as [|y ys]; [done|]. done.
  - change (join sep ((x :: x' :: xs) ++ ys))
      with (x +:+ sep +:+ join sep ((x' :: xs) ++ ys)).
    change (join sep (x :: x' :: xs)) with (x +:+ sep +:+ join sep (x' :: xs)).
    rewrite IH by done. by rewrite !string_app_assoc.
Qed.

(** The assistant message after one more entry, as [absorb] computes it. *)
Lemma join_absorb sep (xs ys : list string) :
  Forall (λ s, truthy s = true) xs → Forall (λ s, truthy s = true) ys →
  (if truthy (join sep ys)
   then if truthy (join sep xs) then join sep xs +:+ sep +:+ join sep ys
        else join sep ys
   else join sep xs)
  = join sep (xs ++ ys).
Proof.
  intros Hxs Hys. rewrite !join_truthy by done.
  destruct ys as [|y ys]; [by rewrite app_nil_r|].
  destruct xs as [|x xs]; [done|]. by rewrite join_app.
Qed.

Lemma foldl_text_step blocks acc :
  foldl text_step acc blocks
  = acc ++ ((λ c, trim (default "" (block_text c))) <$> List.filter is_nonblank_text blocks).
Proof.
  revert acc. induction blocks as [|c rest IH]; intros acc; simpl.
  - by rewrite app_nil_r.
  - rewrite IH. unfold text_step. destruct (is_nonblank_text c); [|done].
    by rewrite <-(assoc_L (++)).
Qed.

Lemma assistant_texts_truthy entry :
  Forall (λ s, truthy s = true) (assistant_texts entry).
Proof.
  unfold assistant_texts.
  destruct (String.eqb (entry_type entry) "assistant"); [|constructor].
  destruct (array_content entry) as [blocks|]; [|constructor].
  apply Forall_fmap, Forall_forall. intros c Hc.
  apply list_elem_of_In, filter_In in Hc as [_ Hc].
  apply is_nonblank_text_spec in Hc as [_ (t & Hc & Ht)].
  cbn [compose]. rewrite Hc. cbn [default from_option].
  change (truthy (trim t) = true). destruct (trim t) eqn:E; [congruence|done].
Qed.

Lemma extractAssistantText_array entry blocks :
  String.eqb (entry_type entry) "assistant" = true →
  array_content entry = Some blocks →
  extractAssistantText entry = join (newline +:+ newline) (assistant_texts entry).
Proof.
  intros Hty Hb. unfold extractAssistantText, assistant_texts, has_content.
  rewrite Hty, Hb. unfold array_content in Hb.
  destruct (message_content entry) as [[s|blocks']|]; [done| |done].
  injection Hb as ->. simpl. by rewrite foldl_text_step.
Qed.

Lemma absorb_record found text t :
  absorb found text t
  = {| turn_id := turn_id t; turn_timestamp := turn_timestamp t;
       turn_userMessage := turn_userMessage t;
       turn_userMessageFull := turn_userMessageFull t;
       assistantMessage :=
         if truthy text
         then if truthy (assistantMessage t)
              then assistantMessage t +:+ newline +:+ newline +:+ text
              else text
         else assistantMessage t;
       fileChanges := fileChanges t ++ found;
       turn_isLatestSession := turn_isLatestSession t |}.
Proof.
  unfold absorb. case_bool_decide as Hlen.
  - destruct (truthy text); [|by destruct t].
    cbn [add_changes assistantMessage]. by destruct (truthy (assistantMessage t)).
  - assert (found = []) as -> by (destruct found; simpl in *; [done|lia]).
    rewrite app_nil_r. destruct (truthy text); [|by destruct t].
    destruct (truthy (assistantMessage t)); by destruct t.
Qed.

Lemma absorb_grown found text texts more t0 t :
  t = grown t0 more texts →
  Forall (λ s, truthy s = true) texts →
  ∀ new, Forall (λ s, truthy s = true) new → text = join (newline +:+ newline) new →
  absorb found text t = grown t0 (more ++ found) (texts ++ new).
Proof.
  intros -> Htexts new Hnew ->. rewrite absorb_record. unfold grown.
  cbn [turn_id turn_timestamp turn_userMessage turn_userMessageFull assistantMessage
       fileChanges turn_isLatestSession].
  rewrite <-(join_absorb (newline +:+ newline) texts new Htexts Hnew).
  by rewrite <-(assoc_L (++)).
Qed.

Lemma truthy_turn_name sid n : truthy (turn_name sid n) = true.
Proof. unfold turn_name. by destruct sid. Qed.

Lemma user_is_not_assistant entry :
  String.eqb (entry_type entry) "user" = true →
  String.eqb (entry_type entry) "assistant" = false.
Proof. intros ->%String.eqb_eq. done. Qed.

(** An open turn takes in every entry up to the next genuine user
    message. *)
Lemma open_turn_absorbs now sid l n t0 rest :
  turn_id t0 = turn_name sid n →
  Forall (λ e, is_genuine_user e = false) rest →
  ∀ st more texts,
    currentTurn st = Some (grown t0 more texts) →
    Forall (λ s, truthy s = true) texts →
    foldl (turn_step now sid l) st rest
    = {| st_turns := st_turns st;
         currentTurn :=
           Some (grown t0 (more ++ (rest ≫= changes_under (turn_name sid n) l))
                   (texts ++ (rest ≫= assistant_texts)));
         turnCounter := turnCounter st |}.
Proof.
  intros Hid. induction 1 as [|e rest He _ IH]; intros st more texts Hcur Htexts.
  - simpl. rewrite !app_nil_r. destruct st; simpl in *. by rewrite Hcur.
  - cbn [foldl]. rewrite !bind_cons, !(assoc_L (++)).
    assert (Hstep : turn_step now sid l st e
              = {| st_turns := st_turns st;
                   currentTurn := Some (grown t0 (more ++ changes_under (turn_name sid n) l e)
                                          (texts ++ assistant_texts e));
                   turnCounter := turnCounter st |}).
    { unfold turn_step.
      assert (user_step now sid l st e = st) as ->.
      { unfold user_step, is_genuine_user in *.
        destruct (String.eqb (entry_type e) "user"); [|done].
        simpl in He. by destruct (isToolResultEntry e). }
      unfold assistant_step, changes_under, assistant_texts.
      destruct (String.eqb (entry_type e) "assistant") eqn:Hty;
        [|rewrite !app_nil_r; destruct st; simpl in *; by rewrite Hcur].
      destruct (array_content e) as [blocks|] eqn:Hb;
        [|rewrite !app_nil_r; destruct st; simpl in *; by rewrite Hcur].
      rewrite Hcur. cbn [fmap option_fmap option_map currentTurn st_turns turnCounter].
      rewrite Hcur. f_equal. f_equal.
      assert (Hext : or_else (Some (turn_id (grown t0 more texts))) (turn_name sid 0)
                     = turn_name sid n).
      { cbn [grown turn_id or_else]. by rewrite Hid, truthy_turn_name. }
      rewrite Hext.
      pose proof (absorb_grown (extractAllFileChanges e (turn_name sid n) l)
                    (extractAssistantText e) texts more t0 _ eq_refl Htexts
                    (assistant_texts e) (assistant_texts_truthy e)
                    (extractAssistantText_array e blocks Hty Hb)) as Habs.
      rewrite Habs. unfold assistant_texts. by rewrite Hty, Hb. }
    rewrite Hstep. rewrite (IH _ (more ++ changes_under (turn_name sid n) l e)
                              (texts ++ assistant_texts e)); [done|done|].
    apply Forall_app. split; [done|apply assistant_texts_truthy].
Qed.

(** X14.  A genuine user message opens a turn that takes in every entry
    up to the next genuine user message: the turns of a session that ends
    with such a message [u] followed by entries [rest] without one are the
    turns of what comes before [u], then, if it has a change, the turn of
    [u]: numbered one above the turns opened before, with the message of
    [u], the changes of [rest] in order under the id of the turn, and for
    assistant message the non-blank texts of [rest], trimmed and joined by
    blank lines. *)
Theorem turn_of_user_message now sid isLatestV pre u rest :
  is_genuine_user u = true →
  Forall (λ e, is_genuine_user e = false) rest →
  build_turns now sid isLatestV (pre ++ u :: rest)
  = push_if_changed (build_turns now sid isLatestV pre)
      (Some (opened_turn now sid isLatestV
               (S (turnCounter (foldl (turn_step now sid isLatestV) initial_state pre)))
               u rest)).
Proof.
  intros Hu Hrest. unfold build_turns at 1. rewrite foldl_app. simpl.
  set (st := foldl (turn_step now sid isLatestV) initial_state pre).
  apply andb_true_iff in Hu as [Hty Hecho]. apply negb_true_iff in Hecho.
  assert (Hstep : turn_step now sid isLatestV st u
            = {| st_turns := push_if_changed (st_turns st) (currentTurn st);
                 currentTurn :=
                   Some (grown (new_turn sid (S (turnCounter st))
                                  (or_else (entry_timestamp u) now)
                                  (extractUserMessage u) isLatestV) [] []);
                 turnCounter := S (turnCounter st) |}).
  { unfold turn_step, user_step. rewrite Hty, Hecho. simpl.
    unfold assistant_step. by rewrite (user_is_not_assistant u Hty). }
  rewrite Hstep.
  rewrite (open_turn_absorbs now sid isLatestV (S (turnCounter st))
             (new_turn sid (S (turnCounter st)) (or_else (entry_timestamp u) now)
                (extractUserMessage u) isLatestV) rest eq_refl Hrest
             {| st_turns := push_if_changed (st_turns st) (currentTurn st);
                currentTurn :=
                  Some (grown (new_turn sid (S (turnCounter st))
                                 (or_else (entry_timestamp u) now)
                                 (extractUserMessage u) isLatestV) [] []);
                turnCounter := S (turnCounter st) |} [] [] eq_refl);
    [|constructor].
  done.
Qed.

Lemma turn_of_user_message_witness :
  build_turns "now" "s1" true
    ([user_entry "t0" (StringContent "first")] ++
     user_entry "t1" (StringContent "add a readme") ::
     [assistant_entry "t2"
        [text_block " On it. ";
         tool_use "Write" (Some (write_input (Some "README.md") "x"))];
      user_entry "t3" (ArrayContent [tool_result_block]);
      assistant_entry "t4" [text_block "Done."]])
  = [ {| turn_id := "s1-turn-2"; turn_timestamp := "t1";
         turn_userMessage := "add a readme"; turn_userMessageFull := "add a readme";
         assistantMessage := "On it." +:+ newline +:+ newline +:+ "Done.";
         fileChanges :=
           extractAllFileChanges
             (assistant_entry "t2"
                [text_block " On it. ";
                 tool_use "Write" (Some (write_input (Some "README.md") "x"))])
             "s1-turn-2" true;
         turn_isLatestSession := true |} ].
Proof.
  rewrite (turn_of_user_message "now" "s1" true
             [user_entry "t0" (StringContent "first")]
             (user_entry "t1" (StringContent "add a readme"))).
  - vm_compute. reflexivity.
  - reflexivity.
  - repeat constructor.
Defined.

(** ** The flat view of a session *)

Lemma fmap_omap {A B C} (g : B → C) (h : A → option B) (xs : list A) :
  g <$> omap h xs = omap (λ x, g <$> h x) xs.
Proof.
  induction xs as [|x xs IH]; [done|].
  change (omap h (x :: xs))
    with (match h x with Some y => y :: omap h xs | None => omap h xs end).
  change (omap (λ x, g <$> h x) (x :: xs))
    with (match g <$> h x with
          | Some y => y :: omap (λ x, g <$> h x) xs
          | None => omap (λ x, g <$> h x) xs
          end).
  destruct (h x); simpl; by rewrite <-IH.
Qed.

(** X15.  The flat view returns one change for each assistant entry that
    holds a file-mutating invocation, in entry order: the change of the
    first such invocation of the entry, whether or not it names a target,
    with the timestamp of the entry and an id made of that timestamp and
    the tool.  Later invocations of the same entry are not returned. *)
Theorem flat_view_takes_first_invocation now projectLogDir dir sid cs :
  getSessionChanges now projectLogDir dir sid = Ok cs →
  ∃ f, lookup_session dir sid = Some (Some f) ∧
       (λ c, (fc_id c, fc_timestamp c, change_core c)) <$> cs
       = omap (λ e, (λ inv : Invocation,
                       (flat_path_id (stamp e) (fst inv), entry_timestamp e,
                        invocation_core inv)) <$> first_invocation e)
           (valid_entries (file_lines f)).
Proof.
  unfold getSessionChanges.
  destruct (lookup_session dir sid) as [[f|]|]; [|done..].
  intros [= <-]. exists f. split; [done|].
  rewrite <-list_fmap_compose, parseLogFile_flat, fmap_omap.
  apply list_omap_ext, Forall2_same_length_lookup_2; [done|].
  intros i e e' He He'. rewrite He in He'. injection He' as <-.
  unfold flat_entry_change, first_invocation.
  destruct (head (file_invocations (assistant_blocks e))) as [[kind input]|]; [|done].
  simpl. by destruct kind.
Qed.

Lemma flat_view_takes_first_invocation_witness :
  ∃ cs, getSessionChanges "now" "/logs" (one_session (line_of two_writes) []) "s1" = Ok cs ∧
  ∃ f, lookup_session (one_session (line_of two_writes) []) "s1" = Some (Some f) ∧
       (λ c, (fc_id c, fc_timestamp c, change_core c)) <$> cs
       = omap (λ e, (λ inv : Invocation,
                       (flat_path_id (stamp e) (fst inv), entry_timestamp e,
                        invocation_core inv)) <$> first_invocation e)
           (valid_entries (file_lines f)).
Proof.
  eexists. split; [vm_compute; reflexivity|].
  apply (flat_view_takes_first_invocation "now" "/logs"
           (one_session (line_of two_writes) []) "s1").
  vm_compute; reflexivity.
Defined.

Lemma payload_core_invocation ts inv :
  (λ p : Payload, (p.1.1.1.2, p.1.1.2, p.1.2, p.2)) (invocation_payload ts inv)
  = invocation_core inv.
Proof. by destruct inv as [[] input]. Qed.

Lemma single_targeted_payloads entry :
  single_targeted entry = true →
  (λ p : Payload, (p.1.1.1.2, p.1.1.2, p.1.2, p.2)) <$> entry_payloads entry
  = option_list (invocation_core <$> first_invocation entry).
Proof.
  unfold single_targeted, entry_payloads, first_invocation.
  destruct (file_invocations (assistant_blocks entry)) as [|inv [|inv' invs]];
    [done| |done].
  intros Hinv. simpl. rewrite Hinv. simpl. by rewrite payload_core_invocation.
Qed.

(** X16.  On a session in which every assistant entry holds at most one
    file-mutating invocation, and every such invocation names a target,
    the flat view and the turn view return the same changes in the same
    order: the same kinds, targets and payloads. *)
Theorem flat_and_turn_views_agree now projectLogDir dir sid r cs f :
  getSessionWithTurns now projectLogDir dir sid = Ok r →
  getSessionChanges now projectLogDir dir sid = Ok cs →
  lookup_session dir sid = Some (Some f) →
  Forall (λ e, single_targeted e = true) (valid_entries (file_lines f)) →
  change_core <$> cs = change_core <$> turn_changes (turns r).
Proof.
  intros (f' & Hf' & _ & ->)%getSessionWithTurns_Ok_inv Hcs Hf Hall.
  rewrite Hf in Hf'. injection Hf' as <-.
  unfold getSessionChanges in Hcs. rewrite Hf in Hcs. injection Hcs as <-.
  cbn [turns].
  rewrite <-list_fmap_compose, parseLogFile_flat.
  assert (Hcore : ∀ xs : list FileChange,
            change_core <$> xs
            = (λ p : Payload, (p.1.1.1.2, p.1.1.2, p.1.2, p.2)) <$> (change_payload <$> xs)).
  { intros xs. rewrite <-list_fmap_compose. done. }
  rewrite (Hcore (turn_changes _)), build_turns_payloads. clear Hcore.
  induction Hall as [|e es He _ IH]; [done|].
  rewrite bind_cons, fmap_app, single_targeted_payloads, <-IH by done.
  change (omap flat_entry_change (e :: es))
    with (match flat_entry_change e with
          | Some c => c :: omap flat_entry_change es
          | None => omap flat_entry_change es
          end).
  unfold flat_entry_change at 1, first_invocation.
  destruct (head (file_invocations (assistant_blocks e))) as [[kind input]|]; [|done].
  simpl. f_equal. by destruct kind.
Qed.

Lemma flat_and_turn_views_agree_witness :
  ∃ r cs,
    getSessionWithTurns "now" "/logs" same_stamp_dir "s1" = Ok r ∧
    getSessionChanges "now" "/logs" same_stamp_dir "s1" = Ok cs ∧
    change_core <$> cs = change_core <$> turn_changes (turns r).
Proof.
  eexists _, _. split; [vm_compute; reflexivity|]. split; [vm_compute; reflexivity|].
  eapply (flat_and_turn_views_agree "now" "/logs" same_stamp_dir "s1").
  - vm_compute; reflexivity.
  - vm_compute; reflexivity.
  - vm_compute; reflexivity.
  - vm_compute. repeat constructor.
Defined.

(** ** The latest log file *)

Lemma stat_files_prefix projectPath files allFiles :
  stat_files projectPath files allFiles
  = allFiles ++ ((λ x : string * Z, (path_join projectPath (fst x), snd x))
                   <$> statable_prefix files).
Proof.
  revert allFiles. induction files as [|[file node] rest IH]; intros allFiles; simpl.
  - by rewrite app_nil_r.
  - destruct (node_mtime node) as [m|]; [|by rewrite app_nil_r].
    rewrite IH, <-(assoc_L (++)). done.
Qed.

Lemma insert_file_perm x sorted : insert_file x sorted ≡ₚ x :: sorted.
Proof.
  induction sorted as [|y rest IH]; simpl; [done|].
  destruct (snd y <=? snd x)%Z; [done|]. rewrite IH. apply Permutation_swap.
Qed.

Lemma sort_files_perm allFiles : sort_files allFiles ≡ₚ allFiles.
Proof.
  induction allFiles as [|x xs IH]; simpl; [done|].
  by rewrite insert_file_perm, IH.
Qed.

Lemma insert_file_sorted x sorted :
  StronglySorted (λ a b : string * Z, (snd b ≤ snd a)%Z) sorted →
  StronglySorted (λ a b : string * Z, (snd b ≤ snd a)%Z) (insert_file x sorted).
Proof.
  induction 1 as [|y rest Hsorted IH Hall]; simpl.
  - repeat constructor.
  - destruct (snd y <=? snd x)%Z eqn:Hle.
    + apply Z.leb_le in Hle. constructor; [by constructor|].
      constructor; [done|]. eapply Forall_impl; [exact Hall|]. simpl. lia.
    + apply Z.leb_gt in Hle. constructor; [done|].
      rewrite insert_file_perm. constructor; [lia|done].
Qed.

Lemma sort_files_sorted allFiles :
  StronglySorted (λ a b : string * Z, (snd b ≤ snd a)%Z) (sort_files allFiles).
Proof.
  induction allFiles as [|x xs IH]; simpl; [constructor|].
  by apply insert_file_sorted.
Qed.

Lemma getLatestLogFile_single logDir cur projectDirs files :
  List.filter (λ d, String.eqb (fst d) cur) projectDirs = [(cur, Dir files)] →
  getLatestLogFile logDir cur (Some projectDirs)
  = fst <$> head (sort_files
      ((λ x : string * Z, (path_join (path_join logDir cur) (fst x), snd x))
         <$> statable_prefix (List.filter (λ f, endsWith (fst f) ".jsonl") files))).
Proof.
  intros Hmatch. unfold getLatestLogFile. rewrite Hmatch. simpl.
  unfold scan_dir. simpl. rewrite stat_files_prefix, app_nil_l.
  case_bool_decide as Hlen; [|done].
  by destruct (_ <$> statable_prefix _).
Qed.

(** X17.  When the log directory holds the directory of the project,
    [getLatestLogFile] looks at its session files in directory order up to
    the first one on which [stat] throws: it returns nothing when there is
    none before it, and otherwise the path of one of them whose
    last-modified time no other of them exceeds.  Session files listed
    after the one on which [stat] throws are not considered. *)
Theorem latest_log_file_among_statable logDir cur projectDirs files :
  List.filter (λ d, String.eqb (fst d) cur) projectDirs = [(cur, Dir files)] →
  let seen := statable_prefix (List.filter (λ f, endsWith (fst f) ".jsonl") files) in
  match getLatestLogFile logDir cur (Some projectDirs) with
  | None => seen = []
  | Some path =>
      ∃ file m, (file, m) ∈ seen ∧
                path = path_join (path_join logDir cur) file ∧
                Forall (λ x, (snd x ≤ m)%Z) seen
  end.
Proof.
  intros Hmatch seen. rewrite (getLatestLogFile_single _ _ _ _ Hmatch). fold seen.
  set (g := λ x : string * Z, (path_join (path_join logDir cur) (fst x), snd x)).
  pose proof (sort_files_perm (g <$> seen)) as Hperm.
  pose proof (sort_files_sorted (g <$> seen)) as Hsorted.
  destruct (sort_files (g <$> seen)) as [|[path m] rest]; simpl.
  - apply Permutation_nil_l in Hperm. symmetry in Hperm.
    by apply fmap_nil_inv in Hperm.
  - assert (Hin : (path, m) ∈ g <$> seen).
    { rewrite <-Hperm. apply list_elem_of_here. }
    assert (Hmax : ∀ x, x ∈ g <$> seen → (snd x ≤ m)%Z).
    { intros x Hx. rewrite <-Hperm in Hx.
      apply elem_of_cons in Hx as [->|Hx]; [simpl; lia|].
      apply StronglySorted_inv in Hsorted as [_ Hall].
      rewrite Forall_forall in Hall. apply (Hall _ Hx). }
    apply list_elem_of_fmap in Hin as ([file m'] & [= -> ->] & Hin).
    exists file, m'. split_and!; [done..|].
    apply Forall_forall. intros x Hx.
    apply (Hmax (g x)), list_elem_of_fmap. by exists x.
Qed.

Lemma latest_log_file_among_statable_witness :
  match getLatestLogFile "/home/u/.claude/projects" "-work-app"
          (Some [("-work-other", NotDir); ("-work-app", Dir broken_stat_files)]) with
  | None => statable_prefix broken_stat_files = []
  | Some path =>
      ∃ file m, (file, m) ∈ statable_prefix broken_stat_files ∧
                path = path_join (path_join "/home/u/.claude/projects" "-work-app") file ∧
                Forall (λ x, (snd x ≤ m)%Z) (statable_prefix broken_stat_files)
  end.
Proof.
  apply (latest_log_file_among_statable "/home/u/.claude/projects" "-work-app"
           [("-work-other", NotDir); ("-work-app", Dir broken_stat_files)]
           broken_stat_files).
  reflexivity.
Defined.

Lemma readable_view_filter files :
  List.filter is_jsonl (readable_view files)
  = readable_view (List.filter (λ f, endsWith (fst f) ".jsonl") files).
Proof.
  unfold readable_view. induction files as [|[file node] rest IH]; [done|].
  rewrite fmap_cons. simpl. unfold is_jsonl at 1. simpl.
  destruct (endsWith file ".jsonl"); simpl; by rewrite IH.
Qed.

Lemma collected_of_readable now p files :
  Forall (λ f : string * FileNode, ∃ s, snd f = Readable s) files →
  (λ s, (sessionFile s, mtime s))
    <$> omap (λ f, extractSessionMetadata now p (fst f) (snd f)) (readable_view files)
  = (λ x : string * Z, (path_join p (fst x), snd x)) <$> statable_prefix files.
Proof.
  unfold readable_view. induction 1 as [|[file node] rest [s Hs] _ IH]; [done|].
  simpl in Hs. subst node. rewrite fmap_cons.
  change (omap ?h (?x :: ?xs))
    with (match h x with Some y => y :: omap h xs | None => omap h xs end).
  destruct (extractSessionMetadata_readable now p file s) as [md Hmd].
  cbn [fst snd]. rewrite Hmd.
  change (statable_prefix ((file, Readable s) :: rest))
    with ((file, file_mtime s) :: statable_prefix rest).
  rewrite !fmap_cons, IH. f_equal.
  apply extractSessionMetadata_Some in Hmd as (s' & [= <-] & _ & Hfile & Hm & _).
  cbn [fst snd]. by rewrite Hfile, Hm.
Qed.

Lemma insert_session_file s sorted :
  (λ s, (sessionFile s, mtime s)) <$> insert_session s sorted
  = insert_file (sessionFile s, mtime s) ((λ s, (sessionFile s, mtime s)) <$> sorted).
Proof.
  induction sorted as [|s' rest IH]; [done|].
  rewrite fmap_cons. simpl. destruct (mtime s' <=? mtime s)%Z; [done|].
  rewrite fmap_cons, IH. done.
Qed.

Lemma sort_sessions_files sessions :
  (λ s, (sessionFile s, mtime s)) <$> sort_sessions sessions
  = sort_files ((λ s, (sessionFile s, mtime s)) <$> sessions).
Proof.
  induction sessions as [|s sessions IH]; [done|].
  rewrite fmap_cons. simpl. by rewrite insert_session_file, IH.
Qed.

Lemma filter_all_readable files :
  all_sessions_readable files →
  Forall (λ f : string * FileNode, ∃ s, snd f = Readable s)
    (List.filter (λ f, endsWith (fst f) ".jsonl") files).
Proof.
  intros Hall. apply Forall_forall. intros f Hf.
  apply list_elem_of_In, filter_In in Hf as [Hf Hjsonl]. apply list_elem_of_In in Hf.
  unfold all_sessions_readable in Hall. rewrite Forall_forall in Hall.
  by apply Hall.
Qed.

(** X18.  When every session file of the project directory can be read,
    [getLatestLogFile] and the listing agree: the latest log file is the
    file of the first session of the listing, the one marked latest, and
    there is none exactly when the listing is empty. *)
Theorem latest_log_file_is_listed_first now logDir cur projectDirs files :
  List.filter (λ d, String.eqb (fst d) cur) projectDirs = [(cur, Dir files)] →
  all_sessions_readable files →
  getLatestLogFile logDir cur (Some projectDirs)
  = sessionFile <$> head (getAllSessionMetadata now (path_join logDir cur)
                            (Directory (readable_view files))).
Proof.
  intros Hmatch Hall. rewrite (getLatestLogFile_single _ _ _ _ Hmatch).
  rewrite getAllSessionMetadata_Directory, collected_omap, readable_view_filter.
  rewrite <-(collected_of_readable now) by by apply filter_all_readable.
  rewrite <-sort_sessions_files.
  by destruct (sort_sessions _).
Qed.

Lemma latest_log_file_is_listed_first_witness :
  getLatestLogFile "/home/u/.claude/projects" "-work-app"
    (Some [("-work-other", NotDir); ("-work-app", Dir readable_files)])
  = sessionFile <$> head (getAllSessionMetadata "now"
                            (path_join "/home/u/.claude/projects" "-work-app")
                            (Directory (readable_view readable_files))).
Proof.
  apply latest_log_file_is_listed_first.
  - reflexivity.
  - repeat constructor; simpl; intros; try discriminate; eauto.
Defined.
(** ** Lines that are not records *)

(** X19.  A line on which [JSON.parse] throws, and a line that decodes to
    a number, a string, a boolean or an array, is passed over by every
    scan; a line that decodes to [null] is passed over by the flat scan
    and by the listing, and makes the turn scan throw a TypeError.  So the
    flat changes and the listing computed from a directory are those
    computed with the lines that are not records deleted from every
    session file, and so is the turn view of a session unless a line of
    its file is [null]. *)
Theorem lines_without_record_are_skipped now projectLogDir dir sid :
  getSessionChanges now projectLogDir (dir_without_malformed dir) sid
    = getSessionChanges now projectLogDir dir sid ∧
  getAllSessionMetadata now projectLogDir (dir_without_malformed dir)
    = getAllSessionMetadata now projectLogDir dir ∧
  match lookup_session dir sid with
  | Some (Some f) =>
      getSessionWithTurns now projectLogDir dir sid
      = if existsb is_null (file_lines f) then Throw TypeError
        else getSessionWithTurns now projectLogDir (dir_without_malformed dir) sid
  | Some None | None =>
      getSessionWithTurns now projectLogDir (dir_without_malformed dir) sid
      = getSessionWithTurns now projectLogDir dir sid
  end.
Proof.
  split_and!.
  - apply getSessionChanges_without_malformed.
  - apply getAllSessionMetadata_without_malformed.
  - destruct (lookup_session dir sid) as [[f|]|] eqn:Hf.
    + destruct (existsb is_null (file_lines f)) eqn:Hnull.
      * by rewrite (getSessionWithTurns_readable now projectLogDir dir sid f Hf), Hnull.
      * symmetry. by eapply getSessionWithTurns_without_malformed.
    + unfold getSessionWithTurns.
      by rewrite lookup_session_without_malformed, Hf.
    + unfold getSessionWithTurns.
      by rewrite lookup_session_without_malformed, Hf.
Qed.

(** ** The id of a session and the name of its file *)







(** Without the proviso the id of the listing does not open the session:
    the file [x.jsonly.jsonl] is listed under [xy.jsonl], an id under
    which no file is found. *)
Example odd_name_is_not_found :
  sessionId <$> getAllSessionMetadata "now" "/logs" odd_name_dir = ["xy.jsonl"] ∧
  getSessionChanges "now" "/logs" odd_name_dir "xy.jsonl"
  = Throw (Error "Session file not found: xy.jsonl") ∧
  first_at_end ".jsonl" "x.jsonly" = false.
Proof. split_and!; vm_compute; reflexivity. Qed.
